(** * DWS node provisioning, service registry and external-chain deployment

    A shallow embedding of
    - [apps/dws/api/infrastructure/eqlite-node-service.ts]
      ([EQLiteNodeService]: [createDatabase], [stopNode], the heartbeat loop),
    - the external-chain provisioning script ([CHAIN_CONFIGS], [deployDWSNode]),
    - the node registry, the stateful provisioner and the service discovery
      layer, restated from their documented contract: the sources import or
      re-export these modules without carrying them. *)

From Stdlib Require Import ZArith String List Lia.
From stdpp Require Import base option list sorting gmap strings pretty.

Local Open Scope string_scope.
Local Open Scope Z_scope.

(** ** Asynchronous calls that may reject

    Every [await] of the sources either yields a value or rejects; a rejection
    propagates like a thrown exception until a [try]/[catch] handles it.
    Effects performed before the rejection stay performed, so the world is
    threaded through both results. *)

Inductive Err : Type :=
| NotEnoughActiveMiners (need : Z) (have : nat)
    (* new Error(`Not enough active miners: need ${nodeCount}, have ${length}`) *)
| UnsupportedChain (chain : string)
    (* new Error(`Unsupported chain: ${chain}`) *)
| Rejected (what : string).
    (* a rejection raised by a collaborator: RPC read, wallet, fetch, registry *)

Inductive outcome (A : Type) : Type :=
| Returned (a : A)
| Thrown (e : Err).
Arguments Returned {A} a.
Arguments Thrown {A} e.

Module Eff.
Definition M (W A : Type) : Type := W -> outcome A * W.

Definition ret {W A} (a : A) : M W A := fun w => (Returned a, w).
Definition throw {W A} (e : Err) : M W A := fun w => (Thrown e, w).
Definition bind {W A B} (m : M W A) (k : A -> M W B) : M W B :=
  fun w => match m w with
           | (Returned a, w') => k a w'
           | (Thrown e, w') => (Thrown e, w')
           end.
(** [try { m } catch (err) { h err }] *)
Definition try_catch {W A} (m : M W A) (h : Err -> M W A) : M W A :=
  fun w => match m w with
           | (Returned a, w') => (Returned a, w')
           | (Thrown e, w') => h e w'
           end.
Definition get {W} : M W W := fun w => (Returned w, w).
Definition modify {W} (f : W -> W) : M W unit := fun w => (Returned tt, f w).
(** awaiting a promise whose settlement the environment decides *)
Definition await {W A} (o : outcome A) : M W A := fun w => (o, w).
End Eff.

Notation "x <~ m ;; k" := (Eff.bind m (fun x => k))
  (at level 100, m at next level, right associativity).
Notation "m ;;> k" := (Eff.bind m (fun _ => k))
  (at level 100, right associativity).

(** ** EQLite node service *)

Module EQLiteNodeService.

(** [Hex]: a 0x-prefixed 32-byte value, read as a number. *)
Definition Hex : Type := N.
Definition Address : Type := N.

(** The calls of [EQLITE_REGISTRY_ABI] that the service encodes with
    [encodeFunctionData]. *)
Inductive Calldata : Type :=
| HeartbeatCall (nodeId : Hex) (queryCount : N)
| CreateDatabaseCall (databaseId : Hex) (minerNodeIds : list Hex).

(** The argument of [walletClient.sendTransaction] ([chain] is always
    [null]). *)
Record Tx : Type := mkTx {
  tx_account : Address;
  tx_to : Address;
  tx_data : Calldata
}.

(** [EQLiteNodeStatus] is declared in [@jejunetwork/db]; the service only
    compares against [RUNNING]. *)
Inductive EQLiteNodeStatus : Type :=
| RUNNING
| OtherStatus (tag : string).

Definition status_is_running (s : EQLiteNodeStatus) : bool :=
  match s with RUNNING => true | OtherStatus _ => false end.

(** What [nodeManager.getState()] reports. *)
Record NodeState : Type := mkNodeState {
  st_nodeId : string;
  st_status : EQLiteNodeStatus;
  st_databaseCount : N
}.

Record EQLiteNodeServiceConfig : Type := mkConfig {
  account : Address;               (* privateKeyToAccount(config.privateKey) *)
  eqliteRegistryAddress : Address
}.

Inductive LogLine : Type :=
| HeartbeatFailed (err : Err)      (* console.error(`[EQLite Service] Heartbeat failed:`, err) *)
| DWSHeartbeatFailed (err : Err)   (* console.error(`[EQLite Service] DWS heartbeat failed:`, err) *)
| DatabaseCreated (databaseId : Hex)
| AssignedToMiners (miners : list Hex).

(** The mutable fields of the service object together with everything it
    has done to the outside: every [sendTransaction] and registry
    [heartbeat] call issued (resolved or not), the console, and the live
    [setInterval] timers with the [nodeId] their closure captured. *)
Record World : Type := mkWorld {
  nodeManager : option NodeState;
  dwsAgentId : option N;
  txCalls : list Tx;
  dwsHeartbeatCalls : list N;
  console : list LogLine;
  timers : gmap nat Hex;
  nextTimer : nat
}.

(** How the collaborators answer. *)
Record Env : Type := mkEnv {
  now : Z;                                         (* Date.now() *)
  databaseIdOf : Address -> Z -> Hex;              (* keccak256(toBytes(`db-${owner}-${now}`)) *)
  readActiveMiners : outcome (list Hex);           (* publicClient.readContract(getActiveMiners) *)
  sendTransaction : Tx -> outcome Hex;             (* walletClient.sendTransaction *)
  waitForTransactionReceipt : Hex -> outcome unit;
  registryHeartbeat : N -> outcome unit;           (* nodeRegistry.heartbeat *)
  managerStop : outcome unit                       (* nodeManager.stop() *)
}.

Record CreateDatabaseParams : Type := mkParams {
  owner : Address;
  nodeCount : Z;
  useEventualConsistency : bool
}.

Definition M := Eff.M World.

Definition log (l : LogLine) : M unit :=
  Eff.modify (fun w => mkWorld (nodeManager w) (dwsAgentId w) (txCalls w)
                         (dwsHeartbeatCalls w) (console w ++ [l]) (timers w) (nextTimer w)).

(** [await this.walletClient.sendTransaction(tx)] *)
Definition send (env : Env) (tx : Tx) : M Hex :=
  Eff.modify (fun w => mkWorld (nodeManager w) (dwsAgentId w) (txCalls w ++ [tx])
                         (dwsHeartbeatCalls w) (console w) (timers w) (nextTimer w)) ;;>
  Eff.await (sendTransaction env tx).

(** [await this.nodeRegistry.heartbeat(agentId)] *)
Definition dws_heartbeat (env : Env) (agentId : N) : M unit :=
  Eff.modify (fun w => mkWorld (nodeManager w) (dwsAgentId w) (txCalls w)
                         (dwsHeartbeatCalls w ++ [agentId]) (console w) (timers w) (nextTimer w)) ;;>
  Eff.await (registryHeartbeat env agentId).

(** [Array.prototype.slice(0, end)] for an integral [end]. *)
Definition slice0 {A} (l : list A) (e : Z) : list A :=
  let len := Z.of_nat (length l) in
  let k := if e <? 0 then Z.max (len + e) 0 else Z.min e len in
  take (Z.to_nat k) l.

(** [const selectedMiners = activeMiners.slice(0, params.nodeCount)]
    ("simple selection for now - could add scoring"). *)
Definition selectedMiners (activeMiners : list Hex) (nodeCount : Z) : list Hex :=
  slice0 activeMiners nodeCount.

Definition getActiveMiners (env : Env) : M (list Hex) :=
  Eff.await (readActiveMiners env).

Definition createDatabase (cfg : EQLiteNodeServiceConfig) (env : Env)
    (params : CreateDatabaseParams) : M Hex :=
  let databaseId := databaseIdOf env (owner params) (now env) in
  activeMiners <~ getActiveMiners env ;;
  if Z.of_nat (length activeMiners) <? nodeCount params then
    Eff.throw (NotEnoughActiveMiners (nodeCount params) (length activeMiners))
  else
    let selected := selectedMiners activeMiners (nodeCount params) in
    let data := CreateDatabaseCall databaseId selected in
    txHash <~ send env (mkTx (account cfg) (eqliteRegistryAddress cfg) data) ;;
    Eff.await (waitForTransactionReceipt env txHash) ;;>
    log (DatabaseCreated databaseId) ;;>
    log (AssignedToMiners selected) ;;>
    Eff.ret databaseId.

Definition set_nodeManager (nm : option NodeState) : M unit :=
  Eff.modify (fun w => mkWorld nm (dwsAgentId w) (txCalls w)
                         (dwsHeartbeatCalls w) (console w) (timers w) (nextTimer w)).

Definition stopNode (env : Env) : M unit :=
  w <~ Eff.get ;;
  match nodeManager w with
  | Some _ => Eff.await (managerStop env) ;;> set_nodeManager None
  | None => Eff.ret tt
  end.

(** [clearInterval(interval)] *)
Definition clearInterval (h : nat) : M unit :=
  Eff.modify (fun w => mkWorld (nodeManager w) (dwsAgentId w) (txCalls w)
                         (dwsHeartbeatCalls w) (console w) (delete h (timers w)) (nextTimer w)).

(** [startHeartbeatLoop(nodeId)]: [setInterval(callback, 60000)]. *)
Definition startHeartbeatLoop (nodeId : Hex) : M nat :=
  w <~ Eff.get ;;
  let h := nextTimer w in
  Eff.modify (fun w => mkWorld (nodeManager w) (dwsAgentId w) (txCalls w)
                         (dwsHeartbeatCalls w) (console w)
                         (<[h := nodeId]> (timers w)) (S (nextTimer w))) ;;>
  Eff.ret h.

(** The body of the interval callback, for the timer [h] whose closure
    captured [nodeId]. *)
Definition heartbeatCallback (cfg : EQLiteNodeServiceConfig) (env : Env)
    (h : nat) (nodeId : Hex) : M unit :=
  w <~ Eff.get ;;
  match nodeManager w with
  | None => clearInterval h
  | Some state =>
    if negb (status_is_running (st_status state)) then Eff.ret tt
    else
      let data := HeartbeatCall nodeId 0%N in
      Eff.try_catch
        (send env (mkTx (account cfg) (eqliteRegistryAddress cfg) data) ;;> Eff.ret tt)
        (fun err => log (HeartbeatFailed err)) ;;>
      w' <~ Eff.get ;;
      match dwsAgentId w' with
      | Some agentId =>
        if (agentId =? 0)%N then Eff.ret tt        (* 0n is falsy *)
        else Eff.try_catch (dws_heartbeat env agentId)
               (fun err => log (DWSHeartbeatFailed err))
      | None => Eff.ret tt
      end
  end.

(** One firing of timer [h]: a cleared timer never fires again. *)
Definition tick (cfg : EQLiteNodeServiceConfig) (env : Env) (h : nat) : M unit :=
  w <~ Eff.get ;;
  match timers w !! h with
  | Some nodeId => heartbeatCallback cfg env h nodeId
  | None => Eff.ret tt
  end.

End EQLiteNodeService.

(** ** External-chain provisioning through DWS *)

Module ChainProvisioning.

Inductive ChainType : Type :=
| Solana | Bitcoin | Cosmos | Polkadot | Near | Aptos | Sui | Avalanche
| Polygon | Arbitrum | Optimism | Base | Custom | Ethereum.

Inductive NodeType : Type :=
| RPC | Validator | Archive | Light | Indexer | Geyser | Bridge.

Inductive NetworkMode : Type := Devnet | Testnet | Mainnet.

Inductive NetworkType : Type := localnet | testnet | mainnet.

Record ChainConfig : Type := mkChainConfig {
  chainType : ChainType;
  nodeType : NodeType;
  version : string;
  teeRequired : bool;
  teeType : string;
  minMemoryGb : Z;
  minStorageGb : Z;
  minCpuCores : Z;
  dockerImage : string;
  additionalParams : list string;
  evmChainId : option Z;
  forkUrl : option string;
  rpcPort : option Z;
  wsPort : option Z
}.

Definition reth_flags (chain : string) : list string :=
  ["--chain"; chain; "--http"; "--http.api"; "all"; "--ws"; "--ws.api"; "all"].
Definition nitro_flags : list string :=
  ["--chain.id=42161"; "--http.api=net,web3,eth,arb,debug"; "--http.vhosts=*";
   "--http.addr=0.0.0.0"].

Definition solana_configs (m : NetworkMode) : ChainConfig :=
  match m with
  | Devnet =>
    mkChainConfig Solana RPC "v2.1.0" false "" 8 50 4
      "solanalabs/solana:v1.18.26" ["--dev"; "--reset"] None None None None
  | Testnet =>
    mkChainConfig Solana RPC "v2.1.0" false "" 64 500 8
      "solanalabs/solana:v2.1.0" ["--entrypoint"; "devnet.solana.com:8001"]
      None None None None
  | Mainnet =>
    mkChainConfig Solana RPC "v2.1.0" true "intel_tdx" 128 2000 16
      "solanalabs/solana:v2.1.0" ["--entrypoint"; "mainnet-beta.solana.com:8001"]
      None None None None
  end.

Definition ethereum_configs (m : NetworkMode) : ChainConfig :=
  match m with
  | Devnet =>
    mkChainConfig Ethereum Archive "v1.1.5" false "" 8 50 4
      "ghcr.io/foundry-rs/foundry:latest" []
      (Some 1) (Some "https://1rpc.io/eth") (Some 8545) (Some 8546)
  | Testnet =>
    mkChainConfig Ethereum Archive "v1.1.5" false "" 32 500 8
      "ghcr.io/paradigmxyz/reth:v1.1.5" (reth_flags "mainnet")
      (Some 1) None (Some 8545) (Some 8546)
  | Mainnet =>
    mkChainConfig Ethereum Archive "v1.1.5" true "intel_tdx" 64 2500 16
      "ghcr.io/paradigmxyz/reth:v1.1.5" (reth_flags "mainnet" ++ ["--full"])
      (Some 1) None (Some 8545) (Some 8546)
  end.

Definition arbitrum_configs (m : NetworkMode) : ChainConfig :=
  match m with
  | Devnet =>
    mkChainConfig Arbitrum Archive "v3.2.1" false "" 8 50 4
      "ghcr.io/foundry-rs/foundry:latest" []
      (Some 42161) (Some "https://arb1.arbitrum.io/rpc") (Some 8547) (Some 8548)
  | Testnet =>
    mkChainConfig Arbitrum Archive "v3.2.1" false "" 32 300 8
      "offchainlabs/nitro-node:v3.2.1-d1c5a49" nitro_flags
      (Some 42161) None (Some 8547) (Some 8548)
  | Mainnet =>
    mkChainConfig Arbitrum Archive "v3.2.1" true "intel_tdx" 64 1000 16
      "offchainlabs/nitro-node:v3.2.1-d1c5a49"
      (nitro_flags ++ ["--execution.caching.archive"])
      (Some 42161) None (Some 8547) (Some 8548)
  end.

Definition optimism_configs (m : NetworkMode) : ChainConfig :=
  match m with
  | Devnet =>
    mkChainConfig Optimism Archive "v1.9.4" false "" 8 50 4
      "ghcr.io/foundry-rs/foundry:latest" []
      (Some 10) (Some "https://mainnet.optimism.io") (Some 8549) (Some 8550)
  | Testnet =>
    mkChainConfig Optimism Archive "v1.9.4" false "" 32 300 8
      "ghcr.io/paradigmxyz/op-reth:v1.1.5" (reth_flags "optimism")
      (Some 10) None (Some 8549) (Some 8550)
  | Mainnet =>
    mkChainConfig Optimism Archive "v1.9.4" true "intel_tdx" 64 800 16
      "ghcr.io/paradigmxyz/op-reth:v1.1.5" (reth_flags "optimism" ++ ["--full"])
      (Some 10) None (Some 8549) (Some 8550)
  end.

Definition base_configs (m : NetworkMode) : ChainConfig :=
  match m with
  | Devnet =>
    mkChainConfig Base Archive "v1.9.4" false "" 8 50 4
      "ghcr.io/foundry-rs/foundry:latest" []
      (Some 8453) (Some "https://mainnet.base.org") (Some 8551) (Some 8552)
  | Testnet =>
    mkChainConfig Base Archive "v1.9.4" false "" 32 300 8
      "ghcr.io/paradigmxyz/op-reth:v1.1.5" (reth_flags "base")
      (Some 8453) None (Some 8551) (Some 8552)
  | Mainnet =>
    mkChainConfig Base Archive "v1.9.4" true "intel_tdx" 64 600 16
      "ghcr.io/paradigmxyz/op-reth:v1.1.5" (reth_flags "base" ++ ["--full"])
      (Some 8453) None (Some 8551) (Some 8552)
  end.

(** The entries of the [CHAIN_CONFIGS] object literal, in source order. *)
Definition CHAIN_CONFIGS_entries : list (string * (NetworkMode -> ChainConfig)) :=
  [ ("solana", solana_configs);
    ("ethereum", ethereum_configs);
    ("arbitrum", arbitrum_configs);
    ("optimism", optimism_configs);
    ("base", base_configs) ].

Definition CHAIN_CONFIGS : gmap string (NetworkMode -> ChainConfig) :=
  list_to_map CHAIN_CONFIGS_entries.

(** [CHAIN_CONFIGS[chain]?.[networkMode]] *)
Definition lookupConfig (chain : string) (m : NetworkMode) : option ChainConfig :=
  (fun per_mode => per_mode m) <$> CHAIN_CONFIGS !! chain.

Inductive DeployStatus : Type := running | pending | failed.

Inductive DeployMode : Type := local | dws.

Record DeploymentResult : Type := mkResult {
  network : NetworkType;
  chain : string;
  mode : DeployMode;
  containerId : option string;
  endpoints_rpc : string;
  endpoints_ws : string;
  tee : bool;
  status : DeployStatus
}.

Record Hardware : Type := mkHardware {
  cpuCores : Z;
  memoryMb : Z;
  storageMb : Z;
  gpuType : string;
  gpuCount : Z;
  networkBandwidthMbps : Z;
  publicIp : bool;
  teePlatform : string
}.

Record Port : Type := mkPort {
  containerPort : Z;
  protocol : string;
  expose : bool
}.

Record DWSContainerConfig : Type := mkContainer {
  image : string;
  tag : string;
  command : list string;
  env_CHAIN_ID : option Z;       (* env: { CHAIN_ID: evmChainId.toString() } or {} *)
  hardware : Hardware;
  ports : list Port;
  label_chain : string;          (* 'jeju.chain' *)
  label_network : NetworkType;   (* 'jeju.network' *)
  label_type : string;           (* 'jeju.type' *)
  label_node_type : NodeType     (* 'jeju.node-type': NodeType[nodeType].toLowerCase() *)
}.

(** JavaScript truthiness of an optional number: [undefined], [0] and [NaN]
    are falsy. *)
Definition truthy (n : option Z) : option Z :=
  match n with
  | Some v => if v =? 0 then None else Some v
  | None => None
  end.

Definition containerConfigOf (chain : string) (network : NetworkType)
    (config : ChainConfig) : DWSContainerConfig :=
  mkContainer
    (dockerImage config) "latest" (additionalParams config)
    (truthy (evmChainId config))
    (mkHardware (minCpuCores config) (minMemoryGb config * 1024)
                (minStorageGb config * 1024) "none" 0 1000 true
                (if teeRequired config then teeType config else "none"))
    (mkPort (default 8545 (rpcPort config)) "tcp" true ::
     match truthy (wsPort config) with
     | Some p => [mkPort p "tcp" true]
     | None => []
     end)
    chain network "external-chain" (nodeType config).

Definition DWS_ENDPOINTS (n : NetworkType) : string :=
  match n with
  | localnet => "http://localhost:4030"
  | testnet => "https://dws.testnet.jejunetwork.org"
  | mainnet => "https://dws.jejunetwork.org"
  end.

(** The request posted to [`${dwsEndpoint}/v1/containers/provision`]. *)
Record ProvisionRequest : Type := mkRequest {
  req_endpoint : string;         (* DWS_ENDPOINTS[network] *)
  req_signature : string;        (* X-Signature *)
  req_timestamp : Z;             (* X-Timestamp *)
  req_address : string;          (* X-Address and body.owner *)
  req_config : DWSContainerConfig;
  req_machineType : string
}.

(** The JSON body of an ok response, as the script casts it. *)
Record ProvisionReply : Type := mkReply {
  reply_containerId : string;
  reply_rpc : string;
  reply_ws : option string;
  reply_status : string
}.

Record Response : Type := mkResponse {
  ok : bool;
  text : outcome string;          (* await response.text() *)
  json : outcome ProvisionReply   (* await response.json() *)
}.

Record Env : Type := mkEnv {
  now : Z;                                                  (* Date.now() *)
  privateKeyToAccount : string -> outcome string;           (* the account's address *)
  signMessage : DWSContainerConfig -> Z -> outcome string;  (* over {containerConfig, timestamp} *)
  fetch : ProvisionRequest -> outcome Response
}.

(** The world of the script is the list of provisioning requests it has
    issued. *)
Definition M := Eff.M (list ProvisionRequest).

Definition post (env : Env) (r : ProvisionRequest) : M Response :=
  Eff.modify (fun sent => (sent ++ [r])%list) ;;> Eff.await (fetch env r).

Definition deployDWSNode (env : Env) (chain : string) (networkMode : NetworkMode)
    (network : NetworkType) (privateKey : string) : M DeploymentResult :=
  match lookupConfig chain networkMode with
  | None => Eff.throw (UnsupportedChain chain)
  | Some config =>
    let dwsEndpoint := DWS_ENDPOINTS network in
    account <~ Eff.await (privateKeyToAccount env privateKey) ;;
    let containerConfig := containerConfigOf chain network config in
    let timestamp := now env in
    signature <~ Eff.await (signMessage env containerConfig timestamp) ;;
    response <~ post env (mkRequest dwsEndpoint signature timestamp account containerConfig
                            (if teeRequired config then "tee-large" else "xlarge")) ;;
    if negb (ok response) then
      Eff.await (text response) ;;>
      Eff.ret (mkResult network chain dws None "" "" (teeRequired config) failed)
    else
      result <~ Eff.await (json response) ;;
      Eff.ret (mkResult network chain dws (Some (reply_containerId result))
                 (reply_rpc result)
                 (default "" (reply_ws result))
                 (teeRequired config)
                 (if String.eqb (reply_status result) "running" then running else pending))
  end.

End ChainProvisioning.

(** ** Node registry

    The registry class lives in [./node-registry], which the sources only
    import; what follows restates its contract. *)

Inductive Error : Type :=
| ValidationError
| NotFoundError
| InsufficientCapacityError
| OperationInProgressError
| NoLeaderError
| NoHealthyEndpointError
| NodeUnreachableError.

Module NodeRegistry.

Inductive HealthStatus : Type := Healthy | Unhealthy | Unknown.

#[global] Instance HealthStatus_eq_dec : EqDecision HealthStatus.
Proof. solve_decision. Defined.

Record HardwareSpecs : Type := mkSpecs {
  cpuCores : Z;
  memoryMb : Z;
  storageMb : Z;
  bandwidthMbps : Z;
  teePlatform : string
}.

Record Pricing : Type := mkPricing {
  pricePerHour : N;
  pricePerGb : N;
  pricePerRequest : N
}.

(** Modelled from the spec: the descriptor a node submits to the absent
    [node-registry] module on registration. *)
Record NodeDescriptor : Type := mkDescriptor {
  desc_endpoint : string;
  desc_specs : HardwareSpecs;
  desc_capabilities : gset string;
  desc_pricing : Pricing;
  desc_region : option string
}.

(** Modelled from the spec: the [Node] of the absent [node-registry]
    module: "hardware specs ...; set of capability tags; pricing ...; region;
    health status (healthy/unhealthy/unknown); last-heartbeat timestamp"; its
    identifier is the key of the table. *)
Record Node : Type := mkNode {
  endpoint : string;
  specs : HardwareSpecs;
  capabilities : gset string;
  pricing : Pricing;
  region : option string;
  health : HealthStatus;
  lastHeartbeat : Z
}.

(** The node table, keyed by node id, and the next id to hand out. *)
Record Registry : Type := mkRegistry {
  nodes : gmap N Node;
  nextNodeId : N
}.

Definition empty : Registry := mkRegistry ∅ 1%N.

Definition specs_valid (s : HardwareSpecs) : bool :=
  (0 <=? cpuCores s) && (0 <=? memoryMb s) && (0 <=? storageMb s)
  && (0 <=? bandwidthMbps s).

(** Modelled from the spec: [registerNode(descriptor) -> nodeId] of the
    absent [node-registry] module. It "validates hardware minimums are
    non-negative and capability set non-empty; assigns a unique id; fails
    with ValidationError on malformed descriptor". A node is eligible from
    the moment it is registered. *)
Definition registerNode (d : NodeDescriptor) (now : Z) (r : Registry)
    : Error + (N * Registry) :=
  if specs_valid (desc_specs d) && negb (bool_decide (desc_capabilities d = ∅)) then
    let id := nextNodeId r in
    let n := mkNode (desc_endpoint d) (desc_specs d) (desc_capabilities d)
               (desc_pricing d) (desc_region d) Healthy now in
    inr (id, mkRegistry (<[id := n]> (nodes r)) (N.succ id))
  else inl ValidationError.

Definition with_health (h : HealthStatus) (n : Node) : Node :=
  mkNode (endpoint n) (specs n) (capabilities n) (pricing n) (region n) h
         (lastHeartbeat n).

(** Modelled from the spec: [heartbeat(nodeId, metrics)] of the absent
    [node-registry] module: "updates last-heartbeat timestamp ...; fails
    with NotFoundError if node unknown"; a heartbeat is what returns an
    unhealthy node to Healthy. *)
Definition heartbeat (id : N) (now : Z) (r : Registry) : Error + Registry :=
  match nodes r !! id with
  | Some n =>
    let n' := mkNode (endpoint n) (specs n) (capabilities n) (pricing n)
                (region n) Healthy now in
    inr (mkRegistry (<[id := n']> (nodes r)) (nextNodeId r))
  | None => inl NotFoundError
  end.

(** Modelled from the spec: [deregister(nodeId)] of the absent
    [node-registry] module: "removes node". *)
Definition deregister (id : N) (r : Registry) : Registry :=
  mkRegistry (delete id (nodes r)) (nextNodeId r).

Definition unhealthyTimeoutMs : Z := 120000.
Definition evictionGraceMs : Z := 600000.

(** Modelled from the spec: the expiry sweep of the absent [node-registry]
    module: "a node not heartbeating within a configurable timeout (default
    120s) transitions to unhealthy; after a longer grace period (default
    600s) it is evicted". *)
Definition sweep (now : Z) (r : Registry) : Registry :=
  let kept := filter (fun kv => now - lastHeartbeat kv.2 <= evictionGraceMs) (nodes r) in
  let aged := (fun n => if bool_decide (now - lastHeartbeat n <= unhealthyTimeoutMs)
                        then n else with_health Unhealthy n) <$> kept in
  mkRegistry aged (nextNodeId r).

Definition eligible (c : string) (n : Node) : Prop :=
  c ∈ capabilities n /\ health n = Healthy.

#[global] Instance eligible_dec c n : Decision (eligible c n).
Proof. unfold eligible. apply _. Defined.

Definition by_nodeId (a b : N * Node) : Prop := (a.1 <= b.1)%N.

#[global] Instance by_nodeId_dec a b : Decision (by_nodeId a b).
Proof. unfold by_nodeId. apply _. Defined.

(** Modelled from the spec: [listByCapability(capability) -> []Node] of the
    absent [node-registry] module: "returns nodes whose capability set
    contains the tag, filtered to healthy nodes by default; deterministic
    ordering by nodeId". *)
Definition listByCapability (c : string) (r : Registry) : list (N * Node) :=
  merge_sort by_nodeId
    (filter (fun kv => eligible c kv.2) (map_to_list (nodes r))).

End NodeRegistry.

(** ** Service discovery

    The resolver lives in [./discovery], of which the sources show the
    export list only ([resolveA], [resolveSRV], [resolveTXT],
    [resolveLeader], [resolveWithLoadBalancing], [markEndpointHealthy],
    [markEndpointUnhealthy], ...). *)

Module ServiceDiscovery.

(** Modelled from the spec: the [ServiceEndpoint] of the absent [discovery]
    module: "address, port, health flag, weight (for load balancing),
    last-updated timestamp". *)
Record ServiceEndpoint : Type := mkEndpoint {
  address : string;
  port : Z;
  healthy : bool;
  weight : N;
  lastUpdated : Z
}.

(** Modelled from the spec: the [ServiceRecord] of the absent [discovery]
    module: service type tag, endpoints, TXT-style metadata, and the
    "leader-resolution record" under which failover republishes the leader
    endpoint; the fully-qualified name is the key of the table. *)
Record ServiceRecord : Type := mkRecord {
  serviceType : string;
  endpoints : list ServiceEndpoint;
  metadata : list (string * string);
  leaderAddress : option string      (* the leader-resolution record *)
}.

(** The DNS table, keyed by fully-qualified service name. *)
Abbreviation Table := (gmap string ServiceRecord).

(** Modelled from the spec: registration and explicit deregistration of a
    service record of the absent [discovery] module; names are unique, so
    registering under a name replaces what was there. *)
Definition registerService (name : string) (rec : ServiceRecord) (t : Table) : Table :=
  <[name := rec]> t.

Definition deregisterService (name : string) (t : Table) : Table :=
  delete name t.

(** Modelled from the spec: a health mark of the absent [discovery] module
    sets the health flag of the endpoints at the given address and nothing
    else. *)
Definition set_health (h : bool) (addr : string) (e : ServiceEndpoint)
    : ServiceEndpoint :=
  if String.eqb (address e) addr
  then mkEndpoint (address e) (port e) h (weight e) (lastUpdated e)
  else e.

Definition mark (h : bool) (name addr : string) (t : Table) : Table :=
  alter (fun r => mkRecord (serviceType r) (set_health h addr <$> endpoints r)
                    (metadata r) (leaderAddress r)) name t.

(** Modelled from the spec: [markEndpointHealthy] of the absent [discovery]
    module flags the named service's endpoint at the given address healthy. *)
Definition markEndpointHealthy : string -> string -> Table -> Table := mark true.

(** Modelled from the spec: [markEndpointUnhealthy] of the absent
    [discovery] module flags it unhealthy. *)
Definition markEndpointUnhealthy : string -> string -> Table -> Table := mark false.

(** Modelled from the spec: the "explicit full-listing debug query" of the
    absent [discovery] module: every endpoint, healthy or not. *)
Definition listEndpoints (name : string) (t : Table) : list ServiceEndpoint :=
  match t !! name with
  | Some r => endpoints r
  | None => []
  end.

(** Modelled from the spec: "unhealthy endpoints are excluded from all
    resolution calls" of the absent [discovery] module; this is the endpoint
    set every resolution call works on. *)
Definition healthyEndpoints (name : string) (t : Table) : list ServiceEndpoint :=
  filter (fun e => healthy e = true) (listEndpoints name t).

(** Modelled from the spec: [resolveA(name) -> []address] of the absent
    [discovery] module: "all endpoint IP/hostnames for a service name,
    healthy only". *)
Definition resolveA (name : string) (t : Table) : list string :=
  address <$> healthyEndpoints name t.

(** Modelled from the spec: [resolveSRV(name) -> []{address, port, weight}]
    of the absent [discovery] module. *)
Definition resolveSRV (name : string) (t : Table) : list (string * Z * N) :=
  (fun e => (address e, port e, weight e)) <$> healthyEndpoints name t.

(** Modelled from the spec: [resolveTXT(name) -> key/value metadata] of the
    absent [discovery] module. *)
Definition resolveTXT (name : string) (t : Table) : list (string * string) :=
  match t !! name with
  | Some r => metadata r
  | None => []
  end.

(** Modelled from the spec: [resolveLeader(name) -> endpoint] of the absent
    [discovery] module: "returns the current leader endpoint of a stateful
    service; fails with NoLeaderError if none currently marked"; like every
    resolution call it only sees healthy endpoints. *)
Definition resolveLeader (name : string) (t : Table) : Error + ServiceEndpoint :=
  match t !! name with
  | Some r =>
    match leaderAddress r with
    | Some a =>
      match find (fun e => String.eqb (address e) a) (healthyEndpoints name t) with
      | Some e => inr e
      | None => inl NoLeaderError
      end
    | None => inl NoLeaderError
    end
  | None => inl NoLeaderError
  end.

Inductive Strategy : Type :=
| RoundRobin (counter : nat)
| WeightedRandom (roll : N).

Definition totalWeight (l : list ServiceEndpoint) : N :=
  foldr (fun e acc => (weight e + acc)%N) 0%N l.

(** The endpoint in whose weight band [r] falls; the last one when [r]
    is past every band. *)
Fixpoint pickWeighted (r : N) (l : list ServiceEndpoint) : option ServiceEndpoint :=
  match l with
  | [] => None
  | e :: rest =>
    if (r <? weight e)%N then Some e
    else match pickWeighted (r - weight e) rest with
         | Some e' => Some e'
         | None => Some e
         end
  end.

(** Modelled from the spec: [resolveWithLoadBalancing(name, strategy) ->
    endpoint] of the absent [discovery] module: "round-robin and
    weighted-random over healthy endpoints; fails with
    NoHealthyEndpointError if the set is empty". *)
Definition resolveWithLoadBalancing (name : string) (s : Strategy) (t : Table)
    : Error + ServiceEndpoint :=
  let hs := healthyEndpoints name t in
  let choice :=
    match s with
    | RoundRobin counter => hs !! (counter `mod` length hs)%nat
    | WeightedRandom roll => pickWeighted (roll `mod` totalWeight hs)%N hs
    end in
  match hs, choice with
  | [], _ => inl NoHealthyEndpointError
  | _, Some e => inr e
  | e :: _, None => inr e
  end.

End ServiceDiscovery.

(** ** Stateful service provisioner

    The provisioner lives in [../containers/stateful-provisioner], of which
    the sources show the export list only ([StatefulProvisioner],
    [StatefulService], [StatefulReplica], [ReplicaRole], ...). *)

Module StatefulProvisioner.
Import NodeRegistry ServiceDiscovery.

(** Modelled from the spec: [ReplicaRole], "role (leader | replica)". *)
Inductive ReplicaRole : Type := leader | replica.

#[global] Instance ReplicaRole_eq_dec : EqDecision ReplicaRole.
Proof. solve_decision. Defined.

(** Modelled from the spec: the [StatefulReplica] of the absent
    [stateful-provisioner] module: "owning service id; assigned node id; role;
    endpoint address; health". *)
Record StatefulReplica : Type := mkReplica {
  replica_serviceId : string;
  replica_nodeId : N;
  role : ReplicaRole;
  replica_address : string;
  replica_healthy : bool
}.

Record VolumeConfig : Type := mkVolume {
  sizeGb : Z;
  storageTier : string
}.

Record StatefulServiceConfig : Type := mkServiceConfig {
  name : string;                   (* the service's FQDN *)
  replicaCount : nat;
  requiredCapability : string;
  consensusProtocol : string;
  volume : VolumeConfig;
  servicePort : Z
}.

(** Modelled from the spec: the [StatefulService] of the absent
    [stateful-provisioner] module: its configuration and its replicas. *)
Record StatefulService : Type := mkService {
  svc_config : StatefulServiceConfig;
  replicas : list StatefulReplica
}.

(** The three stores the provisioner works on. *)
Record System : Type := mkSystem {
  registry : Registry;
  services : gmap string StatefulService;
  dns : Table
}.

Definition initial : System := mkSystem NodeRegistry.empty ∅ ∅.

Definition is_leader (r : StatefulReplica) : Prop := role r = leader.

#[global] Instance is_leader_dec r : Decision (is_leader r).
Proof. unfold is_leader. apply _. Defined.

Definition leaderCount (rs : list StatefulReplica) : nat :=
  length (filter is_leader rs).

(** "exactly one or zero nodes in the leader role", for every service. *)
Definition single_leader_inv (sys : System) : Prop :=
  forall sid svc, services sys !! sid = Some svc ->
                  (leaderCount (replicas svc) <= 1)%nat.

Definition with_role (ro : ReplicaRole) (r : StatefulReplica) : StatefulReplica :=
  mkReplica (replica_serviceId r) (replica_nodeId r) ro (replica_address r)
            (replica_healthy r).

Definition defaultWeight : N := 1.

Definition endpointOf (cfg : StatefulServiceConfig) (now : Z) (r : StatefulReplica)
    : ServiceEndpoint :=
  mkEndpoint (replica_address r) (servicePort cfg) (replica_healthy r)
             defaultWeight now.

Definition leaderAddressOf (rs : list StatefulReplica) : option string :=
  replica_address <$> find (fun r => bool_decide (is_leader r)) rs.

Definition nodeHealthy (reg : Registry) (id : N) : bool :=
  match nodes reg !! id with
  | Some n => bool_decide (health n = Healthy)
  | None => false
  end.

Section Scoring.
(** The score deploy orders candidates by ("e.g., most available
    capacity first"). *)
Variable availableCapacity : Node -> N.

Definition scored_before (a b : N * Node) : Prop :=
  (availableCapacity b.2 < availableCapacity a.2)%N
  \/ (availableCapacity a.2 = availableCapacity b.2 /\ (a.1 <= b.1)%N).

#[global] Instance scored_before_dec a b : Decision (scored_before a b).
Proof. unfold scored_before. apply _. Defined.

Definition selectNodes (n : nat) (candidates : list (N * Node)) : list (N * Node) :=
  take n (merge_sort scored_before candidates).

Definition replicaOn (sid : string) (ro : ReplicaRole) (kv : N * Node)
    : StatefulReplica :=
  mkReplica sid kv.1 ro (endpoint kv.2) true.

(** "assign role leader to the first-selected node and replica to the rest" *)
Definition assignRoles (sid : string) (selected : list (N * Node))
    : list StatefulReplica :=
  match selected with
  | [] => []
  | first :: rest => replicaOn sid leader first :: (replicaOn sid replica <$> rest)
  end.

(** Modelled from the spec: [deploy(config) -> StatefulService] of the
    absent [stateful-provisioner] module: "query Node Registry for healthy
    nodes with the capability; fail with InsufficientCapacityError if
    fewer than N available; select N nodes by a deterministic scoring
    order ...; assign role leader to the first-selected node and replica
    to the rest; register one ServiceEndpoint per replica into Service
    Discovery under the service's FQDN". *)
Definition deploy (cfg : StatefulServiceConfig) (now : Z) (sys : System)
    : Error + (StatefulService * System) :=
  let candidates := listByCapability (requiredCapability cfg) (registry sys) in
  if (length candidates <? replicaCount cfg)%nat then inl InsufficientCapacityError
  else
    let selected := selectNodes (replicaCount cfg) candidates in
    let reps := assignRoles (name cfg) selected in
    let svc := mkService cfg reps in
    let rec := mkRecord "stateful" (endpointOf cfg now <$> reps) []
                 (leaderAddressOf reps) in
    inr (svc, mkSystem (registry sys)
                (<[name cfg := svc]> (services sys))
                (registerService (name cfg) rec (dns sys))).

(** Leader first, then the others in their order: cutting this list
    short "never removes the current leader unless it is the last
    replica". *)
Definition removalOrder (rs : list StatefulReplica) : list StatefulReplica :=
  filter is_leader rs ++ filter (fun r => ~ is_leader r) rs.

(** Modelled from the spec: [scale(serviceId, newCount)] of the absent
    [stateful-provisioner] module: "adds or removes replicas to reach
    newCount; removal never removes the current leader unless it is the
    last replica". *)
Definition scale (sid : string) (newCount : nat) (now : Z) (sys : System)
    : Error + System :=
  match services sys !! sid with
  | None => inl NotFoundError
  | Some svc =>
    let cfg := svc_config svc in
    let cur := length (replicas svc) in
    if (cur <? newCount)%nat then
      let used := replica_nodeId <$> replicas svc in
      let candidates :=
        filter (fun kv => kv.1 ∉ used)
               (listByCapability (requiredCapability cfg) (registry sys)) in
      let need := (newCount - cur)%nat in
      if (length candidates <? need)%nat then inl InsufficientCapacityError
      else
        let added := replicaOn sid replica <$> selectNodes need candidates in
        let svc' := mkService cfg (replicas svc ++ added) in
        inr (mkSystem (registry sys) (<[sid := svc']> (services sys))
               (alter (fun r => mkRecord (serviceType r)
                                  (endpoints r ++ (endpointOf cfg now <$> added))
                                  (metadata r) (leaderAddress r))
                      sid (dns sys)))
    else
      let kept := take newCount (removalOrder (replicas svc)) in
      let svc' := mkService cfg kept in
      let addrs := replica_address <$> kept in
      inr (mkSystem (registry sys) (<[sid := svc']> (services sys))
             (alter (fun r => mkRecord (serviceType r)
                                (filter (fun e => address e ∈ addrs) (endpoints r))
                                (metadata r) (leaderAddressOf kept))
                    sid (dns sys)))
  end.

(** Modelled from the spec: [terminate(serviceId)] of the absent
    [stateful-provisioner] module: "deregisters all replica endpoints
    from Service Discovery and releases node allocations". *)
Definition terminate (sid : string) (sys : System) : Error + System :=
  match services sys !! sid with
  | None => inl NotFoundError
  | Some _ =>
    inr (mkSystem (registry sys) (delete sid (services sys))
           (deregisterService sid (dns sys)))
  end.

(** The replica with the lowest node id. *)
Definition lowestNodeId (rs : list StatefulReplica) : option StatefulReplica :=
  foldr (fun r best =>
           match best with
           | Some b => if (replica_nodeId b <? replica_nodeId r)%N then Some b else Some r
           | None => Some r
           end) None rs.

(** Give the leader role to the first replica on node [id]. *)
Fixpoint promoteFirst (id : N) (rs : list StatefulReplica) : list StatefulReplica :=
  match rs with
  | [] => []
  | r :: rest =>
    if (replica_nodeId r =? id)%N then with_role leader r :: rest
    else r :: promoteFirst id rest
  end.

(** Modelled from the spec: failover of the absent [stateful-provisioner]
    module: "if the leader's node heartbeat lapses past the unhealthy
    threshold, the provisioner promotes the remaining replica with lowest
    observed latency (or, absent that signal, lowest nodeId) to leader,
    and republishes the leader endpoint under the service's
    leader-resolution record". No latency signal is kept here. *)
Definition failover (sid : string) (sys : System) : Error + System :=
  match services sys !! sid with
  | None => inl NotFoundError
  | Some svc =>
    let leaderOk :=
      match find (fun r => bool_decide (is_leader r)) (replicas svc) with
      | Some l => nodeHealthy (registry sys) (replica_nodeId l)
      | None => false
      end in
    if leaderOk then inr sys
    else
      let survivors :=
        filter (fun r => ~ is_leader r /\ nodeHealthy (registry sys) (replica_nodeId r) = true)
               (replicas svc) in
      let demoted := with_role replica <$> replicas svc in
      let chosen := lowestNodeId survivors in
      let reps := match chosen with
                  | Some c => promoteFirst (replica_nodeId c) demoted
                  | None => demoted
                  end in
      let svc' := mkService (svc_config svc) reps in
      inr (mkSystem (registry sys) (<[sid := svc']> (services sys))
             (alter (fun r => mkRecord (serviceType r) (endpoints r) (metadata r)
                                (replica_address <$> chosen))
                    sid (dns sys)))
  end.

Definition orphanOn (id : N) (r : StatefulReplica) : StatefulReplica :=
  if (replica_nodeId r =? id)%N
  then mkReplica (replica_serviceId r) (replica_nodeId r) (role r)
                 (replica_address r) false
  else r.

(** Modelled from the spec: [deregister(nodeId)] "removes node; cascades
    to mark any StatefulReplica on that node as orphaned". *)
Definition deregisterNode (id : N) (sys : System) : System :=
  mkSystem (NodeRegistry.deregister id (registry sys))
    ((fun svc => mkService (svc_config svc) (orphanOn id <$> replicas svc))
       <$> services sys)
    (dns sys).

(** Everything that can happen to the system. *)
Inductive Op : Type :=
| OpRegisterNode (d : NodeDescriptor) (now : Z)
| OpHeartbeat (id : N) (now : Z)
| OpDeregisterNode (id : N)
| OpSweep (now : Z)
| OpDeploy (cfg : StatefulServiceConfig) (now : Z)
| OpScale (sid : string) (newCount : nat) (now : Z)
| OpTerminate (sid : string)
| OpFailover (sid : string)
| OpMarkEndpointHealthy (name addr : string)
| OpMarkEndpointUnhealthy (name addr : string).

Definition with_registry (sys : System) (r : Registry) : System :=
  mkSystem r (services sys) (dns sys).

Definition with_dns (sys : System) (t : Table) : System :=
  mkSystem (registry sys) (services sys) t.

Definition step (op : Op) (sys : System) : Error + System :=
  match op with
  | OpRegisterNode d now =>
    match registerNode d now (registry sys) with
    | inr (_, r) => inr (with_registry sys r)
    | inl e => inl e
    end
  | OpHeartbeat id now =>
    match heartbeat id now (registry sys) with
    | inr r => inr (with_registry sys r)
    | inl e => inl e
    end
  | OpDeregisterNode id => inr (deregisterNode id sys)
  | OpSweep now => inr (with_registry sys (sweep now (registry sys)))
  | OpDeploy cfg now =>
    match deploy cfg now sys with
    | inr (_, sys') => inr sys'
    | inl e => inl e
    end
  | OpScale sid n now => scale sid n now sys
  | OpTerminate sid => terminate sid sys
  | OpFailover sid => failover sid sys
  | OpMarkEndpointHealthy n a => inr (with_dns sys (markEndpointHealthy n a (dns sys)))
  | OpMarkEndpointUnhealthy n a => inr (with_dns sys (markEndpointUnhealthy n a (dns sys)))
  end.

(** A failed operation leaves the system as it was. *)
Definition apply (sys : System) (op : Op) : System :=
  match step op sys with
  | inr sys' => sys'
  | inl _ => sys
  end.

Definition run (ops : list Op) : System := foldl apply initial ops.

Definition reachable (sys : System) : Prop := exists ops, run ops = sys.

End Scoring.

End StatefulProvisioner.

(** ** The spec's wording of replica selection, for comparison *)

Module SpecWording.
Import EQLiteNodeService.

(** "most available capacity first, tie-broken by nodeId" *)
Definition scored_before (capacity : Hex -> N) (a b : Hex) : Prop :=
  (capacity b < capacity a)%N \/ (capacity a = capacity b /\ (a <= b)%N).

#[global] Instance scored_before_dec capacity a b :
  Decision (scored_before capacity a b).
Proof. unfold scored_before. apply _. Defined.

(** "select N nodes by a deterministic scoring order" *)
Definition select_by_scoring_order (capacity : Hex -> N) (pool : list Hex)
    (n : nat) : list Hex :=
  take n (merge_sort (scored_before capacity) pool).
End SpecWording.

(** ** Concrete inputs used to exercise the definitions *)

Module Scenario.

(** *** EQLite node service *)

Definition demo_cfg : EQLiteNodeService.EQLiteNodeServiceConfig :=
EQLiteNodeService.mkConfig 7%N 9%N.

Definition demo_env (miners : outcome (list EQLiteNodeService.Hex))
  (tx : outcome EQLiteNodeService.Hex) (hb : outcome unit) : EQLiteNodeService.Env :=
EQLiteNodeService.mkEnv 1700000000000 (fun o t => (o + Z.to_N t)%N) miners
  (fun _ => tx) (fun _ => Returned tt) (fun _ => hb) (Returned tt).

Definition idle_world : EQLiteNodeService.World :=
EQLiteNodeService.mkWorld None None [] [] [] ∅ 0.

(** A started node: manager RUNNING, DWS agent 5, one heartbeat timer. *)
Definition running_world : EQLiteNodeService.World :=
EQLiteNodeService.mkWorld
  (Some (EQLiteNodeService.mkNodeState "a1b2c3d4e5f60718" EQLiteNodeService.RUNNING 0))
  (Some 5%N) [] [] [] {[ 0%nat := 77%N ]} 1.

(** *** External-chain provisioning *)

Definition provision_env (r : ChainProvisioning.Response) : ChainProvisioning.Env :=
ChainProvisioning.mkEnv 1700000000000 (fun _ => Returned "0xA11CE")
  (fun _ _ => Returned "0x5160") (fun _ => Returned r).

Definition ethereum_testnet_request : ChainProvisioning.ProvisionRequest :=
ChainProvisioning.mkRequest "https://dws.testnet.jejunetwork.org" "0x5160" 1700000000000
  "0xA11CE"
  (ChainProvisioning.containerConfigOf "ethereum" ChainProvisioning.testnet
     (ChainProvisioning.ethereum_configs ChainProvisioning.Testnet))
  "xlarge".

Definition refused : ChainProvisioning.Response :=
ChainProvisioning.mkResponse false (Returned "no capacity")
  (Thrown (Rejected "not JSON")).

Definition accepted (status : string) : ChainProvisioning.Response :=
ChainProvisioning.mkResponse true (Returned "")
  (Returned (ChainProvisioning.mkReply "c-1" "https://rpc.example" None status)).

(** An ok answer whose body is not JSON: [response.json()] rejects. *)
Definition gateway_page : ChainProvisioning.Response :=
ChainProvisioning.mkResponse true (Returned "<html>Bad Gateway</html>")
  (Thrown (Rejected "Unexpected token < in JSON at position 0")).

(** A non-ok answer whose body stream breaks: [response.text()] rejects. *)
Definition cut_off : ChainProvisioning.Response :=
ChainProvisioning.mkResponse false (Thrown (Rejected "terminated"))
  (Thrown (Rejected "terminated")).

(** *** Registry, provisioner and discovery *)

Definition db_node (ep : string) : NodeRegistry.NodeDescriptor :=
NodeRegistry.mkDescriptor ep (NodeRegistry.mkSpecs 4 8192 102400 1000 "none")
  {[ "db" ]} (NodeRegistry.mkPricing 0 0 0) None.

Definition storage_capacity (n : NodeRegistry.Node) : N :=
Z.to_N (NodeRegistry.storageMb (NodeRegistry.specs n)).

Definition db_config : StatefulProvisioner.StatefulServiceConfig :=
StatefulProvisioner.mkServiceConfig "db.svc" 3 "db" "leader-follower"
  (StatefulProvisioner.mkVolume 10 "ssd") 5432.

(** Nodes A, B, C registered in that order. *)
Definition three_nodes : StatefulProvisioner.System :=
StatefulProvisioner.run storage_capacity
  [StatefulProvisioner.OpRegisterNode (db_node "A") 0;
   StatefulProvisioner.OpRegisterNode (db_node "B") 0;
   StatefulProvisioner.OpRegisterNode (db_node "C") 0].

(** Register A, B, C, deploy on all three, let A's heartbeat lapse while B
  and C keep beating, sweep, fail over. *)
Definition failover_ops : list StatefulProvisioner.Op :=
[StatefulProvisioner.OpRegisterNode (db_node "A") 0;
 StatefulProvisioner.OpRegisterNode (db_node "B") 0;
 StatefulProvisioner.OpRegisterNode (db_node "C") 0;
 StatefulProvisioner.OpDeploy db_config 5;
 StatefulProvisioner.OpHeartbeat 2 150000;
 StatefulProvisioner.OpHeartbeat 3 150000;
 StatefulProvisioner.OpSweep 200000;
 StatefulProvisioner.OpFailover "db.svc"].

(** The heartbeats of B and C and the sweep that finds A lapsed: the state
  the failover of [failover_ops] starts from. *)
Definition lapsed_leader_ops : list StatefulProvisioner.Op :=
[StatefulProvisioner.OpRegisterNode (db_node "A") 0;
 StatefulProvisioner.OpRegisterNode (db_node "B") 0;
 StatefulProvisioner.OpRegisterNode (db_node "C") 0;
 StatefulProvisioner.OpDeploy db_config 5;
 StatefulProvisioner.OpHeartbeat 2 150000;
 StatefulProvisioner.OpHeartbeat 3 150000;
 StatefulProvisioner.OpSweep 200000].

(** Register A, B, C, deploy on all three, scale the service down to no
  replica: no heartbeat lapses, no sweep and no failover runs. *)
Definition scale_down_ops : list StatefulProvisioner.Op :=
[StatefulProvisioner.OpRegisterNode (db_node "A") 0;
 StatefulProvisioner.OpRegisterNode (db_node "B") 0;
 StatefulProvisioner.OpRegisterNode (db_node "C") 0;
 StatefulProvisioner.OpDeploy db_config 5;
 StatefulProvisioner.OpScale "db.svc" 0 6].

(** ... and scale it back to three replicas. *)
Definition scale_back_ops : list StatefulProvisioner.Op :=
(scale_down_ops ++ [StatefulProvisioner.OpScale "db.svc" 3 7])%list.

End Scenario.

(** ** EQLite node service: starting a node and reporting its status

    [startNode], [registerOnChain], [submitAttestationOnChain] and
    [getNodeStatus] of [eqlite-node-service.ts], layered on the state of
    [EQLiteNodeService]: the fields and call logs those methods need on top
    of it are kept beside it. *)

Module EQLiteNodeLifecycle.
Import EQLiteNodeService.

(** [EQLiteNodeRole] of [@jejunetwork/db], with the members [ROLE_TO_NUMBER]
    lists. *)
Inductive EQLiteNodeRole : Type := BLOCK_PRODUCER | MINER | ADAPTER | FULLNODE.

#[global] Instance EQLiteNodeRole_eq_dec : EqDecision EQLiteNodeRole.
Proof. solve_decision. Defined.

Definition ROLE_TO_NUMBER (r : EQLiteNodeRole) : N :=
  match r with
  | BLOCK_PRODUCER => 0
  | MINER => 1
  | ADAPTER => 2
  | FULLNODE => 3
  end.

(** The two remaining write calls of [EQLITE_REGISTRY_ABI]. *)
Inductive RegistryCall : Type :=
| RegisterNodeCall (nodeId : Hex) (role : N) (endpoint : string) (stakeAmount : N)
| SubmitAttestationCall (nodeId : Hex) (attestation : string) (mrEnclave : Hex).

Record RegistryTx : Type := mkRegistryTx {
  rtx_account : Address;
  rtx_to : Address;
  rtx_data : RegistryCall
}.

(** The [EQLiteNodeConfig] handed to [createEQLiteNode]. *)
Record EQLiteNodeConfig : Type := mkNodeConfig {
  nc_nodeId : string;
  nc_role : EQLiteNodeRole;
  nc_dataDir : string;
  nc_listenAddr : string;
  nc_httpAddr : string;
  nc_teeEnabled : bool;
  nc_teePlatform : string;
  nc_logLevel : string
}.

(** The argument of [nodeRegistry.registerNode]. *)
Record RegisterNodeParams : Type := mkRegisterNode {
  rn_endpoint : string;
  rn_cpuCores : Z;
  rn_memoryMb : Z;
  rn_storageMb : Z;
  rn_bandwidthMbps : Z;
  rn_teePlatform : string;
  rn_capabilities : list string;
  rn_pricePerHour : N;
  rn_pricePerGb : N;
  rn_pricePerRequest : N;
  rn_region : option string
}.

(** What [getState()] reports beyond the fields of [NodeState]; it is
    written together with [nodeManager], by [set_manager] only. *)
Record ManagerDetail : Type := mkDetail {
  md_role : EQLiteNodeRole;
  md_attestation : option string       (* state.attestation?.report *)
}.

Inductive Note : Type :=
| Starting (role : EQLiteNodeRole) (nodeId : string)
| RegisteredOnChain (txHash : Hex)
| AttestationSubmitted (txHash : Hex)
| NodeStarted (nodeId : string)
| DWSAgentId (agentId : N).

(** The service object: the state of [EQLiteNodeService], the rest of the
    manager's state (read only while [nodeManager] is set), and the calls
    made to the wallet for registration and attestation, to the DWS node
    registry and to [createEQLiteNode]. *)
Record Service : Type := mkService {
  world : World;
  managerDetail : option ManagerDetail;
  registryCalls : list RegistryTx;
  dwsRegisterCalls : list RegisterNodeParams;
  createdNodes : list EQLiteNodeConfig;
  notes : list Note
}.

Record Settings : Type := mkSettings {
  workingDir : string;
  teeEnabled : bool
}.

Record LifecycleEnv : Type := mkLifecycleEnv {
  base : Env;
  nodeIdHashOf : EQLiteNodeRole -> Z -> Hex;
    (* keccak256(toBytes(`eqlite-${role}-${Date.now()}-${privateKey.slice(0, 10)}`)) *)
  shortIdOf : Hex -> string;                     (* nodeIdHash.slice(2, 18) *)
  createEQLiteNode : EQLiteNodeConfig -> outcome (NodeState * ManagerDetail);
    (* the state of the manager it resolves to *)
  managerStart : outcome (NodeState * ManagerDetail);
    (* nodeManager.start(), and the state the manager is in afterwards *)
  sendRegistryTransaction : RegistryTx -> outcome Hex;
  attestationHashOf : string -> Hex;             (* keccak256(toBytes(report)) *)
  dwsRegisterNode : RegisterNodeParams -> outcome N   (* resolves to { agentId } *)
}.

Record StartNodeParams : Type := mkStartParams {
  sp_role : EQLiteNodeRole;
  sp_listenAddr : option string;
  sp_httpPort : option Z;
  sp_stakeAmount : N;
  sp_region : option string
}.

Record EQLiteNodeInfo : Type := mkInfo {
  info_nodeId : string;
  info_role : EQLiteNodeRole;
  info_status : EQLiteNodeStatus;
  info_endpoint : string;
  info_dwsAgentId : option N;
  info_registryNodeId : option Hex;
  info_databaseCount : N
}.

Definition L := Eff.M Service.

(** Run a method of [EQLiteNodeService] on the service object. *)
Definition lift {A} (m : M A) : L A :=
  fun s =>
    let (o, w') := m (world s) in
    (o, mkService w' (managerDetail s) (registryCalls s) (dwsRegisterCalls s)
          (createdNodes s) (notes s)).

Definition note (n : Note) : L unit :=
  Eff.modify (fun s => mkService (world s) (managerDetail s) (registryCalls s)
                         (dwsRegisterCalls s) (createdNodes s) (notes s ++ [n])).

(** [this.nodeManager = ...], and what its [getState()] now reports. *)
Definition set_manager (st : NodeState * ManagerDetail) : L unit :=
  lift (set_nodeManager (Some st.1)) ;;>
  Eff.modify (fun s => mkService (world s) (Some st.2) (registryCalls s)
                         (dwsRegisterCalls s) (createdNodes s) (notes s)).

(** [this.dwsAgentId = agentId] *)
Definition set_dwsAgentId (a : N) : L unit :=
  Eff.modify (fun s =>
    let w := world s in
    mkService (mkWorld (nodeManager w) (Some a) (txCalls w) (dwsHeartbeatCalls w)
                       (console w) (timers w) (nextTimer w))
              (managerDetail s) (registryCalls s) (dwsRegisterCalls s)
              (createdNodes s) (notes s)).

Definition create_node (env : LifecycleEnv) (c : EQLiteNodeConfig)
    : L (NodeState * ManagerDetail) :=
  Eff.modify (fun s => mkService (world s) (managerDetail s) (registryCalls s)
                         (dwsRegisterCalls s) (createdNodes s ++ [c]) (notes s)) ;;>
  Eff.await (createEQLiteNode env c).

Definition send_registry (env : LifecycleEnv) (tx : RegistryTx) : L Hex :=
  Eff.modify (fun s => mkService (world s) (managerDetail s) (registryCalls s ++ [tx])
                         (dwsRegisterCalls s) (createdNodes s) (notes s)) ;;>
  Eff.await (sendRegistryTransaction env tx).

Definition dws_register (env : LifecycleEnv) (p : RegisterNodeParams) : L N :=
  Eff.modify (fun s => mkService (world s) (managerDetail s) (registryCalls s)
                         (dwsRegisterCalls s ++ [p]) (createdNodes s) (notes s)) ;;>
  Eff.await (dwsRegisterNode env p).

Definition registerOnChain (cfg : EQLiteNodeServiceConfig) (env : LifecycleEnv)
    (nodeId : Hex) (role : EQLiteNodeRole) (endpoint : string) (stakeAmount : N)
    : L unit :=
  let data := RegisterNodeCall nodeId (ROLE_TO_NUMBER role) endpoint stakeAmount in
  txHash <~ send_registry env (mkRegistryTx (account cfg) (eqliteRegistryAddress cfg) data) ;;
  Eff.await (waitForTransactionReceipt (base env) txHash) ;;>
  note (RegisteredOnChain txHash).

Definition submitAttestationOnChain (cfg : EQLiteNodeServiceConfig) (env : LifecycleEnv)
    (nodeId : Hex) (attestation : string) (mrEnclave : Hex) : L unit :=
  let data := SubmitAttestationCall nodeId attestation mrEnclave in
  txHash <~ send_registry env (mkRegistryTx (account cfg) (eqliteRegistryAddress cfg) data) ;;
  Eff.await (waitForTransactionReceipt (base env) txHash) ;;>
  note (AttestationSubmitted txHash).

(** [`http://localhost:${params.httpPort ?? 4662}`] *)
Definition endpointOf (httpPort : option Z) : string :=
  "http://localhost:" +:+ pretty (default 4662 httpPort).

Definition capabilityOf (role : EQLiteNodeRole) : string :=
  if decide (role = BLOCK_PRODUCER) then "eqlite-bp" else "eqlite-miner".

Definition nodeConfigOf (settings : Settings) (nodeId : string) (params : StartNodeParams)
    : EQLiteNodeConfig :=
  mkNodeConfig nodeId (sp_role params)
    (workingDir settings +:+ "/" +:+ nodeId)
    (default "0.0.0.0:4661" (sp_listenAddr params))
    ("0.0.0.0:" +:+ pretty (default 4662 (sp_httpPort params)))
    (teeEnabled settings)
    (if teeEnabled settings then "intel_tdx" else "any")
    "info".

Definition registrationOf (settings : Settings) (params : StartNodeParams)
    : RegisterNodeParams :=
  mkRegisterNode (endpointOf (sp_httpPort params)) 4 8192 102400 1000
    (if teeEnabled settings then "intel_tdx" else "none")
    [capabilityOf (sp_role params); "storage"; "tee"]
    0 0 0 (sp_region params).

Definition startNode (cfg : EQLiteNodeServiceConfig) (settings : Settings)
    (env : LifecycleEnv) (params : StartNodeParams) : L EQLiteNodeInfo :=
  let nodeIdHash := nodeIdHashOf env (sp_role params) (now (base env)) in
  let nodeId := shortIdOf env nodeIdHash in
  note (Starting (sp_role params) nodeId) ;;>
  (* 1. Create EQLite node config *)
  let nodeConfig := nodeConfigOf settings nodeId params in
  (* 2. Create and start EQLite node *)
  created <~ create_node env nodeConfig ;;
  set_manager created ;;>
  state <~ Eff.await (managerStart env) ;;
  set_manager state ;;>
  let endpoint := endpointOf (sp_httpPort params) in
  (* 3. Register on EQLite Registry (on-chain) *)
  registerOnChain cfg env nodeIdHash (sp_role params) endpoint (sp_stakeAmount params) ;;>
  (* 4. Submit TEE attestation if available *)
  match md_attestation state.2 with
  | Some report =>
    submitAttestationOnChain cfg env nodeIdHash report (attestationHashOf env report)
  | None => Eff.ret tt
  end ;;>
  (* 5. Register in DWS node registry *)
  agentId <~ dws_register env (registrationOf settings params) ;;
  set_dwsAgentId agentId ;;>
  note (NodeStarted nodeId) ;;>
  note (DWSAgentId agentId) ;;>
  (* 6. Start heartbeat loop *)
  lift (startHeartbeatLoop nodeIdHash) ;;>
  Eff.ret (mkInfo (st_nodeId state.1) (sp_role params) (st_status state.1) endpoint
                  (Some agentId) (Some nodeIdHash) (st_databaseCount state.1)).

(** The transactions [registerOnChain] and [submitAttestationOnChain] send
    on behalf of [startNode]. *)
Definition registrationTx (cfg : EQLiteNodeServiceConfig) (env : LifecycleEnv)
    (params : StartNodeParams) : RegistryTx :=
  mkRegistryTx (account cfg) (eqliteRegistryAddress cfg)
    (RegisterNodeCall (nodeIdHashOf env (sp_role params) (now (base env)))
       (ROLE_TO_NUMBER (sp_role params)) (endpointOf (sp_httpPort params))
       (sp_stakeAmount params)).

Definition attestationTx (cfg : EQLiteNodeServiceConfig) (env : LifecycleEnv)
    (params : StartNodeParams) (report : string) : RegistryTx :=
  mkRegistryTx (account cfg) (eqliteRegistryAddress cfg)
    (SubmitAttestationCall (nodeIdHashOf env (sp_role params) (now (base env)))
       report (attestationHashOf env report)).

(** [getNodeStatus()]: [None] is [null]. *)
Definition getNodeStatus (s : Service) : option EQLiteNodeInfo :=
  match nodeManager (world s), managerDetail s with
  | Some state, Some detail =>
    Some (mkInfo (st_nodeId state) (md_role detail) (st_status state)
                 "http://localhost:4662" (dwsAgentId (world s)) None
                 (st_databaseCount state))
  | _, _ => None
  end.

Definition stopNode (env : LifecycleEnv) : L unit := lift (EQLiteNodeService.stopNode (base env)).

Definition tick (cfg : EQLiteNodeServiceConfig) (env : LifecycleEnv) (h : nat) : L unit :=
  lift (EQLiteNodeService.tick cfg (base env) h).

Definition fresh : Service := mkService (mkWorld None None [] [] [] ∅ 0) None [] [] [] [].

End EQLiteNodeLifecycle.

(** ** External-chain provisioning: local nodes and the script's main loop

    [getLocalEndpoints], [deployLocalNode] and [main] of the provisioning
    script, on top of [ChainProvisioning]. Console output is left out, as
    there; the summary counts [main] prints are kept. *)

Module ChainDeployment.
Import ChainProvisioning.

Definition ALL_CHAINS : list string :=
  ["ethereum"; "arbitrum"; "optimism"; "base"; "solana"].

(** JavaScript truthiness of an optional string: [undefined] and [''] are
    falsy. *)
Definition truthy_string (s : option string) : option string :=
  match s with
  | Some v => if String.eqb v "" then None else Some v
  | None => None
  end.

(** [getLocalEndpoints(chain, config)]. [staticEndpoints] has the one key
    [solana]; the callers pass configured chain names only. *)
Definition getLocalEndpoints (chain : string) (config : option ChainConfig)
    : DeploymentResult :=
  match config with
  | Some c =>
    match truthy (evmChainId c), truthy (rpcPort c) with
    | Some _, Some port =>
      mkResult localnet chain local None
        ("http://localhost:" +:+ pretty port)
        (match truthy (wsPort c) with
         | Some ws => "ws://localhost:" +:+ pretty ws
         | None => ""
         end)
        false running
    | _, _ =>
      if String.eqb chain "solana"
      then mkResult localnet chain local None "http://localhost:8899" "ws://localhost:8900"
                    false running
      else mkResult localnet chain local None "" "" false running
    end
  | None =>
    if String.eqb chain "solana"
    then mkResult localnet chain local None "http://localhost:8899" "ws://localhost:8900"
                  false running
    else mkResult localnet chain local None "" "" false running
  end.

(** The shell commands [deployLocalNode] hands to [execSync]. *)
Inductive DockerCmd : Type :=
| PsRunning (containerName : string)       (* docker ps -q -f name=... *)
| PsAll (containerName : string)           (* docker ps -aq -f name=... *)
| RmForce (containerName : string)         (* docker rm -f ... *)
| RunSolana (containerName image bpfFlag : string)
| RunAnvil (containerName : string) (rpcPort : Z) (image forkUrl : string) (chainId : Z).

Definition is_run (c : DockerCmd) : bool :=
  match c with
  | RunSolana _ _ _ | RunAnvil _ _ _ _ _ => true
  | _ => false
  end.

(** What the script wrote with [writeFileSync]. *)
Inductive OutputFile : Type :=
| PerChain (network : NetworkType) (chain : string) (result : DeploymentResult)
    (deployedAt : string)                    (* `${network}-${chain}.json` *)
| Combined (network : NetworkType) (deployedAt : string)
    (chains : gmap string DeploymentResult). (* `${network}-all.json` *)

(** Running, pending and failed counts of the deployment summary. *)
Record Summary : Type := mkSummary {
  runningCount : nat;
  pendingCount : nat;
  failedCount : nat
}.

Record ScriptWorld : Type := mkScript {
  posted : list ProvisionRequest;   (* requests to the DWS provisioning API *)
  docker : list DockerCmd;          (* execSync calls, in order *)
  sleeps : list Z;                  (* Bun.sleep calls *)
  forkChecks : list Z;              (* eth_blockNumber probes, by host port *)
  madeOutputDir : bool;             (* mkdirSync(outputDir) *)
  files : list OutputFile;
  printed : list Summary
}.

Definition empty_script : ScriptWorld := mkScript [] [] [] [] false [] [].

Record ScriptEnv : Type := mkScriptEnv {
  dwsApi : Env;
  execSync : DockerCmd -> outcome string;    (* stdout, or the command failed *)
  arch : string;                              (* process.arch *)
  forkCheck : Z -> outcome unit;              (* fetch + response.json() of the probe *)
  outputDirExists : bool;                     (* existsSync(outputDir) *)
  mkdirSync : outcome unit;                   (* mkdirSync(outputDir, { recursive: true }) *)
  writeFileSync : OutputFile -> outcome unit; (* writeFileSync(outputFile, ...) *)
  isoNow : string                             (* new Date().toISOString() *)
}.

Definition S := Eff.M ScriptWorld.

(** Run [deployDWSNode] inside the script. *)
Definition lift_dws {A} (m : M A) : S A :=
  fun w =>
    let (o, p) := m (posted w) in
    (o, mkScript p (docker w) (sleeps w) (forkChecks w) (madeOutputDir w) (files w)
          (printed w)).

Definition exec (env : ScriptEnv) (c : DockerCmd) : S string :=
  Eff.modify (fun w => mkScript (posted w) (docker w ++ [c]) (sleeps w) (forkChecks w)
                         (madeOutputDir w) (files w) (printed w)) ;;>
  Eff.await (execSync env c).

Definition sleep (ms : Z) : S unit :=
  Eff.modify (fun w => mkScript (posted w) (docker w) (sleeps w ++ [ms]) (forkChecks w)
                         (madeOutputDir w) (files w) (printed w)).

Definition probe (env : ScriptEnv) (port : Z) : S unit :=
  Eff.modify (fun w => mkScript (posted w) (docker w) (sleeps w) (forkChecks w ++ [port])
                         (madeOutputDir w) (files w) (printed w)) ;;>
  Eff.await (forkCheck env port).

(** [writeFileSync] throws when the file cannot be written; [files] lists
    the files that were written. *)
Definition writeFile (env : ScriptEnv) (f : OutputFile) : S unit :=
  Eff.await (writeFileSync env f) ;;>
  Eff.modify (fun w => mkScript (posted w) (docker w) (sleeps w) (forkChecks w)
                         (madeOutputDir w) (files w ++ [f]) (printed w)).

(** [String.prototype.trim] on the ASCII output of docker: tab, line feed,
    vertical tab, form feed, carriage return and space are stripped from both
    ends. *)
Definition is_space (a : Ascii.ascii) : bool :=
  let n := Ascii.nat_of_ascii a in
  ((9 <=? n) && (n <=? 13) || (n =? 32))%nat.

Fixpoint ltrim (s : string) : string :=
  match s with
  | String a rest => if is_space a then ltrim rest else s
  | EmptyString => EmptyString
  end.

Definition trim (s : string) : string := String.rev (ltrim (String.rev (ltrim s))).

(** [execSync(cmd, { encoding: 'utf-8' }).trim()] is a non-empty string. *)
Definition found (stdout : string) : bool := negb (String.eqb (trim stdout) "").

Definition containerNameOf (chain : string) : string := "jeju-" +:+ chain +:+ "-localnet".

Definition deployLocalNode (env : ScriptEnv) (chain : string) (networkMode : NetworkMode)
    : S DeploymentResult :=
  match lookupConfig chain networkMode with
  | None => Eff.throw (UnsupportedChain chain)
  | Some config =>
    let containerName := containerNameOf chain in
    (* Check if already running *)
    already <~ Eff.try_catch
                 (running <~ exec env (PsRunning containerName) ;;
                  Eff.ret (found running))
                 (fun _ => Eff.ret false) ;;
    if already : bool then Eff.ret (getLocalEndpoints chain (Some config))
    else
      (* Check if stopped container exists and remove it *)
      Eff.try_catch
        (existing <~ exec env (PsAll containerName) ;;
         if found existing then exec env (RmForce containerName) ;;> Eff.ret tt
         else Eff.ret tt)
        (fun _ => Eff.ret tt) ;;>
      (* Start container based on chain type *)
      (if String.eqb chain "solana" then
         let isArm := String.eqb (arch env) "arm64" || String.eqb (arch env) "arm" in
         let bpfFlag := if isArm then "--no-bpf-jit" else "" in
         exec env (RunSolana containerName (dockerImage config) bpfFlag) ;;>
         sleep 8000
       else
         match truthy (evmChainId config), truthy_string (forkUrl config) with
         | Some chainId, Some url =>
           let rpcPort := default 8545 (rpcPort config) in
           exec env (RunAnvil containerName rpcPort (dockerImage config) url chainId) ;;>
           sleep 10000 ;;>
           (* Verify fork is working by checking latest block *)
           Eff.try_catch (probe env rpcPort) (fun _ => Eff.ret tt)
         | _, _ => Eff.ret tt
         end) ;;>
      Eff.ret (getLocalEndpoints chain (Some config))
  end.

(** [process.env.DEPLOYER_PRIVATE_KEY || process.env.PRIVATE_KEY] *)
Definition privateKeyOf (deployerKey key : option string) : option string :=
  match truthy_string deployerKey with
  | Some k => Some k
  | None => key
  end.

#[global] Instance DeployStatus_eq_dec : EqDecision DeployStatus.
Proof. solve_decision. Defined.

#[global] Instance NetworkType_eq_dec : EqDecision NetworkType.
Proof. solve_decision. Defined.

Definition summarize (results : list DeploymentResult) : Summary :=
  mkSummary
    (length (filter (fun r => status r = running) results))
    (length (filter (fun r => status r = pending) results))
    (length (filter (fun r => status r = failed) results)).

(** [Object.fromEntries(results.map((r) => [r.chain, r]))]: a later entry
    replaces an earlier one with the same key. *)
Definition byChain (results : list DeploymentResult) : gmap string DeploymentResult :=
  foldl (fun m r => <[chain r := r]> m) ∅ results.

(** The DWS API and the signer answer every call, and every answer can be
    read. *)
Definition dws_answers (env : Env) : Prop :=
  (forall key, exists account, privateKeyToAccount env key = Returned account)
  /\ (forall c t, exists signature, signMessage env c t = Returned signature)
  /\ (forall r, exists resp,
        fetch env r = Returned resp
        /\ (exists body, text resp = Returned body)
        /\ (exists reply, json resp = Returned reply)).

Definition modeOf (network : NetworkType) : NetworkMode :=
  match network with mainnet => Mainnet | _ => Testnet end.

Definition is_combined (f : OutputFile) : bool :=
  match f with
  | Combined _ _ _ => true
  | PerChain _ _ _ _ => false
  end.

Definition perChainFile (env : ScriptEnv) (network : NetworkType) (r : DeploymentResult)
    : OutputFile :=
  PerChain network (chain r) r (isoNow env).

(** The [if (network === 'localnet') ... else ...] of the loop body. *)
Definition deployChain (env : ScriptEnv) (network : NetworkType)
    (privateKey : option string) (chain : string) : S DeploymentResult :=
  match network with
  | localnet => deployLocalNode env chain Devnet
  | _ =>
    let networkMode := match network with mainnet => Mainnet | _ => Testnet end in
    match truthy_string privateKey with
    | None =>
      Eff.ret (mkResult network chain dws None "" ""
                 (match network with mainnet => true | _ => false end) pending)
    | Some key => lift_dws (deployDWSNode (dwsApi env) chain networkMode network key)
    end
  end.

(** One round of [for (const chain of ALL_CHAINS)]. *)
Definition deployOne (env : ScriptEnv) (network : NetworkType)
    (privateKey : option string) (chain : string) : S DeploymentResult :=
  result <~ deployChain env network privateKey chain ;;
  writeFile env (PerChain network chain result (isoNow env)) ;;>
  Eff.ret result.

Fixpoint deployAll (env : ScriptEnv) (network : NetworkType) (privateKey : option string)
    (chains : list string) (results : list DeploymentResult)
    : S (list DeploymentResult) :=
  match chains with
  | [] => Eff.ret results
  | chain :: rest =>
    result <~ deployOne env network privateKey chain ;;
    deployAll env network privateKey rest (results ++ [result])
  end.

(** The world once the output directory is known to exist. *)
Definition withOutputDir (env : ScriptEnv) (w : ScriptWorld) : ScriptWorld :=
  if outputDirExists env then w
  else mkScript (posted w) (docker w) (sleeps w) (forkChecks w) true (files w) (printed w).

(** [if (!existsSync(outputDir)) mkdirSync(outputDir, { recursive: true })];
    [mkdirSync] throws when the directory cannot be created. *)
Definition ensureOutputDir (env : ScriptEnv) : S unit :=
  (if outputDirExists env then Eff.ret tt else Eff.await (mkdirSync env)) ;;>
  Eff.modify (withOutputDir env).

(** The output directory can be created and every file in it written. *)
Definition writable (env : ScriptEnv) : Prop :=
  (outputDirExists env = false -> mkdirSync env = Returned tt)
  /\ (forall f, writeFileSync env f = Returned tt).

(** [main()], given what [getRequiredNetwork()] and the two environment
    variables hold. *)
Definition main (env : ScriptEnv) (network : NetworkType)
    (deployerKey key : option string) : S unit :=
  let privateKey := privateKeyOf deployerKey key in
  ensureOutputDir env ;;>
  results <~ deployAll env network privateKey ALL_CHAINS [] ;;
  (* Save combined results *)
  writeFile env (Combined network (isoNow env) (byChain results)) ;;>
  (* Print summary *)
  Eff.modify (fun w => mkScript (posted w) (docker w) (sleeps w) (forkChecks w)
                         (madeOutputDir w) (files w) (printed w ++ [summarize results])).

End ChainDeployment.

(** ** Dashboard: the recent-activity list

    The data handling of [RecentActivity] in [Dashboard.tsx]; the markup is
    left out. Strings are sequences of code units. *)

Module DashboardActivity.

Record Execution : Type := mkExecution {
  executionId : string;
  image : string;
  exec_status : string;
  startedAt : option Z;            (* number | null *)
  submittedAt : Z
}.

Record WorkerFunction : Type := mkFunction {
  fn_id : string;
  fn_name : string;
  fn_status : string;
  updatedAt : Z
}.

Record Job : Type := mkJob {
  jobId : string;
  command : string;
  job_status : string;
  job_startedAt : option Z         (* number | null *)
}.

Inductive ActivityType : Type := container | worker | job.

Record Activity : Type := mkActivity {
  id : string;
  type : ActivityType;
  name : string;
  status : string;
  timestamp : Z
}.

(** [s.split(sep)] for a one-character separator. *)
Fixpoint split (sep : Ascii.ascii) (s : string) : list string :=
  match s with
  | EmptyString => [EmptyString]
  | String a rest =>
    if Ascii.eqb a sep then EmptyString :: split sep rest
    else match split sep rest with
         | part :: parts => String a part :: parts
         | [] => [String a EmptyString]
         end
  end.

Definition slash : Ascii.ascii := Ascii.ascii_of_nat 47.
Definition colon : Ascii.ascii := Ascii.ascii_of_nat 58.

(** The display name of a container: the last path segment of the image,
    without its tag; the whole image when that is empty. *)
Definition containerName (image : string) : string :=
  let imageParts := split slash image in
  let lastPart := default EmptyString (last imageParts) in
  let namePart := default EmptyString (head (split colon lastPart)) in
  if String.eqb namePart "" then image else namePart.

(** [j.command.slice(0, 30) + (j.command.length > 30 ? '...' : '')] *)
Definition jobName (command : string) : string :=
  substring 0 30 command +:+ (if (30 <? String.length command)%nat then "..." else "").

Definition ofExecution (c : Execution) : Activity :=
  mkActivity (executionId c) container (containerName (image c)) (exec_status c)
             (default (submittedAt c) (startedAt c)).

Definition ofFunction (w : WorkerFunction) : Activity :=
  mkActivity (fn_id w) worker (fn_name w) (fn_status w) (updatedAt w).

(** Jobs that have not started are skipped. *)
Definition ofJob (j : Job) : option Activity :=
  match job_startedAt j with
  | None => None
  | Some t => Some (mkActivity (jobId j) job (jobName (command j)) (job_status j) t)
  end.

Definition activities (executions : list Execution) (functions : list WorkerFunction)
    (jobs : list Job) : list Activity :=
  (ofExecution <$> executions) ++ (ofFunction <$> functions) ++ omap ofJob jobs.

(** [Array.prototype.sort((a, b) => b.timestamp - a.timestamp)]: a stable
    sort, most recent first. *)
Fixpoint insertByTime (a : Activity) (l : list Activity) : list Activity :=
  match l with
  | [] => [a]
  | b :: rest =>
    if timestamp b <=? timestamp a then a :: b :: rest
    else b :: insertByTime a rest
  end.

Definition sortByTime (l : list Activity) : list Activity := foldr insertByTime [] l.

(** The order of the list shown: no later entry is more recent. *)
Definition newer_first (a b : Activity) : Prop := timestamp b <= timestamp a.

Definition recentActivities (executions : list Execution)
    (functions : list WorkerFunction) (jobs : list Job) : list Activity :=
  take 8 (sortByTime (activities executions functions jobs)).

Inductive TimeLabel : Type :=
| JustNow                          (* 'Just now' *)
| MinutesAgo (m : Z)               (* `${m}m ago` *)
| HoursAgo (h : Z)                 (* `${h}h ago` *)
| LocaleDate (timestamp : Z).      (* new Date(timestamp).toLocaleDateString() *)

(** [formatTime(timestamp)], with [now] for [Date.now()]. *)
Definition formatTime (now timestamp : Z) : TimeLabel :=
  let diff := now - timestamp in
  if diff <? 60000 then JustNow
  else if diff <? 3600000 then MinutesAgo (diff / 60000)
  else if diff <? 86400000 then HoursAgo (diff / 3600000)
  else LocaleDate timestamp.

Definition getStatusColor (status : string) : string :=
  if String.eqb status "running" || String.eqb status "active" then "badge-success"
  else if String.eqb status "completed" then "badge-info"
  else if String.eqb status "pending" || String.eqb status "queued" then "badge-warning"
  else if String.eqb status "failed" || String.eqb status "cancelled" then "badge-error"
  else "badge-neutral".

Fixpoint contains (a : Ascii.ascii) (s : string) : bool :=
  match s with
  | EmptyString => false
  | String b rest => Ascii.eqb b a || contains a rest
  end.

End DashboardActivity.

(** ** Concrete inputs for the node lifecycle *)

Module LifecycleScenario.
Import EQLiteNodeService EQLiteNodeLifecycle.

Definition running_state : NodeState * ManagerDetail :=
  (mkNodeState "a1b2c3d4e5f60718" RUNNING 0, mkDetail MINER None).

Definition created_state : NodeState * ManagerDetail :=
  (mkNodeState "a1b2c3d4e5f60718" (OtherStatus "stopped") 0, mkDetail MINER None).

(** Every collaborator answers; [onchain] is the wallet's answer to the
    registration transaction. *)
Definition lifecycle_env (onchain : outcome Hex) : LifecycleEnv :=
  mkLifecycleEnv
    (Scenario.demo_env (Returned []) (Returned 1%N) (Returned tt))
    (fun role t => (ROLE_TO_NUMBER role + Z.to_N t)%N)
    (fun _ => "a1b2c3d4e5f60718")
    (fun _ => Returned created_state)
    (Returned running_state)
    (fun _ => onchain)
    (fun _ => 99%N)
    (fun _ => Returned 5%N).

Definition dev_settings : Settings := mkSettings "/var/eqlite" false.

Definition miner_on_port (p : option Z) : StartNodeParams :=
  mkStartParams MINER None p 1000 None.

End LifecycleScenario.

(** ** Concrete inputs for the provisioning script *)

Module DeployScenario.
Import ChainProvisioning ChainDeployment.

(** Docker answers every probe with empty output and starts what it is
    asked to start. *)
Definition quiet_docker (c : DockerCmd) : outcome string := Returned "".

(** A container of that name is already up. *)
Definition busy_docker (c : DockerCmd) : outcome string :=
  match c with
  | PsRunning _ => Returned ("3f2a9c1b7d4e" +:+ String (Ascii.ascii_of_nat 10) "")
  | _ => Thrown (Rejected "docker: unexpected command")
  end.

(** The probes work, [docker run] fails. *)
Definition broken_docker (c : DockerCmd) : outcome string :=
  if is_run c then Thrown (Rejected "docker: port is already allocated") else Returned "".

(** The output directory is missing; [writes] says which files can be
    written once it has been created. *)
Definition script_env_on (d : DockerCmd -> outcome string) (r : Response)
    (writes : OutputFile -> outcome unit) : ScriptEnv :=
  mkScriptEnv (Scenario.provision_env r) d "x64" (fun _ => Thrown (Rejected "ECONNREFUSED"))
    false (Returned tt) writes "2026-01-01T00:00:00.000Z".

(** Every file can be written. *)
Definition script_env (d : DockerCmd -> outcome string) (r : Response) : ScriptEnv :=
  script_env_on d r (fun _ => Returned tt).

(** The per-chain files can be written, the combined file cannot. *)
Definition no_combined_file (f : OutputFile) : outcome unit :=
  if is_combined f then Thrown (Rejected "ENOSPC: no space left on device")
  else Returned tt.

End DeployScenario.

(** * Theorems *)

Section EQLiteNodeServiceFacts.
Import EQLiteNodeService Scenario.

Lemma slice0_take {A} (l : list A) (n : Z) :
  0 <= n <= Z.of_nat (length l) -> slice0 l n = take (Z.to_nat n) l.
Proof.
  intros [Hlo Hhi]. unfold slice0.
  destruct (Z.ltb_spec n 0) as [Hneg|_]; [lia|].
  now rewrite Z.min_l by lia.
Qed.

(** C1. A request for [nodeCount] miners against a pool of fewer active
    miners fails with the not-enough-miners error and leaves the world
    exactly as it was: no transaction is sent, nothing is logged, no field of
    the service changes. *)
Theorem createDatabase_insufficient_capacity cfg env params w miners :
  readActiveMiners env = Returned miners ->
  Z.of_nat (length miners) < nodeCount params ->
  createDatabase cfg env params w
  = (Thrown (NotEnoughActiveMiners (nodeCount params) (length miners)), w).
Proof.
  intros Hread Hlt.
  unfold createDatabase, getActiveMiners, Eff.bind, Eff.await, Eff.throw.
  rewrite Hread.
  destruct (Z.ltb_spec (Z.of_nat (length miners)) (nodeCount params)); [reflexivity | lia].
Qed.

Lemma createDatabase_insufficient_capacity_witness :
  createDatabase demo_cfg (demo_env (Returned [10%N; 11%N]) (Returned 1%N) (Returned tt))
                 (mkParams 5%N 3 false) idle_world
  = (Thrown (NotEnoughActiveMiners 3 2), idle_world).
Proof.
  apply (createDatabase_insufficient_capacity demo_cfg
           (demo_env (Returned [10%N; 11%N]) (Returned 1%N) (Returned tt))
           (mkParams 5%N 3 false) idle_world [10%N; 11%N]).
  - reflexivity.
  - simpl. lia.
Defined.

(** C3, as the spec words it, fails: with two miners of equal capacity that
    the registry returns as 2, 1, a request for one miner sends the contract
    miner 2, where capacity-then-nodeId order would select miner 1. *)
Lemma createDatabase_selection_not_scored :
  let env := demo_env (Returned [2%N; 1%N]) (Returned 1%N) (Returned tt) in
  let chosen := SpecWording.select_by_scoring_order (fun _ => 0%N) [2%N; 1%N] 1 in
  txCalls (createDatabase demo_cfg env (mkParams 5%N 1 false) idle_world).2
  <> [mkTx 7%N 9%N (CreateDatabaseCall (databaseIdOf env 5%N (now env)) chosen)].
Proof. vm_compute. discriminate. Qed.

(** C3, amended. [createDatabase] hands the registry contract the first
    [nodeCount] active miners in the order the registry returned them, and
    nothing else decides the selection; the first selected miner is the
    first active miner. *)
Theorem createDatabase_selects_prefix cfg env params w miners :
  readActiveMiners env = Returned miners ->
  0 <= nodeCount params <= Z.of_nat (length miners) ->
  let n := Z.to_nat (nodeCount params) in
  let tx := mkTx (account cfg) (eqliteRegistryAddress cfg)
              (CreateDatabaseCall (databaseIdOf env (owner params) (now env))
                                  (take n miners)) in
  txCalls (createDatabase cfg env params w).2 = (txCalls w ++ [tx])%list
  /\ selectedMiners miners (nodeCount params) = take n miners
  /\ (1 <= nodeCount params -> head (take n miners) = head miners).
Proof.
  intros Hread Hn n tx. subst n tx.
  split; [|split].
  - unfold createDatabase, getActiveMiners, send, log, Eff.bind, Eff.await,
      Eff.throw, Eff.modify, Eff.ret.
    rewrite Hread.
    destruct (Z.ltb_spec (Z.of_nat (length miners)) (nodeCount params)); [lia|].
    unfold selectedMiners. rewrite slice0_take by lia.
    destruct (sendTransaction env _) as [txh|e]; simpl; [|reflexivity].
    destruct (waitForTransactionReceipt env txh) as [[]|e]; reflexivity.
  - unfold selectedMiners. now apply slice0_take.
  - intros H1. destruct miners as [|m ms]; [simpl in Hn; lia|].
    destruct (Z.to_nat (nodeCount params)) eqn:E; [lia | reflexivity].
Qed.

(** Miners A, B, C registered in that order, three requested: A comes first. *)
Lemma createDatabase_selects_prefix_witness :
  let env := demo_env (Returned [1%N; 2%N; 3%N]) (Returned 1%N) (Returned tt) in
  let params := mkParams 5%N 3 false in
  txCalls (createDatabase demo_cfg env params idle_world).2
  = [mkTx 7%N 9%N (CreateDatabaseCall (databaseIdOf env 5%N (now env)) [1%N; 2%N; 3%N])]
  /\ selectedMiners [1%N; 2%N; 3%N] 3 = [1%N; 2%N; 3%N]
  /\ head (selectedMiners [1%N; 2%N; 3%N] 3) = Some 1%N.
Proof.
  intros env params.
  destruct (createDatabase_selects_prefix demo_cfg env params idle_world
              [1%N; 2%N; 3%N] eq_refl ltac:(simpl; lia)) as (Htx & Hsel & Hhd).
  split; [exact Htx | split; [exact Hsel | reflexivity]].
Defined.

(** *** The heartbeat loop *)

Ltac run_eff :=
  unfold tick, heartbeatCallback, clearInterval, send, dws_heartbeat, log,
    stopNode, set_nodeManager, startHeartbeatLoop,
    Eff.bind, Eff.try_catch, Eff.get, Eff.modify, Eff.await, Eff.ret, Eff.throw;
  simpl.

Lemma tick_returns cfg env h w : (tick cfg env h w).1 = Returned tt.
Proof.
  run_eff. destruct (timers w !! h) as [nodeId|]; [|reflexivity].
  destruct (nodeManager w) as [st|]; [|reflexivity].
  destruct (status_is_running (st_status st)); simpl; [|reflexivity].
  destruct (sendTransaction env _) as [txh|e]; simpl;
    (destruct (dwsAgentId w) as [a|]; [|reflexivity]);
    (destruct (a =? 0)%N; [reflexivity|]); simpl;
    destruct (registryHeartbeat env a) as [[]|e']; reflexivity.
Qed.

Lemma tick_not_running cfg env h w st :
  nodeManager w = Some st -> st_status st <> RUNNING ->
  (tick cfg env h w).2 = w.
Proof.
  intros Hnm Hst. run_eff.
  destruct (timers w !! h) as [nodeId|]; [|reflexivity].
  rewrite Hnm. destruct (st_status st); [congruence | reflexivity].
Qed.

Lemma tick_keeps_nodeManager cfg env h w :
  nodeManager (tick cfg env h w).2 = nodeManager w.
Proof.
  run_eff. destruct (timers w !! h) as [nodeId|]; [|reflexivity].
  destruct (nodeManager w) as [st|] eqn:Hnm; [|simpl; exact Hnm].
  destruct (status_is_running (st_status st)); simpl; [|exact Hnm].
  destruct (sendTransaction env _) as [txh|e]; simpl;
    (destruct (dwsAgentId w) as [a|]; [|exact Hnm]);
    (destruct (a =? 0)%N; [exact Hnm|]); simpl;
    destruct (registryHeartbeat env a) as [[]|e']; exact Hnm.
Qed.

Lemma tick_timer cfg env h w nodeId :
  timers w !! h = Some nodeId ->
  timers (tick cfg env h w).2 !! h = None <-> nodeManager w = None.
Proof.
  intros Ht. run_eff. rewrite Ht.
  destruct (nodeManager w) as [st|]; simpl.
  - split; [|discriminate]. intros Hcleared. exfalso.
    destruct (status_is_running (st_status st)); simpl in Hcleared;
      [|congruence].
    destruct (sendTransaction env _) as [txh|e]; simpl in Hcleared;
      (destruct (dwsAgentId w) as [a|]; [|simpl in Hcleared; congruence]);
      (destruct (a =? 0)%N; [simpl in Hcleared; congruence|]);
      simpl in Hcleared;
      destruct (registryHeartbeat env a) as [[]|e']; simpl in Hcleared; congruence.
  - split; [reflexivity|]. intros _. apply lookup_delete_eq.
Qed.

Lemma tick_tx_failure_logged cfg env h w nodeId st e :
  timers w !! h = Some nodeId -> nodeManager w = Some st ->
  st_status st = RUNNING ->
  sendTransaction env (mkTx (account cfg) (eqliteRegistryAddress cfg)
                            (HeartbeatCall nodeId 0%N)) = Thrown e ->
  HeartbeatFailed e ∈ console (tick cfg env h w).2.
Proof.
  intros Ht Hnm Hst Hsend. run_eff. rewrite Ht, Hnm, Hst. simpl.
  rewrite Hsend. simpl.
  destruct (dwsAgentId w) as [a|]; simpl; [|set_solver].
  destruct (a =? 0)%N; simpl; [set_solver|].
  destruct (registryHeartbeat env a) as [[]|e']; simpl; set_solver.
Qed.

Lemma tick_dws_failure_logged cfg env h w nodeId st a e :
  timers w !! h = Some nodeId -> nodeManager w = Some st ->
  st_status st = RUNNING ->
  dwsAgentId w = Some a -> a <> 0%N ->
  registryHeartbeat env a = Thrown e ->
  DWSHeartbeatFailed e ∈ console (tick cfg env h w).2.
Proof.
  intros Ht Hnm Hst Ha Hnz Hhb. run_eff. rewrite Ht, Hnm, Hst. simpl.
  destruct (sendTransaction env _) as [txh|e0]; simpl; rewrite Ha;
    (destruct (N.eqb_spec a 0); [congruence|]); simpl; rewrite Hhb; simpl;
    set_solver.
Qed.

Lemma stopNode_clears_manager env w :
  managerStop env = Returned tt ->
  nodeManager (stopNode env w).2 = None.
Proof.
  intros Hstop. run_eff.
  destruct (nodeManager w) as [st|] eqn:Hnm; [|simpl; exact Hnm].
  rewrite Hstop. reflexivity.
Qed.

(** C9. A firing of the heartbeat timer always returns normally, whatever
    the wallet and the DWS registry answer; a rejected transaction and a
    rejected registry heartbeat are both written to the console; while the
    node is not RUNNING the firing changes nothing (no transaction, no
    registry heartbeat); the firing never touches the node manager, and it
    clears its timer exactly when the node manager is null, which
    [stopNode] makes it. *)
Theorem heartbeat_loop_contained cfg env h w :
  (tick cfg env h w).1 = Returned tt
  /\ (forall nodeId st e,
        timers w !! h = Some nodeId -> nodeManager w = Some st ->
        st_status st = RUNNING ->
        sendTransaction env (mkTx (account cfg) (eqliteRegistryAddress cfg)
                                  (HeartbeatCall nodeId 0%N)) = Thrown e ->
        HeartbeatFailed e ∈ console (tick cfg env h w).2)
  /\ (forall nodeId st a e,
        timers w !! h = Some nodeId -> nodeManager w = Some st ->
        st_status st = RUNNING -> dwsAgentId w = Some a -> a <> 0%N ->
        registryHeartbeat env a = Thrown e ->
        DWSHeartbeatFailed e ∈ console (tick cfg env h w).2)
  /\ (forall st, nodeManager w = Some st -> st_status st <> RUNNING ->
        txCalls (tick cfg env h w).2 = txCalls w
        /\ dwsHeartbeatCalls (tick cfg env h w).2 = dwsHeartbeatCalls w
        /\ (tick cfg env h w).2 = w)
  /\ nodeManager (tick cfg env h w).2 = nodeManager w
  /\ (forall nodeId, timers w !! h = Some nodeId ->
        (timers (tick cfg env h w).2 !! h = None <-> nodeManager w = None))
  /\ (managerStop env = Returned tt ->
        nodeManager (stopNode env w).2 = None
        /\ timers (stopNode env w).2 = timers w
        /\ forall nodeId, timers w !! h = Some nodeId ->
             timers (tick cfg env h (stopNode env w).2).2 !! h = None).
Proof.
  split; [apply tick_returns|].
  split; [intros; eapply tick_tx_failure_logged; eauto|].
  split; [intros; eapply tick_dws_failure_logged; eauto|].
  split.
  { intros st Hnm Hst.
    rewrite (tick_not_running cfg env h w st Hnm Hst). auto. }
  split; [apply tick_keeps_nodeManager|].
  split; [intros nodeId Ht; exact (tick_timer cfg env h w nodeId Ht)|].
  intros Hstop.
  assert (Htm : timers (stopNode env w).2 = timers w).
  { run_eff. destruct (nodeManager w); [rewrite Hstop|]; reflexivity. }
  split; [now apply stopNode_clears_manager|].
  split; [exact Htm|].
  intros nodeId Ht.
  apply (tick_timer cfg env h _ nodeId); [now rewrite Htm|].
  now apply stopNode_clears_manager.
Qed.

(** A firing where both the wallet and the DWS registry reject: it returns,
    and both failures are on the console. *)
Lemma heartbeat_loop_contained_witness :
  let env := demo_env (Returned []) (Thrown (Rejected "rpc down"))
               (Thrown (Rejected "registry down")) in
  (tick demo_cfg env 0 running_world).1 = Returned tt
  /\ HeartbeatFailed (Rejected "rpc down") ∈ console (tick demo_cfg env 0 running_world).2
  /\ DWSHeartbeatFailed (Rejected "registry down")
       ∈ console (tick demo_cfg env 0 running_world).2
  /\ timers (tick demo_cfg env 0 running_world).2 !! 0%nat = Some 77%N.
Proof.
  intros env.
  destruct (heartbeat_loop_contained demo_cfg env 0 running_world)
    as (Hret & Htx & Hdws & _).
  split; [exact Hret|].
  split; [eapply Htx; reflexivity|].
  split; [eapply Hdws; [reflexivity..|discriminate|reflexivity]|].
  reflexivity.
Defined.

End EQLiteNodeServiceFacts.

Section ChainProvisioningFacts.
Import ChainProvisioning Scenario.

Lemma CHAIN_CONFIGS_inv chain per_mode :
  CHAIN_CONFIGS !! chain = Some per_mode ->
  per_mode = solana_configs \/ per_mode = ethereum_configs
  \/ per_mode = arbitrum_configs \/ per_mode = optimism_configs
  \/ per_mode = base_configs.
Proof.
  intros Hl. apply elem_of_list_to_map_2 in Hl.
  unfold CHAIN_CONFIGS_entries in Hl.
  repeat (apply elem_of_cons in Hl as [Heq|Hl]; [inversion Heq; tauto|]).
  now apply elem_of_nil in Hl.
Qed.

Lemma lookupConfig_inv chain m config :
  lookupConfig chain m = Some config ->
  exists per_mode, CHAIN_CONFIGS !! chain = Some per_mode /\ config = per_mode m.
Proof.
  unfold lookupConfig. destruct (CHAIN_CONFIGS !! chain) as [f|]; simpl; [|discriminate].
  intros [= <-]. eauto.
Qed.

(** What a run that got as far as posting its request looked like. *)
Lemma deployDWSNode_posted env chain networkMode network privateKey sent req :
  (deployDWSNode env chain networkMode network privateKey sent).2 = (sent ++ [req])%list ->
  exists config account signature,
    lookupConfig chain networkMode = Some config
    /\ privateKeyToAccount env privateKey = Returned account
    /\ signMessage env (containerConfigOf chain network config) (now env) = Returned signature
    /\ req = mkRequest (DWS_ENDPOINTS network) signature (now env) account
               (containerConfigOf chain network config)
               (if teeRequired config then "tee-large" else "xlarge").
Proof.
  unfold deployDWSNode, post, Eff.bind, Eff.await, Eff.throw, Eff.modify, Eff.ret.
  assert (Hno : forall r : ProvisionRequest, sent <> (sent ++ [r])%list).
  { intros r Heq. apply (f_equal length) in Heq. rewrite length_app in Heq.
    simpl in Heq. lia. }
  destruct (lookupConfig chain networkMode) as [config|]; simpl;
    [|intros Heq; now apply Hno in Heq].
  destruct (privateKeyToAccount env privateKey) as [account|e] eqn:Hacc; simpl;
    [|intros Heq; now apply Hno in Heq].
  destruct (signMessage env (containerConfigOf chain network config) (now env))
    as [signature|e] eqn:Hsig; simpl;
    [|intros Heq; now apply Hno in Heq].
  intros Heq. exists config, account, signature.
  repeat (split; [first [reflexivity | assumption]|]).
  match type of Heq with
  | (match fetch env ?r with _ => _ end).2 = _ =>
      destruct (fetch env r) as [resp|e]; simpl in Heq
  end.
  - destruct (ok resp); simpl in Heq.
    + destruct (json resp); simpl in Heq; apply app_inv_head in Heq; congruence.
    + destruct (text resp); simpl in Heq; apply app_inv_head in Heq; congruence.
  - apply app_inv_head in Heq. congruence.
Qed.



(** C10. Every Mainnet entry of [CHAIN_CONFIGS] requires TEE of type
    intel_tdx, no Devnet or Testnet entry requires TEE, and the
    [hardware.teePlatform] of the container request built from an entry --
    the one [deployDWSNode] posts -- is the entry's [teeType] when TEE is
    required and the string none otherwise. *)
Theorem chain_configs_tee chain m config :
  lookupConfig chain m = Some config ->
  (m = Mainnet -> teeRequired config = true /\ teeType config = "intel_tdx")
  /\ (m = Devnet \/ m = Testnet -> teeRequired config = false)
  /\ (forall network,
        teePlatform (hardware (containerConfigOf chain network config))
        = if teeRequired config then teeType config else "none")
  /\ (forall env network privateKey sent req,
        (deployDWSNode env chain m network privateKey sent).2 = (sent ++ [req])%list ->
        teePlatform (hardware (req_config req))
        = if teeRequired config then teeType config else "none").
Proof.
  intros Hcfg.
  destruct (lookupConfig_inv _ _ _ Hcfg) as (per_mode & Hl & ->).
  apply CHAIN_CONFIGS_inv in Hl.
  split; [|split; [|split]].
  - intros ->. destruct Hl as [->|[->|[->|[->| ->]]]]; split; reflexivity.
  - intros [-> | ->]; destruct Hl as [->|[->|[->|[->| ->]]]]; reflexivity.
  - reflexivity.
  - intros env network privateKey sent req Hsent.
    destruct (deployDWSNode_posted _ _ _ _ _ _ _ Hsent)
      as (config & account & signature & Hcfg' & _ & _ & ->).
    rewrite Hcfg in Hcfg'. injection Hcfg' as <-. reflexivity.
Qed.


Lemma chain_configs_tee_witness :
  (teeRequired (solana_configs Mainnet) = true
   /\ teeType (solana_configs Mainnet) = "intel_tdx")
  /\ teePlatform (hardware (containerConfigOf "solana" mainnet (solana_configs Mainnet)))
     = "intel_tdx".
Proof.
  destruct (chain_configs_tee "solana" Mainnet (solana_configs Mainnet)
              ltac:(vm_compute; reflexivity)) as (Hmain & _ & Hplatform & _).
  split; [exact (Hmain eq_refl) | exact (Hplatform mainnet)].
Defined.

End ChainProvisioningFacts.

Section NodeRegistryFacts.
Import NodeRegistry.

#[local] Instance by_nodeId_total : Total by_nodeId.
Proof. intros a b. unfold by_nodeId. lia. Qed.

#[local] Instance by_nodeId_trans : Transitive by_nodeId.
Proof. intros a b c. unfold by_nodeId. lia. Qed.

Lemma listByCapability_perm c r :
  listByCapability c r
  ≡ₚ filter (fun kv => eligible c kv.2) (map_to_list (nodes r)).
Proof. apply merge_sort_Permutation. Qed.

Lemma elem_of_listByCapability c r id n :
  (id, n) ∈ listByCapability c r
  <-> nodes r !! id = Some n /\ c ∈ capabilities n /\ health n = Healthy.
Proof.
  rewrite listByCapability_perm, list_elem_of_filter, elem_of_map_to_list.
  unfold eligible. simpl. tauto.
Qed.

Lemma listByCapability_NoDup_ids c r : NoDup ((listByCapability c r).*1).
Proof.
  rewrite listByCapability_perm.
  eapply sublist_NoDup; [apply (NoDup_fst_map_to_list (nodes r))|].
  apply fmap_sublist, sublist_filter.
Qed.

(** A list sorted by [<=] on keys that are pairwise distinct is strictly
    ascending. *)
Lemma strictly_ascending (l : list (N * Node)) :
  StronglySorted by_nodeId l -> NoDup (l.*1) ->
  StronglySorted (fun a b => (a.1 < b.1)%N) l.
Proof.
  induction 1 as [|a l Hl IH Hall]; intros Hnd; [constructor|].
  rewrite fmap_cons in Hnd. apply NoDup_cons in Hnd as [Hnotin Hnd].
  constructor; [now apply IH|].
  rewrite Forall_forall in Hall |- *. intros b Hb.
  specialize (Hall b Hb). unfold by_nodeId in Hall.
  assert (a.1 <> b.1).
  { intros Heq. apply Hnotin. rewrite Heq. now apply list_elem_of_fmap_2. }
  lia.
Qed.

(** C4. [listByCapability c] returns a registered node exactly when [c] is
    one of its capabilities and it is healthy, and the list it returns is
    strictly ascending in node id. *)
Theorem listByCapability_spec c r :
  (forall id n,
      (id, n) ∈ listByCapability c r
      <-> nodes r !! id = Some n /\ c ∈ capabilities n /\ health n = Healthy)
  /\ StronglySorted (fun a b => (a.1 < b.1)%N) (listByCapability c r).
Proof.
  split; [intros; apply elem_of_listByCapability|].
  apply strictly_ascending; [|apply listByCapability_NoDup_ids].
  apply StronglySorted_merge_sort; apply _.
Qed.

End NodeRegistryFacts.

Section ServiceDiscoveryFacts.
Import ServiceDiscovery Scenario.

Lemma set_health_idem h a e : set_health h a (set_health h a e) = set_health h a e.
Proof.
  unfold set_health. destruct (String.eqb (address e) a) eqn:E; simpl; now rewrite E.
Qed.

Lemma set_health_address h a e : address (set_health h a e) = address e.
Proof. unfold set_health. now destruct (String.eqb (address e) a). Qed.

Lemma set_health_at h a e : address e = a -> healthy (set_health h a e) = h.
Proof. intros <-. unfold set_health. now rewrite String.eqb_refl. Qed.

Lemma mark_idem h name a (t : Table) : mark h name a (mark h name a t) = mark h name a t.
Proof.
  unfold mark. rewrite alter_alter_eq. apply alter_ext.
  intros r _. simpl. f_equal.
  rewrite <- list_fmap_compose. apply list_fmap_ext.
  intros i e _. simpl. apply set_health_idem.
Qed.

Lemma listEndpoints_mark h name a (t : Table) :
  listEndpoints name (mark h name a t) = set_health h a <$> listEndpoints name t.
Proof.
  unfold listEndpoints, mark. rewrite lookup_alter_eq.
  now destruct (t !! name).
Qed.

Lemma elem_of_healthyEndpoints name (t : Table) e :
  e ∈ healthyEndpoints name t <-> e ∈ listEndpoints name t /\ healthy e = true.
Proof. unfold healthyEndpoints. rewrite list_elem_of_filter. tauto. Qed.

Lemma pickWeighted_elem r l e : pickWeighted r l = Some e -> e ∈ l.
Proof.
  revert r. induction l as [|x l IH]; intros r; simpl; [discriminate|].
  destruct (r <? weight x)%N.
  - intros [= ->]. left.
  - destruct (pickWeighted (r - weight x) l) as [e'|] eqn:E.
    + intros [= ->]. right. eauto.
    + intros [= ->]. left.
Qed.

Lemma resolveWithLoadBalancing_elem name s (t : Table) e :
  resolveWithLoadBalancing name s t = inr e -> e ∈ healthyEndpoints name t.
Proof.
  unfold resolveWithLoadBalancing.
  destruct (healthyEndpoints name t) as [|x hs] eqn:Hhs; [discriminate|].
  destruct s as [counter|roll].
  - destruct ((x :: hs) !! (counter `mod` length (x :: hs))%nat) as [e'|] eqn:E.
    + intros [= ->]. eapply list_elem_of_lookup_2, E.
    + intros [= ->]. left.
  - destruct (pickWeighted (roll `mod` totalWeight (x :: hs))%N (x :: hs)) as [e'|] eqn:E.
    + intros [= ->]. eapply pickWeighted_elem, E.
    + intros [= ->]. left.
Qed.

Lemma resolveWithLoadBalancing_error name s (t : Table) :
  (exists e, resolveWithLoadBalancing name s t = inr e)
  \/ (resolveWithLoadBalancing name s t = inl NoHealthyEndpointError
      /\ healthyEndpoints name t = []).
Proof.
  unfold resolveWithLoadBalancing.
  destruct (healthyEndpoints name t) as [|x hs]; [right; now destruct s|left].
  destruct s as [counter|roll].
  - destruct ((x :: hs) !! (counter `mod` length (x :: hs))%nat); eauto.
  - destruct (pickWeighted (roll `mod` totalWeight (x :: hs))%N (x :: hs)); eauto.
Qed.

Lemma resolveLeader_elem name (t : Table) e :
  resolveLeader name t = inr e ->
  e ∈ healthyEndpoints name t
  /\ exists r, t !! name = Some r /\ leaderAddress r = Some (address e).
Proof.
  unfold resolveLeader.
  destruct (t !! name) as [r|] eqn:Hr; [|discriminate].
  destruct (leaderAddress r) as [a|] eqn:Ha; [|discriminate].
  destruct (find _ _) as [e'|] eqn:Hf; [|discriminate].
  intros [= ->]. apply find_some in Hf as [Hin Heq].
  apply String.eqb_eq in Heq. subst a.
  split; [now apply list_elem_of_In|eauto].
Qed.

(** C5. Marking an endpoint healthy twice, or unhealthy twice, leaves the
    table as after the first call; every endpoint a resolution call returns
    is flagged healthy; and after [markEndpointUnhealthy name addr] the
    address is returned by none of [resolveA], [resolveSRV],
    [resolveWithLoadBalancing], [resolveLeader], while the full listing
    still shows the same addresses. *)
Theorem mark_idempotent_and_excluded name addr (t : Table) :
  markEndpointHealthy name addr (markEndpointHealthy name addr t)
  = markEndpointHealthy name addr t
  /\ markEndpointUnhealthy name addr (markEndpointUnhealthy name addr t)
     = markEndpointUnhealthy name addr t
  /\ (forall e, e ∈ healthyEndpoints name t -> healthy e = true)
  /\ (forall s e, resolveWithLoadBalancing name s t = inr e ->
        e ∈ listEndpoints name t /\ healthy e = true)
  /\ (forall e, resolveLeader name t = inr e ->
        e ∈ listEndpoints name t /\ healthy e = true)
  /\ (let t' := markEndpointUnhealthy name addr t in
      (addr ∉ resolveA name t')
      /\ (forall p w, (addr, p, w) ∉ resolveSRV name t')
      /\ (forall s e, resolveWithLoadBalancing name s t' = inr e -> address e <> addr)
      /\ (forall e, resolveLeader name t' = inr e -> address e <> addr)
      /\ address <$> listEndpoints name t' = address <$> listEndpoints name t).
Proof.
  split; [apply mark_idem|]. split; [apply mark_idem|].
  split; [intros e He; now apply elem_of_healthyEndpoints in He|].
  split; [intros s e He; now apply resolveWithLoadBalancing_elem,
                              elem_of_healthyEndpoints in He|].
  split; [intros e He; apply resolveLeader_elem in He as [He _];
          now apply elem_of_healthyEndpoints in He|].
  intros t'.
  assert (Hex : forall e, e ∈ healthyEndpoints name t' -> address e <> addr).
  { intros e He Haddr. apply elem_of_healthyEndpoints in He as [Hin Hh].
    subst t'. unfold markEndpointUnhealthy in Hin.
    rewrite listEndpoints_mark in Hin.
    apply list_elem_of_fmap in Hin as (e0 & -> & _).
    rewrite set_health_address in Haddr.
    rewrite (set_health_at false addr e0 Haddr) in Hh. discriminate. }
  split; [|split; [|split; [|split]]].
  - unfold resolveA. intros Hin.
    apply list_elem_of_fmap in Hin as (e & Ha & He). symmetry in Ha.
    exact (Hex e He Ha).
  - intros p w. unfold resolveSRV. intros Hin.
    apply list_elem_of_fmap in Hin as (e & Ha & He).
    injection Ha as Ha _ _. symmetry in Ha. exact (Hex e He Ha).
  - intros s e He. now apply Hex, resolveWithLoadBalancing_elem with s.
  - intros e He. apply Hex. now apply resolveLeader_elem in He as [He _].
  - subst t'. unfold markEndpointUnhealthy. rewrite listEndpoints_mark.
    rewrite <- list_fmap_compose. apply list_fmap_ext.
    intros i e _. simpl. apply set_health_address.
Qed.

(** *** Leader resolution *)

Lemma resolveLeader_only_NoLeaderError name (t : Table) err :
  resolveLeader name t = inl err -> err = NoLeaderError.
Proof.
  unfold resolveLeader.
  destruct (t !! name) as [r|]; [|congruence].
  destruct (leaderAddress r) as [a|]; [|congruence].
  destruct (find _ _); congruence.
Qed.

(** What the resolver as modelled returns: a healthy endpoint of the
    record at the address in its leader-resolution record whenever there is
    one, and NoLeaderError otherwise. *)
Lemma resolveLeader_cases name (t : Table) :
  (forall e, resolveLeader name t = inr e ->
     exists r, t !! name = Some r /\ leaderAddress r = Some (address e)
               /\ e ∈ endpoints r /\ healthy e = true)
  /\ (forall err, resolveLeader name t = inl err -> err = NoLeaderError)
  /\ (resolveLeader name t = inl NoLeaderError
      <-> ~ exists r e, t !! name = Some r /\ leaderAddress r = Some (address e)
                        /\ e ∈ endpoints r /\ healthy e = true).
Proof.
  split; [|split; [apply resolveLeader_only_NoLeaderError|]].
  - intros e He. apply resolveLeader_elem in He as (Hin & r & Hr & Ha).
    apply elem_of_healthyEndpoints in Hin as [Hin Hh].
    exists r. unfold listEndpoints in Hin. rewrite Hr in Hin. auto.
  - split.
    + intros Herr (r & e & Hr & Ha & Hin & Hh).
      unfold resolveLeader in Herr. rewrite Hr, Ha in Herr.
      destruct (find _ _) as [e'|] eqn:Hf; [discriminate|].
      assert (Hhe : e ∈ healthyEndpoints name t).
      { apply elem_of_healthyEndpoints. unfold listEndpoints. rewrite Hr. auto. }
      apply list_elem_of_In in Hhe.
      pose proof (find_none _ _ Hf e Hhe) as Hne. simpl in Hne.
      rewrite String.eqb_refl in Hne. discriminate.
    + intros Hnone.
      destruct (resolveLeader name t) as [err|e] eqn:Hres.
      * f_equal. now apply (resolveLeader_only_NoLeaderError name t).
      * exfalso. apply Hnone.
        apply resolveLeader_elem in Hres as (Hin & r & Hr & Ha).
        apply elem_of_healthyEndpoints in Hin as [Hin Hh].
        exists r, e. unfold listEndpoints in Hin. rewrite Hr in Hin. auto.
Qed.

End ServiceDiscoveryFacts.

Section StatefulProvisionerFacts.
Import NodeRegistry ServiceDiscovery StatefulProvisioner.

Variable availableCapacity : Node -> N.

Abbreviation deploy := (deploy availableCapacity).
Abbreviation selectNodes := (selectNodes availableCapacity).
Abbreviation step := (step availableCapacity).
Abbreviation apply := (apply availableCapacity).
Abbreviation run := (run availableCapacity).
Abbreviation reachable := (reachable availableCapacity).

Lemma leaderCount_app l1 l2 : leaderCount (l1 ++ l2) = (leaderCount l1 + leaderCount l2)%nat.
Proof. unfold leaderCount. now rewrite filter_app, length_app. Qed.

Lemma leaderCount_cons r l :
  leaderCount (r :: l)
  = ((if decide (is_leader r) then 1 else 0) + leaderCount l)%nat.
Proof. unfold leaderCount. rewrite filter_cons. now destruct (decide (is_leader r)). Qed.

Lemma leaderCount_followers {A} (f : A -> StatefulReplica) l :
  (forall a, role (f a) = replica) -> leaderCount (f <$> l) = 0%nat.
Proof.
  intros Hf. induction l as [|a l IH]; [reflexivity|].
  rewrite fmap_cons, leaderCount_cons, IH.
  destruct (decide (is_leader (f a))) as [Hl|_]; [|reflexivity].
  unfold is_leader in Hl. rewrite Hf in Hl. discriminate.
Qed.

Lemma leaderCount_take n l : (leaderCount (take n l) <= leaderCount l)%nat.
Proof.
  rewrite <- (take_drop n l) at 2. rewrite leaderCount_app. lia.
Qed.

Lemma leaderCount_removalOrder l : leaderCount (removalOrder l) = leaderCount l.
Proof.
  unfold removalOrder. rewrite leaderCount_app.
  assert (H0 : leaderCount (filter (fun r => ~ is_leader r) l) = 0%nat).
  { induction l as [|r l IH]; [reflexivity|]. rewrite filter_cons.
    destruct (decide (~ is_leader r)) as [Hn|_]; [|exact IH].
    rewrite leaderCount_cons, IH. now destruct (decide (is_leader r)). }
  rewrite H0. unfold leaderCount at 1.
  rewrite list_filter_filter.
  rewrite Nat.add_0_r. unfold leaderCount. f_equal.
  apply list_filter_iff. tauto.
Qed.

Lemma leaderCount_orphanOn id l : leaderCount (orphanOn id <$> l) = leaderCount l.
Proof.
  induction l as [|r l IH]; [reflexivity|].
  rewrite fmap_cons, !leaderCount_cons, IH.
  assert (Hrole : role (orphanOn id r) = role r).
  { unfold orphanOn. now destruct (replica_nodeId r =? id)%N. }
  destruct (decide (is_leader (orphanOn id r))) as [H1|H1];
    destruct (decide (is_leader r)) as [H2|H2]; try reflexivity;
    unfold is_leader in *; rewrite Hrole in H1; contradiction.
Qed.

Lemma leaderCount_promoteFirst id l :
  (leaderCount (promoteFirst id l) <= S (leaderCount l))%nat.
Proof.
  induction l as [|r l IH]; simpl; [unfold leaderCount; simpl; lia|].
  destruct (replica_nodeId r =? id)%N.
  - rewrite !leaderCount_cons.
    destruct (decide (is_leader (with_role leader r)));
      destruct (decide (is_leader r)); lia.
  - rewrite !leaderCount_cons. lia.
Qed.

Lemma leaderCount_assignRoles sid selected :
  leaderCount (assignRoles sid selected)
  = match selected with [] => 0%nat | _ :: _ => 1%nat end.
Proof.
  destruct selected as [|first rest]; [reflexivity|].
  unfold assignRoles. rewrite leaderCount_cons.
  rewrite leaderCount_followers by reflexivity.
  now destruct (decide (is_leader (replicaOn sid leader first))) as [|Hn];
    [|exfalso; apply Hn].
Qed.

Lemma length_assignRoles sid selected :
  length (assignRoles sid selected) = length selected.
Proof.
  destruct selected; [reflexivity|]. simpl. now rewrite length_fmap.
Qed.

Lemma length_selectNodes n candidates :
  (n <= length candidates)%nat -> length (selectNodes n candidates) = n.
Proof.
  intros Hn. unfold StatefulProvisioner.selectNodes.
  rewrite length_take, (Permutation_length (merge_sort_Permutation _ _)). lia.
Qed.

(** What a successful deploy built. *)
Lemma deploy_inr cfg now sys svc sys' :
  deploy cfg now sys = inr (svc, sys') ->
  let candidates := listByCapability (requiredCapability cfg) (registry sys) in
  (replicaCount cfg <= length candidates)%nat
  /\ svc = mkService cfg (assignRoles (name cfg)
                            (selectNodes (replicaCount cfg) candidates))
  /\ sys' = mkSystem (registry sys) (<[name cfg := svc]> (services sys))
              (registerService (name cfg)
                 (mkRecord "stateful" (endpointOf cfg now <$> replicas svc) []
                           (leaderAddressOf (replicas svc)))
                 (dns sys)).
Proof.
  intros H. cbv zeta. unfold StatefulProvisioner.deploy in H.
  destruct (Nat.ltb_spec
              (length (listByCapability (requiredCapability cfg) (registry sys)))
              (replicaCount cfg)) as [|Hle]; [discriminate|].
  injection H as <- <-. auto.
Qed.

Lemma assignRoles_healthy sid selected r :
  r ∈ assignRoles sid selected -> replica_healthy r = true.
Proof.
  destruct selected as [|first rest]; simpl; [intros H; now apply elem_of_nil in H|].
  intros [->|Hin]%elem_of_cons; [reflexivity|].
  apply list_elem_of_fmap in Hin as (kv & -> & _). reflexivity.
Qed.

Lemma filter_all {A} (P : A -> Prop) `{forall x, Decision (P x)} (l : list A) :
  (forall x, x ∈ l -> P x) -> filter P l = l.
Proof.
  induction l as [|x l IH]; intros Hall; [reflexivity|].
  rewrite filter_cons. destruct (decide (P x)) as [|Hn].
  - f_equal. apply IH. intros y Hy. apply Hall. now right.
  - exfalso. apply Hn, Hall. left.
Qed.

(** C6. After a successful deploy the service's record holds one endpoint
    per replica, in replica order, each at its replica's address, and
    [resolveSRV] on the service's name returns exactly these endpoints'
    address, port and weight. *)
Theorem deploy_resolveSRV_roundtrip cfg now sys svc sys' :
  deploy cfg now sys = inr (svc, sys') ->
  services sys' !! name cfg = Some svc
  /\ length (replicas svc) = replicaCount cfg
  /\ listEndpoints (name cfg) (dns sys') = endpointOf cfg now <$> replicas svc
  /\ Forall2 (fun r e => address e = replica_address r)
             (replicas svc) (listEndpoints (name cfg) (dns sys'))
  /\ resolveSRV (name cfg) (dns sys')
     = (fun e => (address e, port e, weight e))
         <$> (endpointOf cfg now <$> replicas svc)
  /\ resolveSRV (name cfg) (dns sys')
     = (fun r => (replica_address r, servicePort cfg, defaultWeight)) <$> replicas svc.
Proof.
  intros Hd. destruct (deploy_inr _ _ _ _ _ Hd) as (Hlen & Hsvc & ->).
  assert (Hlist : listEndpoints (name cfg)
                    (registerService (name cfg)
                       (mkRecord "stateful" (endpointOf cfg now <$> replicas svc) []
                          (leaderAddressOf (replicas svc))) (dns sys))
                  = endpointOf cfg now <$> replicas svc).
  { unfold listEndpoints, registerService. now rewrite lookup_insert_eq. }
  assert (Hhealthy : healthyEndpoints (name cfg)
                       (registerService (name cfg)
                          (mkRecord "stateful" (endpointOf cfg now <$> replicas svc) []
                             (leaderAddressOf (replicas svc))) (dns sys))
                     = endpointOf cfg now <$> replicas svc).
  { unfold healthyEndpoints. rewrite Hlist. apply filter_all.
    intros e (r & -> & Hr)%list_elem_of_fmap. simpl.
    rewrite Hsvc in Hr. simpl in Hr. now apply assignRoles_healthy in Hr. }
  simpl. split; [apply lookup_insert_eq|].
  split; [rewrite Hsvc; simpl; now rewrite length_assignRoles, length_selectNodes|].
  split; [exact Hlist|].
  split.
  { rewrite Hlist. apply Forall2_fmap_r, Forall_Forall2_diag, Forall_forall.
    reflexivity. }
  unfold resolveSRV. rewrite Hhealthy.
  split; [reflexivity|].
  rewrite <- list_fmap_compose. reflexivity.
Qed.

(** *** At most one leader *)

Lemma single_leader_inv_insert sys sid svc reg t :
  single_leader_inv sys -> (leaderCount (replicas svc) <= 1)%nat ->
  single_leader_inv (mkSystem reg (<[sid := svc]> (services sys)) t).
Proof.
  intros Hinv Hsvc sid' svc'. simpl. rewrite lookup_insert.
  destruct (decide (sid = sid')) as [->|Hne]; simpl.
  - intros [= <-]. exact Hsvc.
  - apply Hinv.
Qed.

Lemma leaderCount_demoted l : leaderCount (with_role replica <$> l) = 0%nat.
Proof. now apply leaderCount_followers. Qed.

Lemma deploy_single_leader cfg now sys svc sys' :
  deploy cfg now sys = inr (svc, sys') ->
  (leaderCount (replicas svc) <= 1)%nat
  /\ ((1 <= replicaCount cfg)%nat -> leaderCount (replicas svc) = 1%nat).
Proof.
  intros Hd. destruct (deploy_inr _ _ _ _ _ Hd) as (Hlen & -> & _). simpl.
  rewrite leaderCount_assignRoles.
  pose proof (length_selectNodes _ _ Hlen) as Hsel.
  destruct (selectNodes _ _) as [|first rest]; simpl in Hsel; split; lia.
Qed.

Lemma step_single_leader op sys sys' :
  step op sys = inr sys' -> single_leader_inv sys -> single_leader_inv sys'.
Proof.
  intros Hstep Hinv. destruct op; simpl in Hstep.
  - destruct (registerNode d now (registry sys)) as [e|[id r]]; [discriminate|].
    injection Hstep as <-. exact Hinv.
  - destruct (heartbeat id now (registry sys)) as [e|r]; [discriminate|].
    injection Hstep as <-. exact Hinv.
  - injection Hstep as <-. intros sid svc. simpl. rewrite lookup_fmap.
    destruct (services sys !! sid) as [svc0|] eqn:Hs; simpl; [|discriminate].
    intros [= <-]. simpl. rewrite leaderCount_orphanOn. eapply Hinv, Hs.
  - injection Hstep as <-. exact Hinv.
  - destruct (deploy cfg now sys) as [e|[svc s']] eqn:Hd; [discriminate|].
    injection Hstep as <-.
    destruct (deploy_single_leader _ _ _ _ _ Hd) as [Hle _].
    destruct (deploy_inr _ _ _ _ _ Hd) as (_ & _ & ->).
    now apply single_leader_inv_insert.
  - unfold scale in Hstep.
    destruct (services sys !! sid) as [svc|] eqn:Hs; [|discriminate].
    pose proof (Hinv _ _ Hs) as Hsvc.
    destruct (length (replicas svc) <? newCount)%nat.
    + destruct (_ <? _)%nat; [discriminate|].
      injection Hstep as <-. apply single_leader_inv_insert; [exact Hinv|].
      simpl. rewrite leaderCount_app, leaderCount_followers by reflexivity. lia.
    + injection Hstep as <-. apply single_leader_inv_insert; [exact Hinv|].
      simpl. etransitivity; [apply leaderCount_take|].
      now rewrite leaderCount_removalOrder.
  - unfold terminate in Hstep.
    destruct (services sys !! sid) as [svc|]; [|discriminate].
    injection Hstep as <-. intros sid' svc'. simpl.
    rewrite lookup_delete_Some. intros [_ Hs]. eapply Hinv, Hs.
  - unfold failover in Hstep.
    destruct (services sys !! sid) as [svc|] eqn:Hs; [|discriminate].
    destruct (match find _ (replicas svc) with Some _ => _ | None => _ end).
    + injection Hstep as <-. exact Hinv.
    + injection Hstep as <-. apply single_leader_inv_insert; [exact Hinv|].
      simpl. destruct (lowestNodeId _) as [c|].
      * etransitivity; [apply leaderCount_promoteFirst|].
        rewrite leaderCount_demoted. lia.
      * rewrite leaderCount_demoted. lia.
  - injection Hstep as <-. exact Hinv.
  - injection Hstep as <-. exact Hinv.
Qed.

Lemma reachable_single_leader sys : reachable sys -> single_leader_inv sys.
Proof.
  intros [ops <-]. induction ops as [|op ops IH] using rev_ind.
  - intros sid svc. simpl. rewrite lookup_empty. discriminate.
  - unfold StatefulProvisioner.run. rewrite foldl_app. simpl.
    fold (run ops). unfold StatefulProvisioner.apply.
    destruct (step op (run ops)) as [e|sys'] eqn:Hstep; [exact IH|].
    eapply step_single_leader; eauto.
Qed.

(** *** Losing and regaining the leader *)

Lemma leader_elem_count l r : r ∈ l -> is_leader r -> (1 <= leaderCount l)%nat.
Proof.
  intros Hin Hl. unfold leaderCount.
  assert (Hf : r ∈ filter is_leader l) by now apply list_elem_of_filter.
  destruct (filter is_leader l); [now apply elem_of_nil in Hf | simpl; lia].
Qed.

Lemma leader_unique l a b :
  (leaderCount l <= 1)%nat -> a ∈ l -> is_leader a -> b ∈ l -> is_leader b -> a = b.
Proof.
  unfold leaderCount. intros Hle Ha Hla Hb Hlb.
  assert (Hfa : a ∈ filter is_leader l) by now apply list_elem_of_filter.
  assert (Hfb : b ∈ filter is_leader l) by now apply list_elem_of_filter.
  destruct (filter is_leader l) as [|x [|y rest]]; simpl in Hle; [|..|lia].
  - now apply elem_of_nil in Hfa.
  - apply list_elem_of_singleton in Hfa, Hfb. congruence.
Qed.

Lemma find_leader_Some l l0 :
  find (fun r => bool_decide (is_leader r)) l = Some l0 -> l0 ∈ l /\ is_leader l0.
Proof.
  intros Hf. apply find_some in Hf as [Hin Hl].
  split; [now apply list_elem_of_In | now apply bool_decide_eq_true in Hl].
Qed.

Lemma find_leader_None l r :
  find (fun r => bool_decide (is_leader r)) l = None -> r ∈ l -> ~ is_leader r.
Proof.
  intros Hf Hin Hl. apply list_elem_of_In in Hin.
  pose proof (find_none _ _ Hf r Hin) as Hr. simpl in Hr.
  now apply bool_decide_eq_false in Hr.
Qed.

Lemma lowestNodeId_elem l c : lowestNodeId l = Some c -> c ∈ l.
Proof.
  revert c. induction l as [|r l IH]; intros c; simpl; [discriminate|].
  destruct (lowestNodeId l) as [b|].
  - destruct (replica_nodeId b <? replica_nodeId r)%N; intros [= <-];
      [right; now apply IH | left].
  - intros [= <-]. left.
Qed.

Lemma lowestNodeId_None l : lowestNodeId l = None -> l = [].
Proof.
  destruct l as [|r l]; [reflexivity|]. simpl.
  destruct (lowestNodeId l) as [b|]; [|discriminate].
  destruct (replica_nodeId b <? replica_nodeId r)%N; discriminate.
Qed.

(** Promotion gives the leader role to a replica on the chosen node. *)
Lemma promoteFirst_one id l :
  leaderCount l = 0%nat ->
  (exists r, r ∈ l /\ replica_nodeId r = id) ->
  leaderCount (promoteFirst id l) = 1%nat
  /\ exists p, p ∈ promoteFirst id l /\ is_leader p /\ replica_nodeId p = id.
Proof.
  induction l as [|r l IH]; intros Hzero (r0 & Hin & Hid);
    [now apply elem_of_nil in Hin|].
  rewrite leaderCount_cons in Hzero. simpl.
  destruct (N.eqb_spec (replica_nodeId r) id) as [Heq|Hne].
  - split.
    + rewrite leaderCount_cons.
      destruct (decide (is_leader (with_role leader r))) as [_|Hn];
        [lia | exfalso; now apply Hn].
    + exists (with_role leader r). split; [left|]. split; [reflexivity | exact Heq].
  - apply elem_of_cons in Hin as [->|Hin]; [contradiction|].
    destruct IH as (Hone & p & Hp & Hlp & Hidp); [lia | eauto |].
    split.
    + rewrite leaderCount_cons. destruct (decide (is_leader r)); lia.
    + exists p. split; [now right | auto].
Qed.

Lemma demoted_elem r (l : list StatefulReplica) :
  r ∈ l -> exists d, d ∈ with_role replica <$> l /\ replica_nodeId d = replica_nodeId r.
Proof.
  intros Hin. exists (with_role replica r). split; [|reflexivity].
  apply list_elem_of_fmap. eauto.
Qed.

(** A failover leaves the service without a leader only when none of its
    replicas sits on a healthy node; otherwise it leaves exactly one leader,
    on a healthy node. *)
Lemma failover_outcome sys sid svc sys' :
  (leaderCount (replicas svc) <= 1)%nat ->
  services sys !! sid = Some svc ->
  failover sid sys = inr sys' ->
  exists svc',
    services sys' !! sid = Some svc'
    /\ ((leaderCount (replicas svc') = 1%nat
         /\ exists l, l ∈ replicas svc' /\ is_leader l
                      /\ nodeHealthy (registry sys) (replica_nodeId l) = true)
        \/ (leaderCount (replicas svc') = 0%nat
            /\ forall r, r ∈ replicas svc ->
                         nodeHealthy (registry sys) (replica_nodeId r) = false)).
Proof.
  intros Hle Hs Hf. unfold failover in Hf. rewrite Hs in Hf.
  destruct (find (fun r => bool_decide (is_leader r)) (replicas svc)) as [l0|] eqn:Hfind.
  - apply find_leader_Some in Hfind as [Hin0 Hl0].
    destruct (nodeHealthy (registry sys) (replica_nodeId l0)) eqn:Hok.
    + injection Hf as <-. exists svc. split; [exact Hs|]. left. split.
      * pose proof (leader_elem_count _ _ Hin0 Hl0). lia.
      * eauto.
    + injection Hf as <-. cbn [services]. rewrite lookup_insert_eq.
      eexists. split; [reflexivity|]. cbn [replicas].
      destruct (lowestNodeId _) as [c|] eqn:Hc.
      * left. apply lowestNodeId_elem in Hc.
        apply list_elem_of_filter in Hc as [[_ Hhealthy] Hinc].
        destruct (promoteFirst_one (replica_nodeId c) (with_role replica <$> replicas svc))
          as (Hone & p & Hp & Hlp & Hidp);
          [apply leaderCount_demoted | now apply demoted_elem |].
        split; [exact Hone|]. exists p. rewrite Hidp. auto.
      * right. split; [apply leaderCount_demoted|].
        apply lowestNodeId_None in Hc. intros r Hr.
        destruct (nodeHealthy (registry sys) (replica_nodeId r)) eqn:Hh; [|reflexivity].
        destruct (decide (is_leader r)) as [Hl|Hn].
        -- rewrite (leader_unique _ _ _ Hle Hr Hl Hin0 Hl0) in Hh. congruence.
        -- assert (Hsurv : r ∈ filter
                     (fun r => ~ is_leader r
                               /\ nodeHealthy (registry sys) (replica_nodeId r) = true)
                     (replicas svc)) by (apply list_elem_of_filter; auto).
           rewrite Hc in Hsurv. now apply elem_of_nil in Hsurv.
  - injection Hf as <-. cbn [services]. rewrite lookup_insert_eq.
    eexists. split; [reflexivity|]. cbn [replicas].
    destruct (lowestNodeId _) as [c|] eqn:Hc.
    + left. apply lowestNodeId_elem in Hc.
      apply list_elem_of_filter in Hc as [[_ Hhealthy] Hinc].
      destruct (promoteFirst_one (replica_nodeId c) (with_role replica <$> replicas svc))
        as (Hone & p & Hp & Hlp & Hidp);
        [apply leaderCount_demoted | now apply demoted_elem |].
      split; [exact Hone|]. exists p. rewrite Hidp. auto.
    + right. split; [apply leaderCount_demoted|].
      apply lowestNodeId_None in Hc. intros r Hr.
      destruct (nodeHealthy (registry sys) (replica_nodeId r)) eqn:Hh; [|reflexivity].
      assert (Hsurv : r ∈ filter
                (fun r => ~ is_leader r
                          /\ nodeHealthy (registry sys) (replica_nodeId r) = true)
                (replicas svc)).
      { apply list_elem_of_filter. split; [|exact Hr].
        split; [now apply (find_leader_None _ _ Hfind) | exact Hh]. }
      rewrite Hc in Hsurv. now apply elem_of_nil in Hsurv.
Qed.

Lemma failover_other sid0 sid sys sys' :
  sid0 <> sid -> failover sid0 sys = inr sys' ->
  services sys' !! sid = services sys !! sid.
Proof.
  intros Hne Hf. unfold failover in Hf.
  destruct (services sys !! sid0) as [svc0|]; [|discriminate].
  destruct (match find _ (replicas svc0) with Some _ => _ | None => _ end).
  - now injection Hf as <-.
  - injection Hf as <-. cbn [services]. now rewrite lookup_insert_ne.
Qed.

(** Cutting the removal order short keeps the leader as long as one replica
    is kept. *)
Lemma leaderCount_kept n l :
  leaderCount l = 1%nat -> leaderCount (take (S n) (removalOrder l)) = 1%nat.
Proof.
  intros Hone.
  pose proof (leaderCount_take (S n) (removalOrder l)) as Hle.
  rewrite leaderCount_removalOrder, Hone in Hle.
  unfold removalOrder in *. unfold leaderCount in Hone.
  destruct (filter is_leader l) as [|x rest] eqn:Hf; [discriminate|].
  assert (Hx : is_leader x).
  { assert (Hin : x ∈ filter is_leader l) by (rewrite Hf; left).
    now apply list_elem_of_filter in Hin as [Hx _]. }
  simpl in *. rewrite leaderCount_cons in *.
  destruct (decide (is_leader x)); [lia | contradiction].
Qed.

(** Which operations take a service from one leader to none. *)
Lemma step_loses_leader op sys sys' sid svc svc' :
  step op sys = inr sys' ->
  services sys !! sid = Some svc ->
  services sys' !! sid = Some svc' ->
  leaderCount (replicas svc) = 1%nat ->
  leaderCount (replicas svc') = 0%nat ->
  (exists now, op = OpScale sid 0 now)
  \/ (exists cfg now, op = OpDeploy cfg now /\ name cfg = sid
                      /\ replicaCount cfg = 0%nat)
  \/ (op = OpFailover sid
      /\ forall r, r ∈ replicas svc ->
                   nodeHealthy (registry sys) (replica_nodeId r) = false).
Proof.
  intros Hstep Hs Hs' Hone Hzero.
  assert (Hsame : services sys' !! sid = services sys !! sid -> False).
  { intros Heq. rewrite Heq, Hs in Hs'. injection Hs' as <-. lia. }
  destruct op as [d now|id now|id|now|cfg now|sid0 newCount now|sid0|sid0|n a|n a];
    simpl in Hstep.
  - destruct (registerNode d now (registry sys)) as [e|[id r]]; [discriminate|].
    injection Hstep as <-. now destruct Hsame.
  - destruct (heartbeat id now (registry sys)) as [e|r]; [discriminate|].
    injection Hstep as <-. now destruct Hsame.
  - injection Hstep as <-. simpl in Hs'. rewrite lookup_fmap, Hs in Hs'.
    injection Hs' as <-. simpl in Hzero. rewrite leaderCount_orphanOn in Hzero. lia.
  - injection Hstep as <-. now destruct Hsame.
  - destruct (deploy cfg now sys) as [e|[svc0 s']] eqn:Hd; [discriminate|].
    injection Hstep as <-.
    destruct (deploy_single_leader _ _ _ _ _ Hd) as [_ Hdep].
    destruct (deploy_inr _ _ _ _ _ Hd) as (_ & _ & ->). simpl in Hs'.
    destruct (decide (name cfg = sid)) as [Heq|Hne].
    + rewrite Heq, lookup_insert_eq in Hs'. injection Hs' as <-.
      right; left. exists cfg, now. repeat split; [exact Heq|].
      destruct (replicaCount cfg); [reflexivity | specialize (Hdep ltac:(lia)); lia].
    + rewrite lookup_insert_ne in Hs' by exact Hne.
      rewrite Hs in Hs'. injection Hs' as <-. lia.
  - unfold scale in Hstep.
    destruct (decide (sid0 = sid)) as [->|Hne].
    + rewrite Hs in Hstep.
      destruct (length (replicas svc) <? newCount)%nat.
      * destruct (_ <? _)%nat; [discriminate|].
        injection Hstep as <-. simpl in Hs'. rewrite lookup_insert_eq in Hs'.
        injection Hs' as <-. simpl in Hzero.
        rewrite leaderCount_app in Hzero. lia.
      * injection Hstep as <-. simpl in Hs'. rewrite lookup_insert_eq in Hs'.
        injection Hs' as <-. simpl in Hzero.
        destruct newCount as [|n]; [left; eauto|].
        rewrite (leaderCount_kept n _ Hone) in Hzero. discriminate.
    + destruct (services sys !! sid0) as [svc0|]; [|discriminate].
      destruct (length (replicas svc0) <? newCount)%nat;
        [destruct (_ <? _)%nat; [discriminate|]|];
        injection Hstep as <-; destruct Hsame; simpl; now rewrite lookup_insert_ne.
  - unfold terminate in Hstep.
    destruct (services sys !! sid0) as [svc0|]; [|discriminate].
    injection Hstep as <-. simpl in Hs'.
    apply lookup_delete_Some in Hs' as [_ Hs'].
    rewrite Hs in Hs'. injection Hs' as <-. lia.
  - destruct (decide (sid0 = sid)) as [->|Hne].
    + destruct (failover_outcome sys sid svc sys' ltac:(lia) Hs Hstep)
        as (svc1 & Hs1 & [[Hone1 _]|[_ Hall]]).
      * rewrite Hs1 in Hs'. injection Hs' as <-. lia.
      * right; right. auto.
    + destruct Hsame. now apply (failover_other sid0).
  - injection Hstep as <-. now destruct Hsame.
  - injection Hstep as <-. now destruct Hsame.
Qed.


End StatefulProvisionerFacts.

Section ScenarioFacts.
Import NodeRegistry ServiceDiscovery StatefulProvisioner Scenario.

(** Nodes A, B, C, three replicas: the SRV records are A, B, C. *)
Lemma deploy_resolveSRV_roundtrip_witness :
  exists svc sys',
    deploy storage_capacity db_config 5 three_nodes = inr (svc, sys')
    /\ resolveSRV "db.svc" (dns sys')
       = [("A", 5432, 1%N); ("B", 5432, 1%N); ("C", 5432, 1%N)].
Proof.
  destruct (deploy storage_capacity db_config 5 three_nodes) as [e|[svc sys']] eqn:Hd;
    [vm_compute in Hd; discriminate|].
  exists svc, sys'. split; [reflexivity|].
  destruct (deploy_resolveSRV_roundtrip storage_capacity db_config 5 three_nodes
              svc sys' Hd) as (_ & _ & _ & _ & _ & Hsrv).
  etransitivity; [exact Hsrv|].
  vm_compute in Hd. injection Hd as <- _. reflexivity.
Defined.



End ScenarioFacts.

(** * Further properties of the modelled code *)

Section EQLiteNodeServiceMore.
Import EQLiteNodeService Scenario.

Ltac eff :=
  unfold createDatabase, getActiveMiners, selectedMiners, tick, heartbeatCallback,
    clearInterval, send, dws_heartbeat, log, stopNode, set_nodeManager,
    startHeartbeatLoop,
    Eff.bind, Eff.try_catch, Eff.get, Eff.modify, Eff.await, Eff.ret, Eff.throw.

(** X1. When enough miners are active and both the transaction and its
    receipt resolve, [createDatabase] returns the database id, issues exactly
    one transaction (to the registry contract, carrying that id and the
    selected miners), writes its two console lines, and leaves every other
    field of the service alone. *)
Theorem createDatabase_success cfg env params w miners txHash :
  readActiveMiners env = Returned miners ->
  0 <= nodeCount params <= Z.of_nat (length miners) ->
  let dbid := databaseIdOf env (owner params) (now env) in
  let sel := take (Z.to_nat (nodeCount params)) miners in
  let tx := mkTx (account cfg) (eqliteRegistryAddress cfg) (CreateDatabaseCall dbid sel) in
  sendTransaction env tx = Returned txHash ->
  waitForTransactionReceipt env txHash = Returned tt ->
  createDatabase cfg env params w
  = (Returned dbid,
     mkWorld (nodeManager w) (dwsAgentId w) (txCalls w ++ [tx]) (dwsHeartbeatCalls w)
             (console w ++ [DatabaseCreated dbid] ++ [AssignedToMiners sel])
             (timers w) (nextTimer w)).
Proof.
  intros Hread Hn dbid sel tx Hsend Hwait. subst dbid sel tx. eff.
  rewrite Hread.
  destruct (Z.ltb_spec (Z.of_nat (length miners)) (nodeCount params)); [lia|].
  rewrite slice0_take by lia. simpl. rewrite Hsend. simpl. rewrite Hwait. simpl.
  now rewrite <- app_assoc.
Qed.

Lemma createDatabase_success_witness :
  createDatabase demo_cfg (demo_env (Returned [1%N; 2%N; 3%N]) (Returned 1%N) (Returned tt))
                 (mkParams 5%N 2 false) idle_world
  = (Returned 1700000000005%N,
     mkWorld None None
       [mkTx 7%N 9%N (CreateDatabaseCall 1700000000005%N [1%N; 2%N])] []
       [DatabaseCreated 1700000000005%N; AssignedToMiners [1%N; 2%N]] ∅ 0).
Proof.
  exact (createDatabase_success demo_cfg
           (demo_env (Returned [1%N; 2%N; 3%N]) (Returned 1%N) (Returned tt))
           (mkParams 5%N 2 false) idle_world [1%N; 2%N; 3%N] 1%N
           eq_refl ltac:(simpl; lia) eq_refl eq_refl).
Defined.

(** X2. An error from [createDatabase] does not mean nothing happened: when
    the transaction is accepted but waiting for its receipt rejects, the call
    throws that rejection after the transaction has been issued, and neither
    console line is written. *)
Theorem createDatabase_receipt_failure cfg env params w miners txHash e :
  readActiveMiners env = Returned miners ->
  0 <= nodeCount params <= Z.of_nat (length miners) ->
  let tx := mkTx (account cfg) (eqliteRegistryAddress cfg)
              (CreateDatabaseCall (databaseIdOf env (owner params) (now env))
                                  (take (Z.to_nat (nodeCount params)) miners)) in
  sendTransaction env tx = Returned txHash ->
  waitForTransactionReceipt env txHash = Thrown e ->
  (createDatabase cfg env params w).1 = Thrown e
  /\ txCalls (createDatabase cfg env params w).2 = (txCalls w ++ [tx])%list
  /\ console (createDatabase cfg env params w).2 = console w.
Proof.
  intros Hread Hn tx Hsend Hwait. subst tx. eff.
  rewrite Hread.
  destruct (Z.ltb_spec (Z.of_nat (length miners)) (nodeCount params)); [lia|].
  rewrite slice0_take by lia. simpl. rewrite Hsend. simpl. rewrite Hwait. simpl.
  auto.
Qed.

Lemma createDatabase_receipt_failure_witness :
  let env := mkEnv 0 (fun o _ => o) (Returned [1%N; 2%N]) (fun _ => Returned 8%N)
               (fun _ => Thrown (Rejected "timeout")) (fun _ => Returned tt) (Returned tt) in
  (createDatabase demo_cfg env (mkParams 5%N 1 false) idle_world).1
  = Thrown (Rejected "timeout")
  /\ txCalls (createDatabase demo_cfg env (mkParams 5%N 1 false) idle_world).2
     = [mkTx 7%N 9%N (CreateDatabaseCall 5%N [1%N])]
  /\ console (createDatabase demo_cfg env (mkParams 5%N 1 false) idle_world).2 = [].
Proof.
  intros env.
  exact (createDatabase_receipt_failure demo_cfg env (mkParams 5%N 1 false) idle_world
           [1%N; 2%N] 8%N (Rejected "timeout") eq_refl ltac:(simpl; lia) eq_refl eq_refl).
Defined.

(** X3. The capacity check only guards against asking for too many miners:
    a negative [nodeCount] passes it, and the call then behaves exactly like a
    request for all active miners but the last [-nodeCount] ones (for none
    when there are not that many). *)
Theorem createDatabase_negative_count cfg env params w miners :
  readActiveMiners env = Returned miners ->
  nodeCount params < 0 ->
  let kept := take (length miners - Z.to_nat (- nodeCount params)) miners in
  let tx := mkTx (account cfg) (eqliteRegistryAddress cfg)
              (CreateDatabaseCall (databaseIdOf env (owner params) (now env)) kept) in
  txCalls (createDatabase cfg env params w).2 = (txCalls w ++ [tx])%list
  /\ createDatabase cfg env params w
     = createDatabase cfg env
         (mkParams (owner params) (Z.max 0 (Z.of_nat (length miners) + nodeCount params))
                   (useEventualConsistency params)) w.
Proof.
  intros Hread Hneg kept tx.
  assert (Hsel : slice0 miners (nodeCount params) = kept).
  { subst kept. unfold slice0. destruct (Z.ltb_spec (nodeCount params) 0); [|lia].
    f_equal. lia. }
  assert (Hsel' : slice0 miners (Z.max 0 (Z.of_nat (length miners) + nodeCount params))
                  = kept).
  { subst kept. rewrite slice0_take by lia. f_equal. lia. }
  subst tx. eff. rewrite Hread. simpl.
  destruct (Z.ltb_spec (Z.of_nat (length miners)) (nodeCount params)); [lia|].
  destruct (Z.ltb_spec (Z.of_nat (length miners))
              (Z.max 0 (Z.of_nat (length miners) + nodeCount params))); [lia|].
  rewrite Hsel, Hsel'. split; [|reflexivity].
  destruct (sendTransaction env _) as [h|e]; simpl; [|reflexivity].
  destruct (waitForTransactionReceipt env h) as [[]|e]; reflexivity.
Qed.

(** Three active miners, [nodeCount] -1: the database gets the first two. *)
Lemma createDatabase_negative_count_witness :
  let env := demo_env (Returned [1%N; 2%N; 3%N]) (Returned 1%N) (Returned tt) in
  txCalls (createDatabase demo_cfg env (mkParams 5%N (-1) false) idle_world).2
  = [mkTx 7%N 9%N (CreateDatabaseCall 1700000000005%N [1%N; 2%N])]
  /\ createDatabase demo_cfg env (mkParams 5%N (-1) false) idle_world
     = createDatabase demo_cfg env (mkParams 5%N 2 false) idle_world.
Proof.
  intros env.
  exact (createDatabase_negative_count demo_cfg env (mkParams 5%N (-1) false) idle_world
           [1%N; 2%N; 3%N] eq_refl ltac:(simpl; lia)).
Defined.

Lemma tick_timers_preserved cfg env h w :
  timers (tick cfg env h w).2 = timers w \/ nodeManager w = None.
Proof.
  eff. simpl. destruct (timers w !! h) as [nodeId|]; [|now left].
  destruct (nodeManager w) as [st|]; [left|now right].
  destruct (status_is_running (st_status st)); simpl; [|reflexivity].
  destruct (sendTransaction env _) as [txh|e]; simpl;
    (destruct (dwsAgentId w) as [a|]; [|reflexivity]);
    (destruct (a =? 0)%N; [reflexivity|]); simpl;
    destruct (registryHeartbeat env a) as [[]|e']; reflexivity.
Qed.

Lemma tick_running_effects_aux cfg env h w nodeId st :
  timers w !! h = Some nodeId ->
  nodeManager w = Some st ->
  st_status st = RUNNING ->
  txCalls (tick cfg env h w).2
  = (txCalls w ++ [mkTx (account cfg) (eqliteRegistryAddress cfg)
                        (HeartbeatCall nodeId 0%N)])%list
  /\ dwsHeartbeatCalls (tick cfg env h w).2
     = match dwsAgentId w with
       | Some a => if (a =? 0)%N then dwsHeartbeatCalls w
                   else (dwsHeartbeatCalls w ++ [a])%list
       | None => dwsHeartbeatCalls w
       end.
Proof.
  intros Ht Hnm Hst. eff. simpl. rewrite Ht, Hnm, Hst. simpl.
  destruct (sendTransaction env _) as [txh|e]; simpl;
    (destruct (dwsAgentId w) as [a|] eqn:Ha; [|simpl; rewrite ?Ha; auto]);
    (destruct (a =? 0)%N; [simpl; rewrite ?Ha; auto|]); simpl;
    destruct (registryHeartbeat env a) as [[]|e']; simpl; rewrite ?Ha; auto.
Qed.

(** X4. While the node is RUNNING, one firing of the heartbeat timer issues
    exactly one registry transaction, a heartbeat for the captured node id
    with query count 0; it calls the DWS registry exactly when the agent id is
    set and not 0n -- also after the transaction was rejected -- and it never
    touches the timers. *)
Theorem tick_running_effects cfg env h w nodeId st :
  timers w !! h = Some nodeId ->
  nodeManager w = Some st ->
  st_status st = RUNNING ->
  let w' := (tick cfg env h w).2 in
  txCalls w' = (txCalls w ++ [mkTx (account cfg) (eqliteRegistryAddress cfg)
                                   (HeartbeatCall nodeId 0%N)])%list
  /\ dwsHeartbeatCalls w'
     = match dwsAgentId w with
       | Some a => if (a =? 0)%N then dwsHeartbeatCalls w
                   else (dwsHeartbeatCalls w ++ [a])%list
       | None => dwsHeartbeatCalls w
       end
  /\ timers w' = timers w
  /\ nextTimer w' = nextTimer w
  /\ dwsAgentId w' = dwsAgentId w.
Proof.
  intros Ht Hnm Hst. eff. simpl. rewrite Ht, Hnm, Hst. simpl.
  destruct (sendTransaction env _) as [txh|e]; simpl;
    (destruct (dwsAgentId w) as [a|] eqn:Ha; [|simpl; rewrite ?Ha; auto]);
    (destruct (a =? 0)%N; [simpl; rewrite ?Ha; auto|]); simpl;
    destruct (registryHeartbeat env a) as [[]|e']; simpl; rewrite ?Ha; auto.
Qed.

(** The wallet rejects, agent id 5: the registry heartbeat is sent all the
    same. *)
Lemma tick_running_effects_witness :
  let env := demo_env (Returned []) (Thrown (Rejected "rpc down")) (Returned tt) in
  txCalls (tick demo_cfg env 0 running_world).2 = [mkTx 7%N 9%N (HeartbeatCall 77%N 0%N)]
  /\ dwsHeartbeatCalls (tick demo_cfg env 0 running_world).2 = [5%N].
Proof.
  intros env.
  destruct (tick_running_effects demo_cfg env 0 running_world 77%N
              (mkNodeState "a1b2c3d4e5f60718" RUNNING 0) eq_refl eq_refl eq_refl)
    as (Htx & Hdws & _).
  split; [exact Htx | exact Hdws].
Defined.

(** X5. [stopNode] without a node is a no-op; with a node whose [stop()]
    rejects it throws and the node manager stays set; with a node whose
    [stop()] resolves it clears the node manager and nothing else, and a
    second [stopNode] then changes nothing. *)
Theorem stopNode_cases env w :
  (nodeManager w = None -> stopNode env w = (Returned tt, w))
  /\ (forall e, is_Some (nodeManager w) -> managerStop env = Thrown e ->
        stopNode env w = (Thrown e, w))
  /\ (is_Some (nodeManager w) -> managerStop env = Returned tt ->
        stopNode env w
        = (Returned tt,
           mkWorld None (dwsAgentId w) (txCalls w) (dwsHeartbeatCalls w) (console w)
                   (timers w) (nextTimer w))
        /\ stopNode env (stopNode env w).2 = (Returned tt, (stopNode env w).2)).
Proof.
  split; [|split].
  - intros Hnm. eff. now rewrite Hnm.
  - intros e [st Hnm] Hstop. eff. now rewrite Hnm, Hstop.
  - intros [st Hnm] Hstop. eff. rewrite Hnm, Hstop. simpl. auto.
Qed.

(** X6. Once a firing has cleared its timer (the node manager was null), the
    timer never fires again: later firings of the same handle change
    nothing, even after a new node manager has been set. *)
Theorem cleared_timer_stays_silent cfg env env' h w nm :
  nodeManager w = None ->
  let w1 := (tick cfg env h w).2 in
  let w2 := mkWorld nm (dwsAgentId w1) (txCalls w1) (dwsHeartbeatCalls w1) (console w1)
                    (timers w1) (nextTimer w1) in
  timers w1 !! h = None
  /\ tick cfg env' h w2 = (Returned tt, w2).
Proof.
  intros Hnm w1 w2.
  assert (H1 : timers w1 !! h = None).
  { subst w1. eff. simpl. destruct (timers w !! h) as [nodeId|] eqn:Ht.
    - rewrite Hnm. simpl. apply lookup_delete_eq.
    - simpl. exact Ht. }
  split; [exact H1|].
  unfold tick, Eff.bind, Eff.get, Eff.ret. simpl.
  replace (timers w2) with (timers w1) by reflexivity. now rewrite H1.
Qed.

Lemma cleared_timer_stays_silent_witness :
  let env := demo_env (Returned []) (Returned 1%N) (Returned tt) in
  let stopped := (stopNode env running_world).2 in
  let w1 := (tick demo_cfg env 0 stopped).2 in
  let w2 := mkWorld (Some (mkNodeState "ffff" RUNNING 0)) (dwsAgentId w1) (txCalls w1)
                    (dwsHeartbeatCalls w1) (console w1) (timers w1) (nextTimer w1) in
  timers w1 !! 0%nat = None /\ tick demo_cfg env 0 w2 = (Returned tt, w2).
Proof.
  intros env stopped w1 w2.
  exact (cleared_timer_stays_silent demo_cfg env env 0 stopped
           (Some (mkNodeState "ffff" RUNNING 0)) eq_refl).
Defined.

End EQLiteNodeServiceMore.

Section EQLiteNodeLifecycleFacts.
Import EQLiteNodeService EQLiteNodeLifecycle LifecycleScenario.

Ltac life :=
  cbv beta iota zeta delta
    [startNode registerOnChain submitAttestationOnChain create_node
     send_registry dws_register set_manager set_dwsAgentId note lift
     set_nodeManager startHeartbeatLoop
     Eff.bind Eff.try_catch Eff.get Eff.modify Eff.await Eff.ret Eff.throw
     world managerDetail registryCalls dwsRegisterCalls createdNodes notes
     nodeManager dwsAgentId txCalls dwsHeartbeatCalls console timers nextTimer].

Ltac life_in H :=
  cbv beta iota zeta delta
    [startNode registerOnChain submitAttestationOnChain create_node
     send_registry dws_register set_manager set_dwsAgentId note lift
     set_nodeManager startHeartbeatLoop
     Eff.bind Eff.try_catch Eff.get Eff.modify Eff.await Eff.ret Eff.throw
     world managerDetail registryCalls dwsRegisterCalls createdNodes notes
     nodeManager dwsAgentId txCalls dwsHeartbeatCalls console timers nextTimer] in H.

(** X7. When every collaborator answers, [startNode] returns the node's
    info and leaves the service with the started manager, the agent id the
    DWS registry assigned, one new heartbeat timer for the registered node id,
    one registration transaction (followed by an attestation transaction
    exactly when the manager reports an attestation), one DWS registration
    and one created node; the heartbeat and createDatabase logs are
    untouched. *)
Theorem startNode_success cfg settings env params s created state h1 agent :
  let hash := nodeIdHashOf env (sp_role params) (now (base env)) in
  createEQLiteNode env (nodeConfigOf settings (shortIdOf env hash) params) = Returned created ->
  managerStart env = Returned state ->
  sendRegistryTransaction env (registrationTx cfg env params) = Returned h1 ->
  waitForTransactionReceipt (base env) h1 = Returned tt ->
  (forall report, md_attestation state.2 = Some report ->
     exists h2, sendRegistryTransaction env (attestationTx cfg env params report) = Returned h2
                /\ waitForTransactionReceipt (base env) h2 = Returned tt) ->
  dwsRegisterNode env (registrationOf settings params) = Returned agent ->
  exists s',
    startNode cfg settings env params s
    = (Returned (mkInfo (st_nodeId state.1) (sp_role params) (st_status state.1)
                        (endpointOf (sp_httpPort params)) (Some agent) (Some hash)
                        (st_databaseCount state.1)), s')
    /\ world s' = mkWorld (Some state.1) (Some agent) (txCalls (world s))
                    (dwsHeartbeatCalls (world s)) (console (world s))
                    (<[nextTimer (world s) := hash]> (timers (world s)))
                    (S (nextTimer (world s)))
    /\ managerDetail s' = Some state.2
    /\ registryCalls s'
       = (registryCalls s ++ registrationTx cfg env params ::
            match md_attestation state.2 with
            | Some report => [attestationTx cfg env params report]
            | None => []
            end)%list
    /\ dwsRegisterCalls s' = (dwsRegisterCalls s ++ [registrationOf settings params])%list
    /\ createdNodes s'
       = (createdNodes s ++ [nodeConfigOf settings (shortIdOf env hash) params])%list.
Proof.
  intros hash Hcreate Hstart Hreg Hrec Hatt Hdws. subst hash.
  unfold registrationTx in Hreg.
  destruct s as [[nm ag tx hb co tm nt] md rc dc cn no].
  life. rewrite Hcreate. life. rewrite Hstart. life. rewrite Hreg. life.
  rewrite Hrec. life.
  destruct (md_attestation state.2) as [report|] eqn:Hrep.
  - destruct (Hatt report eq_refl) as (h2 & Hsend2 & Hrec2).
    unfold attestationTx in Hsend2. life. rewrite Hsend2. life. rewrite Hrec2. life.
    rewrite Hdws. life. eexists. split; [reflexivity|]. life.
    rewrite <- !app_assoc. auto 10.
  - life. rewrite Hdws. life. eexists. split; [reflexivity|]. life. auto 10.
Qed.

Lemma startNode_success_witness :
  exists s',
    startNode Scenario.demo_cfg dev_settings (lifecycle_env (Returned 3%N))
              (miner_on_port (Some 5000)) fresh
    = (Returned (mkInfo "a1b2c3d4e5f60718" MINER RUNNING "http://localhost:5000"
                        (Some 5%N) (Some 1700000000001%N) 0), s')
    /\ timers (world s') !! 0%nat = Some 1700000000001%N
    /\ rn_capabilities <$> dwsRegisterCalls s' = [["eqlite-miner"; "storage"; "tee"]].
Proof.
  destruct (startNode_success Scenario.demo_cfg dev_settings (lifecycle_env (Returned 3%N))
              (miner_on_port (Some 5000)) fresh created_state running_state 3%N 5%N
              eq_refl eq_refl eq_refl eq_refl
              ltac:(intros report Hr; discriminate Hr) eq_refl)
    as (s' & Hrun & Hw & _ & _ & Hdws & _).
  exists s'. split; [exact Hrun|]. rewrite Hw, Hdws. split; reflexivity.
Defined.

(** X8. A [startNode] that throws, at whatever step, has started no
    heartbeat timer and has not changed the DWS agent id, and it has sent no
    heartbeat or createDatabase transaction. *)
Theorem startNode_failure_starts_no_loop cfg settings env params s e s' :
  startNode cfg settings env params s = (Thrown e, s') ->
  timers (world s') = timers (world s)
  /\ nextTimer (world s') = nextTimer (world s)
  /\ dwsAgentId (world s') = dwsAgentId (world s)
  /\ txCalls (world s') = txCalls (world s)
  /\ dwsHeartbeatCalls (world s') = dwsHeartbeatCalls (world s).
Proof.
  destruct s as [[nm ag tx hb co tm nt] md rc dc cn no]. intros Hrun.
  life_in Hrun. revert Hrun.
  destruct (createEQLiteNode env _) as [created|e0];
    [|intros [= _ <-]; simpl; auto].
  destruct (managerStart env) as [state|e0];
    [|intros [= _ <-]; simpl; auto].
  destruct (sendRegistryTransaction env _) as [h1|e0];
    [|intros [= _ <-]; simpl; auto].
  destruct (waitForTransactionReceipt (base env) h1) as [[]|e0];
    [|intros [= _ <-]; simpl; auto].
  destruct (md_attestation state.2) as [report|].
  - destruct (sendRegistryTransaction env _) as [h2|e0];
      [|intros [= _ <-]; simpl; auto].
    destruct (waitForTransactionReceipt (base env) h2) as [[]|e0];
      [|intros [= _ <-]; simpl; auto].
    destruct (dwsRegisterNode env _) as [agent|e0];
      [discriminate|intros [= _ <-]; simpl; auto].
  - destruct (dwsRegisterNode env _) as [agent|e0];
      [discriminate|intros [= _ <-]; simpl; auto].
Qed.

(** X9. When the node has been created and started but the on-chain
    registration is rejected, [startNode] throws that rejection and leaves the
    started node behind: the node manager stays set, while nothing has been
    registered with the DWS node registry. *)
Theorem startNode_onchain_rejection cfg settings env params s created state e :
  let hash := nodeIdHashOf env (sp_role params) (now (base env)) in
  createEQLiteNode env (nodeConfigOf settings (shortIdOf env hash) params) = Returned created ->
  managerStart env = Returned state ->
  sendRegistryTransaction env (registrationTx cfg env params) = Thrown e ->
  (startNode cfg settings env params s).1 = Thrown e
  /\ nodeManager (world (startNode cfg settings env params s).2) = Some state.1
  /\ registryCalls (startNode cfg settings env params s).2
     = (registryCalls s ++ [registrationTx cfg env params])%list
  /\ dwsRegisterCalls (startNode cfg settings env params s).2 = dwsRegisterCalls s.
Proof.
  intros hash Hcreate Hstart Hreg. subst hash.
  unfold registrationTx in Hreg |- *.
  destruct s as [[nm ag tx hb co tm nt] md rc dc cn no].
  life. rewrite Hcreate. life. rewrite Hstart. life. rewrite Hreg. life.
  simpl. auto.
Qed.

Lemma startNode_onchain_rejection_witness :
  let run := startNode Scenario.demo_cfg dev_settings
               (lifecycle_env (Thrown (Rejected "insufficient funds")))
               (miner_on_port None) fresh in
  run.1 = Thrown (Rejected "insufficient funds")
  /\ nodeManager (world run.2) = Some running_state.1
  /\ length (registryCalls run.2) = 1%nat
  /\ dwsRegisterCalls run.2 = [].
Proof.
  intros run.
  destruct (startNode_onchain_rejection Scenario.demo_cfg dev_settings
              (lifecycle_env (Thrown (Rejected "insufficient funds")))
              (miner_on_port None) fresh created_state running_state
              (Rejected "insufficient funds") eq_refl eq_refl eq_refl)
    as (Hout & Hnm & Hreg & Hdws).
  split; [exact Hout|]. split; [exact Hnm|].
  split; [subst run; rewrite Hreg; reflexivity | exact Hdws].
Defined.

Lemma startNode_failure_starts_no_loop_witness :
  let run := startNode Scenario.demo_cfg dev_settings
               (lifecycle_env (Thrown (Rejected "insufficient funds")))
               (miner_on_port None) fresh in
  timers (world run.2) = ∅ /\ dwsAgentId (world run.2) = None.
Proof.
  intros run.
  destruct (startNode_failure_starts_no_loop Scenario.demo_cfg dev_settings
              (lifecycle_env (Thrown (Rejected "insufficient funds")))
              (miner_on_port None) fresh (Rejected "insufficient funds") run.2
              ltac:(vm_compute; reflexivity))
    as (Ht & _ & Ha & _).
  split; [exact Ht | exact Ha].
Defined.

(** What the service looks like after any [startNode] that returned. *)
Lemma startNode_returned cfg settings env params s info s1 :
  startNode cfg settings env params s = (Returned info, s1) ->
  let hash := nodeIdHashOf env (sp_role params) (now (base env)) in
  exists state agent,
    world s1 = mkWorld (Some state.1) (Some agent) (txCalls (world s))
                 (dwsHeartbeatCalls (world s)) (console (world s))
                 (<[nextTimer (world s) := hash]> (timers (world s)))
                 (S (nextTimer (world s)))
    /\ managerDetail s1 = Some state.2
    /\ info = mkInfo (st_nodeId state.1) (sp_role params) (st_status state.1)
                (endpointOf (sp_httpPort params)) (Some agent) (Some hash)
                (st_databaseCount state.1)
    /\ registrationTx cfg env params ∈ registryCalls s1.
Proof.
  destruct s as [[nm ag tx hb co tm nt] md rc dc cn no].
  intros Hrun hash. subst hash. unfold registrationTx.
  life_in Hrun. revert Hrun.
  destruct (createEQLiteNode env _) as [created|e0]; [|discriminate].
  destruct (managerStart env) as [state|e0]; [|discriminate].
  destruct (sendRegistryTransaction env _) as [h1|e0]; [|discriminate].
  destruct (waitForTransactionReceipt (base env) h1) as [[]|e0]; [|discriminate].
  destruct (md_attestation state.2) as [report|].
  - destruct (sendRegistryTransaction env _) as [h2|e0]; [|discriminate].
    destruct (waitForTransactionReceipt (base env) h2) as [[]|e0]; [|discriminate].
    destruct (dwsRegisterNode env _) as [agent|e0]; [|discriminate].
    intros [= <- <-]. exists state, agent. simpl.
    repeat split. set_solver.
  - destruct (dwsRegisterNode env _) as [agent|e0]; [|discriminate].
    intros [= <- <-]. exists state, agent. simpl.
    repeat split. set_solver.
Qed.

(** X10. The heartbeat loop a successful [startNode] starts beats for the
    node it registered: with the manager RUNNING, the first firing of the new
    timer sends exactly one transaction, a heartbeat carrying the node id of
    the registration transaction and of the returned info, and then a DWS
    heartbeat for the agent id the registry assigned (unless that id is 0). *)
Theorem startNode_then_tick cfg settings env params s info s1 :
  startNode cfg settings env params s = (Returned info, s1) ->
  info_status info = RUNNING ->
  let hash := nodeIdHashOf env (sp_role params) (now (base env)) in
  let s2 := (tick cfg env (nextTimer (world s)) s1).2 in
  registrationTx cfg env params ∈ registryCalls s1
  /\ info_registryNodeId info = Some hash
  /\ txCalls (world s2)
     = (txCalls (world s) ++ [mkTx (account cfg) (eqliteRegistryAddress cfg)
                                   (HeartbeatCall hash 0%N)])%list
  /\ dwsHeartbeatCalls (world s2)
     = match info_dwsAgentId info with
       | Some a => if (a =? 0)%N then dwsHeartbeatCalls (world s)
                   else (dwsHeartbeatCalls (world s) ++ [a])%list
       | None => dwsHeartbeatCalls (world s)
       end.
Proof.
  intros Hrun Hstatus hash s2.
  destruct (startNode_returned _ _ _ _ _ _ _ Hrun) as (state & agent & Hw & _ & -> & Hin).
  simpl in Hstatus.
  split; [exact Hin|]. split; [reflexivity|].
  subst s2. unfold tick, lift.
  destruct (EQLiteNodeService.tick cfg (base env) (nextTimer (world s)) (world s1))
    as [o w2] eqn:Htick.
  assert (Hw2 : w2 = (EQLiteNodeService.tick cfg (base env) (nextTimer (world s))
                        (world s1)).2) by now rewrite Htick.
  simpl. rewrite Hw2.
  destruct (tick_running_effects_aux cfg (base env) (nextTimer (world s)) (world s1)
              hash state.1) as (Htx & Hdws).
  - rewrite Hw. simpl. apply lookup_insert_eq.
  - now rewrite Hw.
  - exact Hstatus.
  - rewrite Htx, Hdws, Hw. simpl. auto.
Qed.

Lemma startNode_then_tick_witness :
  let env := lifecycle_env (Returned 3%N) in
  let started := (startNode Scenario.demo_cfg dev_settings env (miner_on_port None) fresh).2 in
  let s2 := (tick Scenario.demo_cfg env 0 started).2 in
  txCalls (world s2) = [mkTx 7%N 9%N (HeartbeatCall 1700000000001%N 0%N)]
  /\ dwsHeartbeatCalls (world s2) = [5%N].
Proof.
  intros env started s2.
  destruct (startNode_then_tick Scenario.demo_cfg dev_settings env (miner_on_port None)
              fresh
              (mkInfo "a1b2c3d4e5f60718" MINER RUNNING "http://localhost:4662"
                      (Some 5%N) (Some 1700000000001%N) 0)
              started ltac:(vm_compute; reflexivity) eq_refl)
    as (_ & _ & Htx & Hdws).
  split; [exact Htx | exact Hdws].
Defined.

(** X11. [getNodeStatus] after a successful [startNode] reports the same
    node id, status, agent id and database count as [startNode] returned,
    but never the registry node id, and always the default endpoint
    http://localhost:4662: a node started on another HTTP port is reported
    at an endpoint different from the one [startNode] returned and
    registered. *)
Theorem getNodeStatus_after_startNode cfg settings env params s info s1 :
  startNode cfg settings env params s = (Returned info, s1) ->
  exists status,
    getNodeStatus s1 = Some status
    /\ info_nodeId status = info_nodeId info
    /\ info_status status = info_status info
    /\ info_dwsAgentId status = info_dwsAgentId info
    /\ info_databaseCount status = info_databaseCount info
    /\ info_registryNodeId status = None
    /\ info_endpoint status = "http://localhost:4662"
    /\ (forall p, sp_httpPort params = Some p -> p <> 4662 ->
          info_endpoint status <> info_endpoint info).
Proof.
  intros Hrun.
  destruct (startNode_returned _ _ _ _ _ _ _ Hrun) as (state & agent & Hw & Hd & -> & _).
  unfold getNodeStatus. rewrite Hw, Hd. simpl.
  eexists. split; [reflexivity|]. simpl. repeat (split; [reflexivity|]).
  intros p Hp Hne Heq. rewrite Hp in Heq. unfold endpointOf in Heq. simpl in Heq.
  change "http://localhost:4662" with ("http://localhost:" +:+ pretty 4662) in Heq.
  apply (inj (String.app "http://localhost:")) in Heq.
  apply (inj pretty) in Heq. congruence.
Qed.

Lemma getNodeStatus_after_startNode_witness :
  let env := lifecycle_env (Returned 3%N) in
  let run := startNode Scenario.demo_cfg dev_settings env (miner_on_port (Some 5000)) fresh in
  exists status,
    getNodeStatus run.2 = Some status
    /\ info_endpoint status = "http://localhost:4662"
    /\ info_endpoint status <> "http://localhost:5000".
Proof.
  intros env run.
  destruct (getNodeStatus_after_startNode Scenario.demo_cfg dev_settings env
              (miner_on_port (Some 5000)) fresh
              (mkInfo "a1b2c3d4e5f60718" MINER RUNNING "http://localhost:5000"
                      (Some 5%N) (Some 1700000000001%N) 0)
              run.2 ltac:(vm_compute; reflexivity))
    as (status & Hs & _ & _ & _ & _ & _ & Hep & Hne).
  exists status. split; [exact Hs|]. split; [exact Hep|].
  exact (Hne 5000 eq_refl ltac:(discriminate)).
Defined.

(** X12. Starting a node never stops an earlier heartbeat loop: a timer that
    was live before a successful [startNode] is still live after it, and
    since the node manager is set again, its next firing does not clear it
    either -- so after stop-then-start of a node the old loop keeps running
    beside the new one. *)
Theorem startNode_keeps_old_timer cfg settings env params s info s1 h nodeId :
  timers (world s) !! h = Some nodeId ->
  h <> nextTimer (world s) ->
  startNode cfg settings env params s = (Returned info, s1) ->
  timers (world s1) !! h = Some nodeId
  /\ is_Some (timers (world s1) !! nextTimer (world s))
  /\ timers (world (tick cfg env h s1).2) !! h = Some nodeId.
Proof.
  intros Hh Hne Hrun.
  destruct (startNode_returned _ _ _ _ _ _ _ Hrun) as (state & agent & Hw & _ & _ & _).
  assert (H1 : timers (world s1) !! h = Some nodeId).
  { rewrite Hw. simpl. now rewrite lookup_insert_ne. }
  split; [exact H1|]. split.
  { rewrite Hw. simpl. rewrite lookup_insert_eq. eauto. }
  unfold tick, lift.
  destruct (EQLiteNodeService.tick cfg (base env) h (world s1)) as [o w2] eqn:Htick.
  simpl.
  assert (Hw2 : w2 = (EQLiteNodeService.tick cfg (base env) h (world s1)).2)
    by now rewrite Htick.
  destruct (timers w2 !! h) as [n|] eqn:Hlook.
  - rewrite Hw2 in Hlook.
    pose proof (tick_timers_preserved cfg (base env) h (world s1)) as Hpres.
    destruct Hpres as [Heq|Hcl].
    + rewrite Heq in Hlook. congruence.
    + rewrite Hw in Hcl. simpl in Hcl. discriminate.
  - exfalso. rewrite Hw2 in Hlook.
    apply (tick_timer cfg (base env) h (world s1) nodeId H1) in Hlook.
    rewrite Hw in Hlook. discriminate.
Qed.

(** Start, stop, start again: both timers are live, and the first one
    survives its next firing. *)
Lemma startNode_keeps_old_timer_witness :
  let env := lifecycle_env (Returned 3%N) in
  let first := (startNode Scenario.demo_cfg dev_settings env (miner_on_port None) fresh).2 in
  let stopped := (stopNode env first).2 in
  let second := (startNode Scenario.demo_cfg dev_settings env (miner_on_port None) stopped).2 in
  nodeManager (world stopped) = None
  /\ timers (world second) !! 0%nat = Some 1700000000001%N
  /\ is_Some (timers (world second) !! 1%nat)
  /\ timers (world (tick Scenario.demo_cfg env 0 second).2) !! 0%nat
     = Some 1700000000001%N.
Proof.
  intros env first stopped second.
  split; [reflexivity|].
  exact (startNode_keeps_old_timer Scenario.demo_cfg dev_settings env (miner_on_port None)
           stopped
           (mkInfo "a1b2c3d4e5f60718" MINER RUNNING "http://localhost:4662"
                   (Some 5%N) (Some 1700000000001%N) 0)
           second 0%nat 1700000000001%N
           ltac:(vm_compute; reflexivity) ltac:(vm_compute; discriminate)
           ltac:(vm_compute; reflexivity)).
Defined.

End EQLiteNodeLifecycleFacts.
Section ChainDeploymentFacts.
Import ChainProvisioning ChainDeployment DeployScenario.

Ltac script :=
  cbv beta iota zeta delta
    [deployLocalNode deployOne exec sleep probe writeFile lift_dws
     Eff.bind Eff.try_catch Eff.get Eff.modify Eff.await Eff.ret Eff.throw
     posted docker sleeps forkChecks madeOutputDir files printed fst snd].

Ltac script_in H :=
  cbv beta iota zeta delta
    [deployLocalNode deployOne exec sleep probe writeFile lift_dws
     Eff.bind Eff.try_catch Eff.get Eff.modify Eff.await Eff.ret Eff.throw
     posted docker sleeps forkChecks madeOutputDir files printed fst snd] in H.

(** Case analysis on every answer of a collaborator, innermost first. *)
Ltac split_cases :=
  repeat match goal with
         | |- context [match ?x with _ => _ end] =>
             lazymatch x with
             | context [match _ with _ => _ end] => fail
             | _ => destruct x eqn:?; script
             end
         end.

(** X13. [deployDWSNode] posts at most one provisioning request, and it
    never returns a result without having posted one: a run that posted
    nothing threw, and a run for a chain without configuration throws
    "Unsupported chain" before anything else happens. *)
Theorem deployDWSNode_posts_at_most_once env chain networkMode network privateKey sent :
  let run := deployDWSNode env chain networkMode network privateKey sent in
  ((run.2 = sent /\ exists e, run.1 = Thrown e)
   \/ exists req, run.2 = (sent ++ [req])%list)
  /\ (lookupConfig chain networkMode = None ->
      run = (Thrown (UnsupportedChain chain), sent)).
Proof.
  unfold deployDWSNode, post, Eff.bind, Eff.await, Eff.throw, Eff.modify, Eff.ret.
  simpl. split.
  - destruct (lookupConfig chain networkMode) as [config|]; simpl; [|left; eauto].
    destruct (privateKeyToAccount env privateKey) as [account|e]; simpl; [|left; eauto].
    destruct (signMessage env _ _) as [signature|e]; simpl; [|left; eauto].
    right. eexists.
    destruct (fetch env _) as [resp|e]; simpl; [|reflexivity].
    destruct (ok resp); simpl.
    + destruct (json resp); reflexivity.
    + destruct (text resp); reflexivity.
  - intros ->. reflexivity.
Qed.

Lemma deployDWSNode_result_chain env chain networkMode network privateKey sent res :
  (deployDWSNode env chain networkMode network privateKey sent).1 = Returned res ->
  ChainProvisioning.chain res = chain.
Proof.
  unfold deployDWSNode, post, Eff.bind, Eff.await, Eff.throw, Eff.modify, Eff.ret.
  simpl.
  destruct (lookupConfig chain networkMode) as [config|]; simpl; [|discriminate].
  destruct (privateKeyToAccount env privateKey) as [account|e]; simpl; [|discriminate].
  destruct (signMessage env _ _) as [signature|e]; simpl; [|discriminate].
  destruct (fetch env _) as [resp|e]; simpl; [|discriminate].
  destruct (ok resp); simpl.
  - destruct (json resp) as [reply|e]; simpl; [|discriminate]. now intros [= <-].
  - destruct (text resp) as [body|e]; simpl; [|discriminate]. now intros [= <-].
Qed.

(** X14. Whatever [deployDWSNode] returns echoes the chain and network it
    was called with, has mode dws and the TEE flag of the chain's
    configuration; it carries a container id exactly when its status is not
    failed, and a failed result has empty endpoints. *)
Theorem deployDWSNode_result_shape env chain networkMode network privateKey sent res :
  (deployDWSNode env chain networkMode network privateKey sent).1 = Returned res ->
  exists config,
    lookupConfig chain networkMode = Some config
    /\ ChainProvisioning.chain res = chain
    /\ ChainProvisioning.network res = network
    /\ mode res = dws
    /\ tee res = teeRequired config
    /\ (status res = failed <-> containerId res = None)
    /\ (status res = failed -> endpoints_rpc res = "" /\ endpoints_ws res = "").
Proof.
  unfold deployDWSNode, post, Eff.bind, Eff.await, Eff.throw, Eff.modify, Eff.ret.
  simpl.
  destruct (lookupConfig chain networkMode) as [config|]; simpl; [|discriminate].
  destruct (privateKeyToAccount env privateKey) as [account|e]; simpl; [|discriminate].
  destruct (signMessage env _ _) as [signature|e]; simpl; [|discriminate].
  destruct (fetch env _) as [resp|e]; simpl; [|discriminate].
  destruct (ok resp); simpl.
  - destruct (json resp) as [reply|e]; simpl; [|discriminate].
    intros [= <-]. exists config. simpl. repeat (split; [reflexivity|]).
    destruct (String.eqb (reply_status reply) "running");
      (split; [split; discriminate | discriminate]).
  - destruct (text resp) as [body|e]; simpl; [|discriminate].
    intros [= <-]. exists config. simpl. repeat (split; [reflexivity|]). tauto.
Qed.

Lemma deployDWSNode_result_shape_witness :
  exists config,
    lookupConfig "ethereum" Mainnet = Some config
    /\ tee (mkResult mainnet "ethereum" dws None "" "" true failed) = teeRequired config.
Proof.
  destruct (deployDWSNode_result_shape (Scenario.provision_env Scenario.refused)
              "ethereum" Mainnet mainnet "0xkey" []
              (mkResult mainnet "ethereum" dws None "" "" true failed)
              ltac:(vm_compute; reflexivity))
    as (config & Hcfg & _ & _ & _ & Htee & _).
  exists config. split; [exact Hcfg | exact Htee].
Defined.

(** *** Local nodes *)

Lemma getLocalEndpoints_fixed chain config :
  let r := getLocalEndpoints chain config in
  ChainProvisioning.chain r = chain /\ ChainProvisioning.network r = localnet
  /\ mode r = local /\ tee r = false /\ status r = running /\ containerId r = None.
Proof.
  unfold getLocalEndpoints. simpl.
  destruct config as [c|].
  - destruct (truthy (evmChainId c)), (truthy (rpcPort c)), (String.eqb chain "solana");
      simpl; auto 10.
  - destruct (String.eqb chain "solana"); simpl; auto 10.
Qed.

(** [deployLocalNode] only ever touches the docker, sleep and probe logs. *)
Lemma deployLocalNode_frame env chain networkMode w :
  let w' := (deployLocalNode env chain networkMode w).2 in
  posted w' = posted w /\ files w' = files w /\ printed w' = printed w
  /\ madeOutputDir w' = madeOutputDir w.
Proof.
  destruct w as [po dk sl fc md fi pr]. script.
  destruct (lookupConfig chain networkMode) as [config|]; script; [|auto].
  split_cases; auto.
Qed.

Lemma deployLocalNode_reports_running_aux env chain networkMode w :
  forall res, (deployLocalNode env chain networkMode w).1 = Returned res ->
    exists config,
      lookupConfig chain networkMode = Some config
      /\ res = getLocalEndpoints chain (Some config)
      /\ status res = running /\ tee res = false.
Proof.
  intros res Hres. destruct w as [po dk sl fc md fi pr].
  destruct (lookupConfig chain networkMode) as [config|] eqn:Hcfg.
  2: { script_in Hres. rewrite Hcfg in Hres. discriminate. }
  exists config. split; [reflexivity|].
  assert (res = getLocalEndpoints chain (Some config)) as ->.
  { revert Hres. script. rewrite Hcfg. script.
    generalize (getLocalEndpoints chain (Some config)). intros loc.
    split_cases; congruence. }
  split; [reflexivity|]. split; apply getLocalEndpoints_fixed.
Qed.

(** X15. Whenever [deployLocalNode] returns, it returns the local endpoints
    of the chain's configuration with status running and no TEE -- whether a
    container was found, started, or (for a chain that is not Solana and whose
    configuration has no fork URL) nothing was started at all: in that last
    case no [docker run] is issued and the result still says running. *)
Theorem deployLocalNode_reports_running env chain networkMode w :
  (forall res, (deployLocalNode env chain networkMode w).1 = Returned res ->
     exists config,
       lookupConfig chain networkMode = Some config
       /\ res = getLocalEndpoints chain (Some config)
       /\ status res = running /\ tee res = false)
  /\ (forall config,
        lookupConfig chain networkMode = Some config ->
        chain <> "solana" ->
        truthy_string (forkUrl config) = None ->
        (deployLocalNode env chain networkMode w).1
        = Returned (getLocalEndpoints chain (Some config))
        /\ exists cmds,
             docker (deployLocalNode env chain networkMode w).2 = (docker w ++ cmds)%list
             /\ Forall (fun c => is_run c = false) cmds).
Proof.
  split.
  - apply deployLocalNode_reports_running_aux.
  - intros config Hcfg Hne Hfork. destruct w as [po dk sl fc md fi pr].
    apply String.eqb_neq in Hne.
    script. rewrite Hcfg. script. rewrite Hne, Hfork.
    generalize (getLocalEndpoints chain (Some config)). intros loc.
    split_cases;
      (split; [reflexivity|]);
      (eexists; split; [rewrite <- ?app_assoc; reflexivity|]);
      simpl; repeat constructor.
Qed.

(** Ethereum with its testnet configuration (no fork URL): two probes, no
    [docker run], and the result says running. *)
Lemma deployLocalNode_reports_running_witness :
  let run := deployLocalNode (script_env quiet_docker Scenario.refused) "ethereum" Testnet
               empty_script in
  run.1 = Returned (mkResult localnet "ethereum" local None "http://localhost:8545"
                             "ws://localhost:8546" false running)
  /\ docker run.2 = [PsRunning "jeju-ethereum-localnet"; PsAll "jeju-ethereum-localnet"].
Proof.
  intros run.
  destruct (proj2 (deployLocalNode_reports_running (script_env quiet_docker Scenario.refused)
                     "ethereum" Testnet empty_script)
              (ethereum_configs Testnet) ltac:(vm_compute; reflexivity)
              ltac:(discriminate) eq_refl) as (Hres & _).
  split; [exact Hres | reflexivity].
Defined.

(** X16. When the first probe finds the container already running,
    [deployLocalNode] issues no further docker command -- it neither removes
    nor starts anything, sleeps for nothing -- and returns the chain's local
    endpoints. *)
Theorem deployLocalNode_already_running env chain networkMode w config out :
  lookupConfig chain networkMode = Some config ->
  execSync env (PsRunning (containerNameOf chain)) = Returned out ->
  found out = true ->
  deployLocalNode env chain networkMode w
  = (Returned (getLocalEndpoints chain (Some config)),
     mkScript (posted w) (docker w ++ [PsRunning (containerNameOf chain)]) (sleeps w)
              (forkChecks w) (madeOutputDir w) (files w) (printed w)).
Proof.
  intros Hcfg Hps Hfound. destruct w as [po dk sl fc md fi pr].
  script. rewrite Hcfg. script. rewrite Hps. script. rewrite Hfound. reflexivity.
Qed.

Lemma deployLocalNode_already_running_witness :
  deployLocalNode (script_env busy_docker Scenario.refused) "solana" Devnet empty_script
  = (Returned (mkResult localnet "solana" local None "http://localhost:8899"
                        "ws://localhost:8900" false running),
     mkScript [] [PsRunning "jeju-solana-localnet"] [] [] false [] []).
Proof.
  exact (deployLocalNode_already_running (script_env busy_docker Scenario.refused)
           "solana" Devnet empty_script (solana_configs Devnet)
           ("3f2a9c1b7d4e" +:+ String (Ascii.ascii_of_nat 10) "")
           ltac:(vm_compute; reflexivity) eq_refl ltac:(vm_compute; reflexivity)).
Defined.

(** X17. [deployLocalNode] throws in two situations only: the chain has no
    configuration (then nothing was run), or the [docker run] command itself
    failed (then that command is the last one issued and its failure is what
    is thrown). Failing probes, a failing [docker rm] and a failing fork check
    never abort it. *)
Theorem deployLocalNode_throws_only_from_run env chain networkMode w e :
  (deployLocalNode env chain networkMode w).1 = Thrown e ->
  (lookupConfig chain networkMode = None /\ e = UnsupportedChain chain
   /\ (deployLocalNode env chain networkMode w).2 = w)
  \/ (exists c, last (docker (deployLocalNode env chain networkMode w).2) = Some c
                /\ is_run c = true /\ execSync env c = Thrown e).
Proof.
  destruct w as [po dk sl fc md fi pr].
  destruct (lookupConfig chain networkMode) as [config|] eqn:Hcfg.
  2: { script. rewrite Hcfg. script. intros [= <-]. left. auto. }
  intros Hthrown. right. revert Hthrown.
  script. rewrite Hcfg. script.
  split_cases; try discriminate;
    (intros [= <-]; eexists; rewrite last_snoc;
     split; [reflexivity|]; split; [reflexivity | eassumption]).
Qed.

Lemma deployLocalNode_throws_only_from_run_witness :
  let run := deployLocalNode (script_env broken_docker Scenario.refused) "base" Devnet
               empty_script in
  exists c, last (docker run.2) = Some c /\ is_run c = true
            /\ broken_docker c = Thrown (Rejected "docker: port is already allocated").
Proof.
  intros run.
  destruct (deployLocalNode_throws_only_from_run
              (script_env broken_docker Scenario.refused) "base" Devnet empty_script
              (Rejected "docker: port is already allocated")
              ltac:(vm_compute; reflexivity)) as [(Hcfg & _)|Hrun].
  - vm_compute in Hcfg. discriminate Hcfg.
  - exact Hrun.
Defined.

(** *** The main loop *)

Lemma summarize_total results :
  (runningCount (summarize results) + pendingCount (summarize results)
   + failedCount (summarize results))%nat = length results.
Proof.
  unfold summarize. simpl. induction results as [|r rs IH]; [reflexivity|].
  rewrite !filter_cons. simpl.
  destruct (status r) eqn:Hst;
    repeat match goal with
           | |- context [decide ?P] => destruct (decide P); try congruence
           end; simpl; lia.
Qed.

Lemma deployChain_spec env network privateKey chain w :
  let run := deployChain env network privateKey chain w in
  printed run.2 = printed w
  /\ madeOutputDir run.2 = madeOutputDir w
  /\ files run.2 = files w
  /\ (network = localnet -> posted run.2 = posted w)
  /\ (network <> localnet ->
      docker run.2 = docker w /\ sleeps run.2 = sleeps w /\ forkChecks run.2 = forkChecks w)
  /\ (forall res, run.1 = Returned res -> ChainProvisioning.chain res = chain).
Proof.
  cbv zeta. unfold deployChain.
  assert (Hdws : forall mode net key,
    let run := lift_dws (deployDWSNode (dwsApi env) chain mode net key) w in
    printed run.2 = printed w /\ madeOutputDir run.2 = madeOutputDir w
    /\ files run.2 = files w
    /\ docker run.2 = docker w /\ sleeps run.2 = sleeps w /\ forkChecks run.2 = forkChecks w
    /\ (forall res, run.1 = Returned res -> ChainProvisioning.chain res = chain)).
  { intros mode net key. cbv zeta. unfold lift_dws.
    pose proof (deployDWSNode_result_chain (dwsApi env) chain mode net key (posted w)) as Hc.
    destruct (deployDWSNode (dwsApi env) chain mode net key (posted w)) as [o p1].
    cbn [fst snd printed madeOutputDir files docker sleeps forkChecks] in *.
    repeat split; auto. }
  destruct network.
  - pose proof (deployLocalNode_frame env chain Devnet w) as Hf. cbv zeta in Hf.
    destruct Hf as (Hp & Hfi & Hpr & Hm).
    pose proof (deployLocalNode_reports_running_aux env chain Devnet w) as Hres.
    repeat split; auto; try congruence.
    intros res Hr. destruct (Hres res Hr) as (config & _ & -> & _).
    apply getLocalEndpoints_fixed.
  - cbv zeta. destruct (truthy_string privateKey) as [key|].
    + destruct (Hdws Testnet testnet key) as (? & ? & ? & ? & ? & ? & ?).
      repeat split; auto; congruence.
    + unfold Eff.ret. cbn [fst snd]. repeat split; auto; try congruence.
      intros res [= <-]. reflexivity.
  - cbv zeta. destruct (truthy_string privateKey) as [key|].
    + destruct (Hdws Mainnet mainnet key) as (? & ? & ? & ? & ? & ? & ?).
      repeat split; auto; congruence.
    + unfold Eff.ret. cbn [fst snd]. repeat split; auto; try congruence.
      intros res [= <-]. reflexivity.
Qed.

(** One round deploys, then writes the chain's file; a write that fails
    throws, and the deployment it followed stays done. *)
Lemma deployOne_unfold env network privateKey chain w :
  deployOne env network privateKey chain w
  = match deployChain env network privateKey chain w with
    | (Returned res, w1) =>
      match writeFileSync env (PerChain network chain res (isoNow env)) with
      | Returned _ =>
        (Returned res,
         mkScript (posted w1) (docker w1) (sleeps w1) (forkChecks w1) (madeOutputDir w1)
                  (files w1 ++ [PerChain network chain res (isoNow env)]) (printed w1))
      | Thrown e => (Thrown e, w1)
      end
    | (Thrown e, w1) => (Thrown e, w1)
    end.
Proof.
  unfold deployOne, writeFile, Eff.bind, Eff.await, Eff.modify, Eff.ret.
  destruct (deployChain env network privateKey chain w) as [[res|e] w1]; [|reflexivity].
  destruct (writeFileSync env _) as [[]|e]; reflexivity.
Qed.

Lemma deployOne_spec env network privateKey chain w :
  let run := deployOne env network privateKey chain w in
  printed run.2 = printed w
  /\ madeOutputDir run.2 = madeOutputDir w
  /\ (network = localnet -> posted run.2 = posted w)
  /\ (network <> localnet ->
      docker run.2 = docker w /\ sleeps run.2 = sleeps w /\ forkChecks run.2 = forkChecks w)
  /\ match run.1 with
     | Returned res =>
       ChainProvisioning.chain res = chain
       /\ files run.2 = (files w ++ [perChainFile env network res])%list
     | Thrown _ => files run.2 = files w
     end.
Proof.
  cbv zeta. rewrite deployOne_unfold.
  pose proof (deployChain_spec env network privateKey chain w) as H. cbv zeta in H.
  destruct (deployChain env network privateKey chain w) as [[res|e] w1];
    cbn [fst snd] in H; destruct H as (Hpr & Hm & Hfi & Hpo & Hdo & Hc).
  - specialize (Hc res eq_refl).
    destruct (writeFileSync env _) as [[]|e];
      cbn [fst snd posted docker sleeps forkChecks madeOutputDir files printed];
      unfold perChainFile; rewrite ?Hc, ?Hfi; auto 10.
  - cbn [fst snd]. auto 10.
Qed.

Lemma deployAll_spec env network privateKey chains :
  forall results w,
    let run := deployAll env network privateKey chains results w in
    printed run.2 = printed w
    /\ madeOutputDir run.2 = madeOutputDir w
    /\ (network = localnet -> posted run.2 = posted w)
    /\ (network <> localnet ->
        docker run.2 = docker w /\ sleeps run.2 = sleeps w
        /\ forkChecks run.2 = forkChecks w)
    /\ match run.1 with
       | Returned all =>
         exists new,
           all = (results ++ new)%list
           /\ ChainProvisioning.chain <$> new = chains
           /\ files run.2 = (files w ++ (perChainFile env network <$> new))%list
       | Thrown _ =>
         exists new,
           files run.2 = (files w ++ (perChainFile env network <$> new))%list
           /\ (ChainProvisioning.chain <$> new) `prefix_of` chains
           /\ (length new < length chains)%nat
       end.
Proof.
  induction chains as [|c rest IH]; intros results w; simpl.
  - unfold Eff.ret. simpl. repeat split; auto.
    exists []. rewrite !app_nil_r. auto.
  - unfold Eff.bind.
    pose proof (deployOne_spec env network privateKey c w) as H1. simpl in H1.
    destruct (deployOne env network privateKey c w) as [[res|e] w1]; simpl in *.
    + destruct H1 as (Hpr & Hm & Hpo & Hdo & Hc & Hf).
      specialize (IH (results ++ [res])%list w1). simpl in IH.
      destruct IH as (Hpr2 & Hm2 & Hpo2 & Hdo2 & Hrest).
      split; [congruence|]. split; [congruence|].
      split; [intros Hn; rewrite (Hpo2 Hn); auto|].
      split.
      { intros Hn. destruct (Hdo Hn) as (? & ? & ?).
        destruct (Hdo2 Hn) as (? & ? & ?). repeat split; congruence. }
      destruct (deployAll env network privateKey rest (results ++ [res]) w1).1.
      * destruct Hrest as (new & -> & Hch & Hfi).
        exists (res :: new). rewrite <- app_assoc.
        split; [reflexivity|]. split; [rewrite fmap_cons, Hc, Hch; reflexivity|].
        rewrite fmap_cons, Hfi, Hf, <- app_assoc. reflexivity.
      * destruct Hrest as (new & Hfi & Hpre & Hlen).
        exists (res :: new).
        split; [rewrite fmap_cons, Hfi, Hf, <- app_assoc; reflexivity|].
        split; [rewrite fmap_cons, Hc; now apply prefix_cons | simpl; lia].
    + destruct H1 as (Hpr & Hm & Hpo & Hdo & Hf).
      repeat split; auto; try (apply Hdo; assumption).
      exists []. simpl. rewrite app_nil_r.
      split; [exact Hf|]. split; [apply prefix_nil | lia].
Qed.

(** [main] creates the output directory when it is missing, runs the loop,
    writes the combined file and prints the summary; a failure to create the
    directory or to write the combined file is thrown. *)
Lemma main_unfold env network deployerKey key w :
  main env network deployerKey key w
  = match (if outputDirExists env then Returned tt else mkdirSync env) with
    | Thrown e => (Thrown e, w)
    | Returned _ =>
      match deployAll env network (privateKeyOf deployerKey key) ALL_CHAINS []
              (withOutputDir env w) with
      | (Returned results, w2) =>
        match writeFileSync env (Combined network (isoNow env) (byChain results)) with
        | Returned _ =>
          (Returned tt,
           mkScript (posted w2) (docker w2) (sleeps w2) (forkChecks w2) (madeOutputDir w2)
                    (files w2 ++ [Combined network (isoNow env) (byChain results)])
                    (printed w2 ++ [summarize results]))
        | Thrown e => (Thrown e, w2)
        end
      | (Thrown e, w2) => (Thrown e, w2)
      end
    end.
Proof.
  unfold main, ensureOutputDir, withOutputDir, writeFile,
    Eff.bind, Eff.await, Eff.modify, Eff.ret.
  destruct (outputDirExists env); [|destruct (mkdirSync env) as [[]|e0]; [|reflexivity]];
    (destruct (deployAll env network (privateKeyOf deployerKey key) ALL_CHAINS [] _)
       as [[results|e] w2]; [|reflexivity];
     destruct (writeFileSync env _) as [[]|e]; reflexivity).
Qed.

Lemma withOutputDir_frame env w :
  posted (withOutputDir env w) = posted w /\ docker (withOutputDir env w) = docker w
  /\ sleeps (withOutputDir env w) = sleeps w
  /\ forkChecks (withOutputDir env w) = forkChecks w
  /\ files (withOutputDir env w) = files w /\ printed (withOutputDir env w) = printed w.
Proof. unfold withOutputDir. destruct (outputDirExists env); simpl; auto 10. Qed.

(** X18. A run of [main] that completes has written one result file per
    chain, in the order of ALL_CHAINS, then the combined file keyed by those
    five chains, and has printed running, pending and failed counts that add
    up to five. A run that throws has written the result files of an initial
    part of ALL_CHAINS and nothing else, no combined file and no summary;
    when all five were written, what it throws is the failure to write the
    combined file. *)
Theorem main_outputs env network deployerKey key w :
  let run := main env network deployerKey key w in
  match run.1 with
  | Returned _ =>
    exists results,
      ChainProvisioning.chain <$> results = ALL_CHAINS
      /\ files run.2
         = (files w ++ (perChainFile env network <$> results)
                    ++ [Combined network (isoNow env) (byChain results)])%list
      /\ printed run.2 = (printed w ++ [summarize results])%list
      /\ (runningCount (summarize results) + pendingCount (summarize results)
          + failedCount (summarize results))%nat = 5%nat
  | Thrown e =>
    exists results,
      files run.2 = (files w ++ (perChainFile env network <$> results))%list
      /\ (ChainProvisioning.chain <$> results) `prefix_of` ALL_CHAINS
      /\ printed run.2 = printed w
      /\ (length results = 5%nat ->
          writeFileSync env (Combined network (isoNow env) (byChain results)) = Thrown e)
  end.
Proof.
  cbv zeta. rewrite main_unfold.
  destruct (if outputDirExists env then Returned tt else mkdirSync env) as [[]|e0].
  2:{ cbn [fst snd]. exists []. rewrite app_nil_r.
      repeat split; [apply prefix_nil | discriminate]. }
  destruct (withOutputDir_frame env w) as (_ & _ & _ & _ & Hf0 & Hp0).
  pose proof (deployAll_spec env network (privateKeyOf deployerKey key) ALL_CHAINS []
                (withOutputDir env w)) as Hall.
  cbv zeta in Hall.
  destruct (deployAll env network (privateKeyOf deployerKey key) ALL_CHAINS []
              (withOutputDir env w)) as [[results|e] w2]; cbn [fst snd app] in Hall.
  - destruct Hall as (Hpr & _ & _ & _ & new & -> & Hch & Hfi).
    destruct (writeFileSync env (Combined network (isoNow env) (byChain new)))
      as [[]|e] eqn:Hw; cbn [fst snd files printed].
    + exists new. split; [exact Hch|].
      split; [rewrite Hfi, Hf0, <- app_assoc; reflexivity|].
      split; [congruence|].
      rewrite summarize_total. apply (f_equal length) in Hch.
      rewrite length_fmap in Hch. exact Hch.
    + exists new. split; [congruence|].
      split; [rewrite Hch; reflexivity|]. split; [congruence|]. intros _. exact Hw.
  - cbn [fst snd]. destruct Hall as (Hpr & _ & _ & _ & new & Hfi & Hpre & Hlen).
    exists new. split; [congruence|]. split; [exact Hpre|]. split; [congruence|].
    intros H5. rewrite H5 in Hlen. simpl in Hlen. lia.
Qed.

(** The combined file cannot be written: the run throws after the five
    per-chain files, without a summary. *)
Example main_combined_write_fails :
  let run := main (script_env_on quiet_docker Scenario.refused no_combined_file) mainnet
               None None empty_script in
  run.1 = Thrown (Rejected "ENOSPC: no space left on device")
  /\ length (files run.2) = 5%nat
  /\ printed run.2 = [].
Proof. vm_compute. repeat split. Qed.

Lemma deployOne_without_key env network privateKey chain w :
  network <> localnet ->
  truthy_string privateKey = None ->
  let skipped :=
    mkResult network chain dws None "" ""
             (match network with mainnet => true | _ => false end) pending in
  deployOne env network privateKey chain w
  = match writeFileSync env (perChainFile env network skipped) with
    | Returned _ =>
      (Returned skipped,
       mkScript (posted w) (docker w) (sleeps w) (forkChecks w) (madeOutputDir w)
                (files w ++ [perChainFile env network skipped]) (printed w))
    | Thrown e => (Thrown e, w)
    end.
Proof.
  intros Hnet Hkey. cbv zeta. rewrite deployOne_unfold.
  unfold deployChain, perChainFile, Eff.ret.
  rewrite Hkey. destruct network; [congruence| |]; reflexivity.
Qed.

Lemma deployAll_without_key_posted env network privateKey chains :
  network <> localnet ->
  truthy_string privateKey = None ->
  forall results w,
    posted (deployAll env network privateKey chains results w).2 = posted w.
Proof.
  intros Hnet Hkey. induction chains as [|c rest IH]; intros results w; [reflexivity|].
  cbn [deployAll]. unfold Eff.bind.
  rewrite (deployOne_without_key env network privateKey c w Hnet Hkey).
  destruct (writeFileSync env _) as [[]|e]; [|reflexivity].
  rewrite IH. reflexivity.
Qed.

Lemma deployAll_without_key env network privateKey chains :
  network <> localnet ->
  truthy_string privateKey = None ->
  (forall f, writeFileSync env f = Returned tt) ->
  let skipped chain :=
    mkResult network chain dws None "" ""
             (match network with mainnet => true | _ => false end) pending in
  forall results w,
    deployAll env network privateKey chains results w
    = (Returned (results ++ (skipped <$> chains))%list,
       mkScript (posted w) (docker w) (sleeps w) (forkChecks w) (madeOutputDir w)
                (files w ++ (perChainFile env network <$> (skipped <$> chains)))
                (printed w)).
Proof.
  intros Hnet Hkey Hwrites skipped.
  induction chains as [|c rest IH]; intros results w.
  - cbn [deployAll fmap list_fmap]. unfold Eff.ret. rewrite !app_nil_r.
    destruct w; reflexivity.
  - cbn [deployAll]. unfold Eff.bind.
    rewrite (deployOne_without_key env network privateKey c w Hnet Hkey), Hwrites.
    rewrite IH. cbn [posted docker sleeps forkChecks madeOutputDir files printed].
    rewrite !fmap_cons, <- !app_assoc. reflexivity.
Qed.

Lemma main_frame env network deployerKey key w :
  let w' := (main env network deployerKey key w).2 in
  (network = localnet -> posted w' = posted w)
  /\ (network <> localnet ->
      docker w' = docker w /\ sleeps w' = sleeps w /\ forkChecks w' = forkChecks w).
Proof.
  cbv zeta. rewrite main_unfold.
  destruct (if outputDirExists env then Returned tt else mkdirSync env) as [[]|e0];
    [|cbn [snd]; auto].
  destruct (withOutputDir_frame env w) as (Hp & Hd & Hs & Hfc & _ & _).
  pose proof (deployAll_spec env network (privateKeyOf deployerKey key) ALL_CHAINS []
                (withOutputDir env w)) as Hall.
  cbv zeta in Hall. destruct Hall as (_ & _ & Hpo & Hdo & _).
  destruct (deployAll env network (privateKeyOf deployerKey key) ALL_CHAINS []
              (withOutputDir env w)) as [[results|e] w2];
    [destruct (writeFileSync env _) as [[]|e]|];
    cbn [fst snd posted docker sleeps forkChecks] in *;
    (split; [intros Hn; rewrite (Hpo Hn); exact Hp
            |intros Hn; destruct (Hdo Hn) as (? & ? & ?); repeat split; congruence]).
Qed.

(** X19. On testnet or mainnet without a private key, [main] contacts
    nothing: whatever happens to its files it posts no provisioning request
    and runs no docker command; and when the output directory can be created
    and written it completes with all five chains written as pending, with
    empty endpoints and the TEE flag set exactly on mainnet. *)
Theorem main_without_key env network deployerKey key w :
  network <> localnet ->
  truthy_string (privateKeyOf deployerKey key) = None ->
  let skipped chain :=
    mkResult network chain dws None "" ""
             (match network with mainnet => true | _ => false end) pending in
  let results := skipped <$> ALL_CHAINS in
  (posted (main env network deployerKey key w).2 = posted w
   /\ docker (main env network deployerKey key w).2 = docker w)
  /\ (writable env ->
      main env network deployerKey key w
      = (Returned tt,
         mkScript (posted w) (docker w) (sleeps w) (forkChecks w)
                  (if outputDirExists env then madeOutputDir w else true)
                  (files w ++ (perChainFile env network <$> results)
                           ++ [Combined network (isoNow env) (byChain results)])
                  (printed w ++ [mkSummary 0 5 0]))).
Proof.
  intros Hnet Hkey skipped results. subst skipped results.
  split; [split|].
  - rewrite main_unfold.
    destruct (if outputDirExists env then Returned tt else mkdirSync env) as [[]|e0];
      [|reflexivity].
    pose proof (deployAll_without_key_posted env network (privateKeyOf deployerKey key)
                  ALL_CHAINS Hnet Hkey [] (withOutputDir env w)) as Hpo.
    destruct (withOutputDir_frame env w) as (Hp & _).
    destruct (deployAll env network (privateKeyOf deployerKey key) ALL_CHAINS []
                (withOutputDir env w)) as [[all|e] w2];
      [destruct (writeFileSync env _) as [[]|e]|];
      cbn [fst snd posted] in *; congruence.
  - apply (main_frame env network deployerKey key w). exact Hnet.
  - intros [Hmkdir Hwrites]. rewrite main_unfold.
    assert (Hdir : (if outputDirExists env then Returned tt else mkdirSync env)
                   = Returned tt).
    { destruct (outputDirExists env); [reflexivity | now apply Hmkdir]. }
    rewrite Hdir.
    rewrite (deployAll_without_key env network _ ALL_CHAINS Hnet Hkey Hwrites), Hwrites.
    cbn [posted docker sleeps forkChecks madeOutputDir files printed app].
    rewrite <- app_assoc.
    destruct (withOutputDir_frame env w) as (-> & -> & -> & -> & -> & ->).
    f_equal. f_equal.
    unfold withOutputDir. destruct (outputDirExists env); reflexivity.
Qed.

Lemma main_without_key_witness :
  let run := main (script_env quiet_docker Scenario.refused) mainnet (Some "") None
               empty_script in
  run.1 = Returned tt
  /\ posted run.2 = [] /\ docker run.2 = []
  /\ length (files run.2) = 6%nat
  /\ printed run.2 = [mkSummary 0 5 0].
Proof.
  intros run. subst run.
  destruct (main_without_key (script_env quiet_docker Scenario.refused) mainnet (Some "")
              None empty_script ltac:(discriminate) eq_refl) as [_ Hrun].
  rewrite Hrun; [repeat split|].
  split; [reflexivity | intros f; reflexivity].
Defined.

(** X20. The two deployment paths never mix: on localnet [main] posts no
    request to the DWS provisioning API, and on testnet and mainnet it runs no
    docker command, never sleeps and probes no fork. *)
Theorem main_paths_do_not_mix env network deployerKey key w :
  let w' := (main env network deployerKey key w).2 in
  (network = localnet -> posted w' = posted w)
  /\ (network <> localnet ->
      docker w' = docker w /\ sleeps w' = sleeps w /\ forkChecks w' = forkChecks w).
Proof. exact (main_frame env network deployerKey key w). Qed.

Lemma deployOne_with_key env network privateKey key chain config w :
  network <> localnet ->
  truthy_string privateKey = Some key ->
  dws_answers (dwsApi env) ->
  lookupConfig chain (modeOf network) = Some config ->
  exists res req,
    deployOne env network privateKey chain w
    = match writeFileSync env (PerChain network chain res (isoNow env)) with
      | Returned _ =>
        (Returned res,
         mkScript (posted w ++ [req]) (docker w) (sleeps w) (forkChecks w)
                  (madeOutputDir w)
                  (files w ++ [PerChain network chain res (isoNow env)]) (printed w))
      | Thrown e =>
        (Thrown e,
         mkScript (posted w ++ [req]) (docker w) (sleeps w) (forkChecks w)
                  (madeOutputDir w) (files w) (printed w))
      end
    /\ req_config req = containerConfigOf chain network config
    /\ req_machineType req = (if teeRequired config then "tee-large" else "xlarge").
Proof.
  intros Hnet Hkey (Hacc & Hsig & Hfetch) Hcfg.
  assert (Hrun : exists res req,
    deployDWSNode (dwsApi env) chain (modeOf network) network key (posted w)
    = (Returned res, (posted w ++ [req])%list)
    /\ req_config req = containerConfigOf chain network config
    /\ req_machineType req = (if teeRequired config then "tee-large" else "xlarge")).
  { unfold deployDWSNode, post, Eff.bind, Eff.await, Eff.throw, Eff.modify, Eff.ret.
    rewrite Hcfg. destruct (Hacc key) as [account ->]. simpl.
    destruct (Hsig (containerConfigOf chain network config) (now (dwsApi env)))
      as [signature ->]. simpl.
    match goal with
    | |- context [fetch (dwsApi env) ?r] =>
        destruct (Hfetch r) as (resp & -> & [body Hb] & [reply Hr])
    end. simpl.
    destruct (ok resp); simpl; [rewrite Hr | rewrite Hb]; simpl; eauto. }
  destruct Hrun as (res & req & Hrun & Hc & Hm).
  exists res, req. split; [|auto].
  rewrite deployOne_unfold. unfold deployChain, lift_dws. rewrite Hkey.
  destruct network; [congruence| |]; cbv zeta; cbn [modeOf] in Hrun; rewrite Hrun;
    destruct (writeFileSync env _) as [[]|e]; reflexivity.
Qed.

Lemma deployAll_with_key env network privateKey key chains :
  network <> localnet ->
  truthy_string privateKey = Some key ->
  dws_answers (dwsApi env) ->
  Forall (fun c => exists config, lookupConfig c (modeOf network) = Some config
                                  /\ teeRequired config
                                     = bool_decide (network = mainnet)) chains ->
  forall results w,
    exists reqs,
      posted (deployAll env network privateKey chains results w).2
      = (posted w ++ reqs)%list
      /\ ((fun r => label_chain (req_config r)) <$> reqs) `prefix_of` chains
      /\ Forall (fun r => req_machineType r
                          = if bool_decide (network = mainnet) then "tee-large"
                            else "xlarge") reqs
      /\ ((forall f, writeFileSync env f = Returned tt) ->
          (exists all, (deployAll env network privateKey chains results w).1 = Returned all)
          /\ (fun r => label_chain (req_config r)) <$> reqs = chains).
Proof.
  intros Hnet Hkey Hdws Hall. induction Hall as [|c rest (config & Hcfg & Htee) _ IH];
    intros results w; cbn [deployAll].
  - exists []. unfold Eff.ret. cbn [fst snd]. rewrite app_nil_r.
    repeat split; eauto using prefix_nil.
  - destruct (deployOne_with_key env network privateKey key c config w Hnet Hkey Hdws Hcfg)
      as (res & req & Hone & Hc & Hm).
    assert (Hlabel : label_chain (req_config req) = c) by (rewrite Hc; reflexivity).
    assert (Hmachine : req_machineType req
                       = if bool_decide (network = mainnet) then "tee-large" else "xlarge")
      by (rewrite Hm, Htee; reflexivity).
    unfold Eff.bind. rewrite Hone.
    destruct (writeFileSync env (PerChain network c res (isoNow env))) as [[]|e] eqn:Hw.
    + destruct (IH (results ++ [res])%list
                   (mkScript (posted w ++ [req]) (docker w) (sleeps w) (forkChecks w)
                      (madeOutputDir w)
                      (files w ++ [PerChain network c res (isoNow env)]) (printed w)))
        as (reqs & Hposted & Hchains & Hmachines & Hdone).
      exists (req :: reqs).
      split; [rewrite Hposted; cbn [posted]; now rewrite <- app_assoc|].
      split; [rewrite fmap_cons, Hlabel; now apply prefix_cons|].
      split; [now constructor|].
      intros Hwrites. destruct (Hdone Hwrites) as [Hret Hall'].
      split; [exact Hret | rewrite fmap_cons, Hlabel, Hall'; reflexivity].
    + exists [req]. cbn [fst snd posted].
      split; [reflexivity|].
      split; [rewrite fmap_cons, Hlabel; apply prefix_cons, prefix_nil|].
      split; [repeat constructor; exact Hmachine|].
      intros Hwrites. rewrite Hwrites in Hw. discriminate.
Qed.



End ChainDeploymentFacts.

Section DashboardActivityFacts.
Import DashboardActivity.

Lemma insertByTime_perm a l : insertByTime a l ≡ₚ a :: l.
Proof.
  induction l as [|b rest IH]; simpl; [reflexivity|].
  destruct (timestamp b <=? timestamp a); [reflexivity|].
  rewrite IH. apply Permutation_swap.
Qed.

Lemma sortByTime_perm l : sortByTime l ≡ₚ l.
Proof.
  induction l as [|a l IH]; simpl; [reflexivity|].
  now rewrite insertByTime_perm, IH.
Qed.

Lemma insertByTime_sorted a l :
  StronglySorted newer_first l -> StronglySorted newer_first (insertByTime a l).
Proof.
  induction 1 as [|b rest Hrest IH Hall]; simpl; [repeat constructor|].
  destruct (Z.leb_spec (timestamp b) (timestamp a)) as [Hle|Hgt].
  - constructor; [now constructor|].
    constructor; [exact Hle|].
    eapply Forall_impl; [exact Hall|]. unfold newer_first. intros c Hc. lia.
  - constructor; [exact IH|].
    rewrite insertByTime_perm. constructor; [unfold newer_first; lia | exact Hall].
Qed.

Lemma sortByTime_sorted l : StronglySorted newer_first (sortByTime l).
Proof.
  induction l as [|a l IH]; simpl; [constructor | now apply insertByTime_sorted].
Qed.

Lemma sorted_take_drop (l : list Activity) n :
  StronglySorted newer_first l ->
  forall a b, a ∈ take n l -> b ∈ drop n l -> timestamp b <= timestamp a.
Proof.
  intros Hs a b Ha Hb. rewrite <- (take_drop n l) in Hs.
  apply (StronglySorted_app_1_elem_of _ _ _ a b Hs Ha Hb).
Qed.

(** X22. The recent-activity list shows at most eight activities, most
    recent first, and they are the most recent ones: the activities left out
    are, together with the shown ones, exactly the activities built from the
    input, and none of them is more recent than any shown one; up to eight
    activities are all shown. *)
Theorem recentActivities_most_recent executions functions jobs :
  let shown := recentActivities executions functions jobs in
  let all := activities executions functions jobs in
  (length shown <= 8)%nat
  /\ StronglySorted (fun a b => timestamp b <= timestamp a) shown
  /\ exists hidden,
       shown ++ hidden ≡ₚ all
       /\ (forall a b, a ∈ shown -> b ∈ hidden -> timestamp b <= timestamp a)
       /\ ((length all <= 8)%nat -> hidden = []).
Proof.
  intros shown all. subst shown. unfold recentActivities. fold all.
  split; [rewrite length_take; lia|].
  split.
  { pose proof (sortByTime_sorted all) as Hs.
    rewrite <- (take_drop 8 (sortByTime all)) in Hs.
    apply StronglySorted_app_1_l in Hs. exact Hs. }
  exists (drop 8 (sortByTime all)).
  split; [rewrite take_drop; apply sortByTime_perm|].
  split; [apply sorted_take_drop, sortByTime_sorted|].
  intros Hlen. apply drop_ge.
  rewrite (Permutation_length (sortByTime_perm all)). exact Hlen.
Qed.

Lemma filter_insertByTime t a l :
  filter (fun x => timestamp x = t) (insertByTime a l)
  = filter (fun x => timestamp x = t) (a :: l).
Proof.
  induction l as [|b rest IH]; simpl; [reflexivity|].
  destruct (Z.leb_spec (timestamp b) (timestamp a)) as [Hle|Hgt]; [reflexivity|].
  rewrite (filter_cons _ b (insertByTime a rest)), IH, !filter_cons.
  destruct (decide (timestamp b = t)) as [Hb|Hb];
    destruct (decide (timestamp a = t)) as [Ha|Ha]; try reflexivity.
  lia.
Qed.

Lemma filter_sortByTime t l :
  filter (fun x => timestamp x = t) (sortByTime l) = filter (fun x => timestamp x = t) l.
Proof.
  induction l as [|a l IH]; simpl; [reflexivity|].
  rewrite filter_insertByTime, !filter_cons, IH. reflexivity.
Qed.

Lemma filter_take_prefix {A} (P : A -> Prop) `{forall x, Decision (P x)} n (l : list A) :
  filter P (take n l) `prefix_of` filter P l.
Proof.
  exists (filter P (drop n l)). now rewrite <- filter_app, take_drop.
Qed.

(** X23. Activities with the same timestamp are shown in the order in which
    they were built -- containers, then workers, then jobs, each in input
    order: the shown activities of any one timestamp are an initial part of
    the input's activities of that timestamp. *)
Theorem recentActivities_ties_in_input_order executions functions jobs t :
  filter (fun a => timestamp a = t) (recentActivities executions functions jobs)
  `prefix_of` filter (fun a => timestamp a = t) (activities executions functions jobs).
Proof.
  unfold recentActivities.
  rewrite <- (filter_sortByTime t (activities executions functions jobs)).
  apply filter_take_prefix.
Qed.

(** *** Names and time labels *)

Lemma substring_short n s : (String.length s <= n)%nat -> substring 0 n s = s.
Proof.
  revert n. induction s as [|a s IH]; intros n Hn; simpl in *.
  - now destruct n.
  - destruct n as [|n]; [lia|]. f_equal. apply IH. lia.
Qed.

Lemma substring_length n s : (n <= String.length s)%nat -> String.length (substring 0 n s) = n.
Proof.
  revert n. induction s as [|a s IH]; intros n Hn; simpl in *.
  - destruct n; [reflexivity|lia].
  - destruct n as [|n]; [reflexivity|]. simpl. f_equal. apply IH. lia.
Qed.

Lemma length_append_string s1 s2 :
  String.length (s1 +:+ s2) = (String.length s1 + String.length s2)%nat.
Proof. induction s1 as [|a s1 IH]; [reflexivity | exact (f_equal S IH)]. Qed.

Lemma append_empty_r s : s +:+ "" = s.
Proof. induction s as [|a s IH]; [reflexivity | exact (f_equal (String a) IH)]. Qed.

(** X24. A job is listed under its command when that has at most 30 code
    units, and otherwise under the first 30 followed by three dots, 33 in all;
    a job that has not started is never listed, and a listed job carries its
    start time. *)
Theorem job_activity_name j :
  ((String.length (command j) <= 30)%nat -> jobName (command j) = command j)
  /\ ((30 < String.length (command j))%nat ->
      jobName (command j) = substring 0 30 (command j) +:+ "..."
      /\ String.length (jobName (command j)) = 33%nat)
  /\ (job_startedAt j = None -> ofJob j = None)
  /\ (forall a, ofJob j = Some a ->
        job_startedAt j = Some (timestamp a) /\ name a = jobName (command j)
        /\ id a = jobId j /\ type a = job).
Proof.
  unfold jobName, ofJob. split; [|split; [|split]].
  - intros Hlen. destruct (Nat.ltb_spec 30 (String.length (command j))); [lia|].
    cbv iota. now rewrite append_empty_r, substring_short.
  - intros Hlen. destruct (Nat.ltb_spec 30 (String.length (command j))); [|lia].
    cbv iota. split; [reflexivity|].
    rewrite length_append_string, substring_length by lia. reflexivity.
  - now intros ->.
  - intros a. destruct (job_startedAt j) as [t|]; [|discriminate].
    intros [= <-]. simpl. auto.
Qed.

Lemma contains_split_part sep c s :
  Forall (fun p => contains c p = true -> contains c s = true) (split sep s).
Proof.
  induction s as [|a s IH]; simpl; [repeat constructor; auto|].
  destruct (Ascii.eqb a sep).
  - constructor; [discriminate|].
    eapply Forall_impl; [exact IH|]. simpl. intros p Hp Hc.
    rewrite (Hp Hc). apply orb_true_r.
  - destruct (split sep s) as [|part parts] eqn:Hs.
    + repeat constructor. simpl. rewrite orb_false_r. intros ->. reflexivity.
    + apply Forall_cons in IH as [Hpart Hparts].
      constructor.
      * simpl. intros Hc. apply orb_true_iff in Hc as [->|Hc]; [reflexivity|].
        rewrite (Hpart Hc). apply orb_true_r.
      * eapply Forall_impl; [exact Hparts|]. simpl. intros p Hp Hc.
        rewrite (Hp Hc). apply orb_true_r.
Qed.

Lemma split_parts_free sep s : Forall (fun p => contains sep p = false) (split sep s).
Proof.
  induction s as [|a s IH]; simpl; [repeat constructor|].
  destruct (Ascii.eqb a sep) eqn:Ha.
  - constructor; [reflexivity | exact IH].
  - destruct (split sep s) as [|part parts].
    + repeat constructor. simpl. now rewrite Ha.
    + apply Forall_cons in IH as [Hpart Hparts].
      constructor; [simpl; now rewrite Ha, Hpart | exact Hparts].
Qed.

Lemma split_not_nil sep s : split sep s <> [].
Proof.
  destruct s as [|a s]; simpl; [discriminate|].
  destruct (Ascii.eqb a sep); [discriminate|].
  destruct (split sep s); discriminate.
Qed.

Lemma split_no_separator sep s : contains sep s = false -> split sep s = [s].
Proof.
  induction s as [|a s IH]; simpl; [reflexivity|].
  intros Hc. apply orb_false_iff in Hc as [Ha Hs].
  rewrite Ha, (IH Hs). reflexivity.
Qed.

Lemma append_assoc_string s1 s2 s3 : (s1 +:+ s2) +:+ s3 = s1 +:+ (s2 +:+ s3).
Proof. induction s1 as [|a s1 IH]; [reflexivity | exact (f_equal (String a) IH)]. Qed.

Lemma contains_append c s1 s2 :
  contains c (s1 +:+ s2) = contains c s1 || contains c s2.
Proof.
  induction s1 as [|a s1 IH]; [reflexivity|].
  change (String a s1 +:+ s2) with (String a (s1 +:+ s2)).
  cbn [contains]. rewrite IH. apply orb_assoc.
Qed.

(** The first piece of a split is what precedes the first separator. *)
Lemma split_head sep s :
  exists h post,
    head (split sep s) = Some h /\ s = h +:+ post
    /\ (post = "" \/ exists q, post = String sep q)
    /\ contains sep h = false.
Proof.
  induction s as [|a s (h & post & Hh & Hs & Hpost & Hfree)].
  - exists "", "". auto.
  - cbn [split]. destruct (Ascii.eqb_spec a sep) as [->|Hne].
    + exists "", (String sep s). repeat split; eauto.
    + destruct (split sep s) as [|part parts]; [discriminate|].
      injection Hh as ->.
      exists (String a h), post. split; [reflexivity|].
      split; [exact (f_equal (String a) Hs)|]. split; [exact Hpost|].
      cbn [contains]. rewrite Hfree. apply Ascii.eqb_neq in Hne. now rewrite Hne.
Qed.

(** The last piece of a split is what follows the last separator. *)
Lemma split_last_aux sep s :
  exists pre l,
    last (split sep s) = Some l /\ s = pre +:+ l
    /\ (pre = "" \/ exists p, pre = p +:+ String sep "")
    /\ contains sep l = false
    /\ (length (split sep s) = 1%nat -> pre = "").
Proof.
  induction s as [|a s (pre & l & Hl & Hs & Hpre & Hfree & Hone)].
  - exists "", "". auto 6.
  - cbn [split]. destruct (Ascii.eqb_spec a sep) as [->|Hne].
    + exists (String sep pre), l.
      destruct (split sep s) as [|part parts] eqn:Hsp; [discriminate|].
      split; [exact Hl|]. split; [exact (f_equal (String sep) Hs)|].
      split; [|split; [exact Hfree | discriminate]].
      right. destruct Hpre as [->|[p ->]]; [now exists "" | now exists (String sep p)].
    + apply Ascii.eqb_neq in Hne.
      destruct (split sep s) as [|part [|p2 parts]] eqn:Hsp; [discriminate| |].
      * injection Hl as <-. rewrite (Hone eq_refl) in Hs.
        exists "", (String a part). split; [reflexivity|].
        split; [exact (f_equal (String a) Hs)|]. split; [now left|].
        split; [|reflexivity]. cbn [contains]. now rewrite Hne, Hfree.
      * exists (String a pre), l. split; [exact Hl|].
        split; [exact (f_equal (String a) Hs)|].
        split; [|split; [exact Hfree | discriminate]].
        right. destruct Hpre as [->|[p ->]]; [|now exists (String a p)].
        exfalso. change ("" +:+ l) with l in Hs. subst s.
        rewrite (split_no_separator sep l Hfree) in Hsp. discriminate.
Qed.

(** X25. The display name of a container is the piece of the image between
    its last slash and the first colon after it, and the whole image when
    that piece is empty: the image reads [pre ++ namePart ++ post] where
    [pre] is empty or ends with a slash, [post] is empty or starts with a
    colon, and neither [namePart] nor [post] holds a slash, nor [namePart] a
    colon. So the name is never empty for a non-empty image, it is the whole
    image or a piece of it with no slash and no colon, and an image without
    slash and colon is shown as it is. *)
Theorem containerName_spec img :
  (img <> "" -> containerName img <> "")
  /\ (containerName img = img
      \/ (contains slash (containerName img) = false
          /\ contains colon (containerName img) = false))
  /\ (contains slash img = false -> contains colon img = false ->
      containerName img = img)
  /\ (exists pre namePart post,
        img = pre +:+ namePart +:+ post
        /\ (pre = "" \/ exists p, pre = p +:+ String slash "")
        /\ (post = "" \/ exists q, post = String colon q)
        /\ contains slash namePart = false /\ contains colon namePart = false
        /\ contains slash post = false
        /\ containerName img = if String.eqb namePart "" then img else namePart).
Proof.
  destruct (split_last_aux slash img)
    as (pre & lastPart & Hlast & Himg & Hpre & Hno_slash_last & _).
  destruct (split_head colon lastPart)
    as (namePart & post & Hhead & Hlp & Hpost & Hno_colon).
  assert (Hslashes : contains slash namePart = false /\ contains slash post = false).
  { rewrite Hlp, contains_append in Hno_slash_last.
    now apply orb_false_iff in Hno_slash_last. }
  destruct Hslashes as [Hno_slash Hno_slash_post].
  assert (Hname : containerName img = if String.eqb namePart "" then img else namePart).
  { unfold containerName. cbv zeta. rewrite Hlast.
    change (default EmptyString (Some lastPart)) with lastPart.
    rewrite Hhead. reflexivity. }
  split; [|split; [|split]].
  - intros Hne. rewrite Hname.
    destruct (String.eqb_spec namePart ""); [exact Hne | assumption].
  - rewrite Hname. destruct (String.eqb_spec namePart ""); [now left | right; auto].
  - intros Hs Hc. rewrite Hname.
    destruct (String.eqb_spec namePart ""); [reflexivity|].
    rewrite (split_no_separator slash img Hs) in Hlast. injection Hlast as <-.
    rewrite (split_no_separator colon img Hc) in Hhead. now injection Hhead as <-.
  - exists pre, namePart, post. rewrite Himg at 1. rewrite Hlp at 1. auto 10.
Qed.

(** X26. The time label depends on the age [now - timestamp] alone: under a
    minute -- and for any timestamp in the future -- it is "Just now"; a
    minutes label shows 1 to 59 whole minutes, an hours label 1 to 23 whole
    hours, both rounded down; from 24 hours on the date is shown. *)
Theorem formatTime_spec now ts :
  match formatTime now ts with
  | JustNow => now - ts < 60000
  | MinutesAgo m => 1 <= m <= 59 /\ 60000 * m <= now - ts < 60000 * (m + 1)
  | HoursAgo h => 1 <= h <= 23 /\ 3600000 * h <= now - ts < 3600000 * (h + 1)
  | LocaleDate t => t = ts /\ 86400000 <= now - ts
  end.
Proof.
  unfold formatTime.
  destruct (Z.ltb_spec (now - ts) 60000); [assumption|].
  destruct (Z.ltb_spec (now - ts) 3600000).
  - pose proof (Z.div_mod (now - ts) 60000 ltac:(lia)).
    pose proof (Z.mod_pos_bound (now - ts) 60000 ltac:(lia)). lia.
  - destruct (Z.ltb_spec (now - ts) 86400000).
    + pose proof (Z.div_mod (now - ts) 3600000 ltac:(lia)).
      pose proof (Z.mod_pos_bound (now - ts) 3600000 ltac:(lia)). lia.
    + auto.
Qed.

Example containerName_of_tagged_image :
  containerName "ghcr.io/foundry-rs/foundry:latest" = "foundry".
Proof. reflexivity. Qed.

Example containerName_of_bare_tag : containerName "registry/:edge" = "registry/:edge".
Proof. reflexivity. Qed.

Example split_trailing_separator : split slash "a/" = ["a"; ""].
Proof. reflexivity. Qed.

End DashboardActivityFacts.
